(** * The request-execution core of amazon-sp-api-mcp

    A shallow embedding of
      - [amazon_sp_api_mcp/client/error_handler.py]  (retry policy),
      - [amazon_sp_api_mcp/client/rate_limiter.py]   (token buckets),
      - [amazon_sp_api_mcp/auth/lwa_auth.py]         (bearer-token cache),
      - [amazon_sp_api_mcp/auth/aws_auth.py]         (request signing),
      - [amazon_sp_api_mcp/client/http_client.py]    (the request pipeline),
      - [amazon_sp_api_mcp/config.py]                (limits, validation),
    followed by the properties of that code.

    Modelling conventions.
      - Python objects that flow through dictionaries and JSON bodies are
        values of [PyVal]; [str.encode('utf-8')] is the identity, a Rocq
        [string] being a sequence of bytes.
      - Python [float]s (bucket levels, clock readings, delays) are exact
        rationals [Q]; [datetime] values are seconds on the same clock.
        Where the arithmetic of the library raises (the conversion of an
        integer from [2 ** 1024] on into a float, a [timedelta] or a
        [datetime] out of range) the model raises the same exception.
      - Mutable objects live in one [State]; every method is a function
        [State -> Outcome A * State].  A raised exception keeps the mutations
        made before it, as in Python.
      - The outside world (wall clock, random source, token endpoint, STS,
        SP-API transport) is an [Env] of answer functions, indexed by how
        many times each was asked; the counters are part of the [State].
      - Library code that is not part of the repository (urljoin, json,
        str(), SigV4) is a [Lib] of functions the model is parametric in.
      - Logging is not modelled. *)

From Stdlib Require Import ZArith QArith Qminmax Lqa Lia.
From stdpp Require Import gmap strings pretty.

Local Open Scope string_scope.

(** ** Python values and exceptions *)

#[warnings="-register-all"]
Inductive PyVal : Type :=
| VNone
| VBool (b : bool)
| VInt (n : Z)
| VStr (s : string)
| VBytes (s : string)
| VList (xs : list PyVal)
| VDict (kv : list (string * PyVal)).

(** [bool(v)]. *)
Definition truthy (v : PyVal) : bool :=
  match v with
  | VNone => false
  | VBool b => b
  | VInt n => negb (n =? 0)%Z
  | VStr s | VBytes s => negb (String.eqb s "")
  | VList xs => match xs with [] => false | _ => true end
  | VDict kv => match kv with [] => false | _ => true end
  end.

Definition type_name (v : PyVal) : string :=
  match v with
  | VNone => "NoneType"
  | VBool _ => "bool"
  | VInt _ => "int"
  | VStr _ => "str"
  | VBytes _ => "bytes"
  | VList _ => "list"
  | VDict _ => "dict"
  end.

(** The integer a value stands for in arithmetic and comparisons
    ([bool] is a subclass of [int]); [None] for every other type. *)
Definition as_int (v : PyVal) : option Z :=
  match v with
  | VInt n => Some n
  | VBool b => Some (if b then 1 else 0)%Z
  | _ => None
  end.

(** [v == n] for an [int] literal [n]: never raises. *)
Definition py_eq_int (v : PyVal) (n : Z) : bool :=
  match as_int v with
  | Some m => (m =? n)%Z
  | None => false
  end.

(** [v in [n1, n2, ...]]. *)
Definition py_in_ints (v : PyVal) (ns : list Z) : bool :=
  existsb (py_eq_int v) ns.

(** [d.get(k)] on a dictionary with string keys. *)
Definition dict_get (d : gmap string PyVal) (k : string) : PyVal :=
  default VNone (d !! k).

(** Lookup in a dictionary literal of a JSON body (first binding wins). *)
Fixpoint assoc (kv : list (string * PyVal)) (k : string) : option PyVal :=
  match kv with
  | [] => None
  | (k', v) :: kv' => if String.eqb k' k then Some v else assoc kv' k
  end.

Inductive PyExc : Type :=
| SPAPIError (message : string) (details : gmap string PyVal)
| ConnectionError (message : string)
| TimeoutError (message : string)
| RequestException (message : string)
| TypeError (message : string)
| KeyError (key : string)
| ZeroDivisionError (message : string)
| OverflowError (message : string)
| RecursionError (message : string)
| ValueError' (message : string)
| Exception (message : string).

(** [str(e)]. *)
Definition exc_str (e : PyExc) : string :=
  match e with
  | SPAPIError m _ | ConnectionError m | TimeoutError m | RequestException m
  | TypeError m | ZeroDivisionError m | OverflowError m | RecursionError m
  | ValueError' m | Exception m => m
  | KeyError k => "'" +:+ k +:+ "'"
  end.

(** What a call produces: a value, an exception, or nothing yet when a
    waiting loop was cut off by its iteration budget. *)
Inductive Outcome (A : Type) : Type :=
| Ret (a : A)
| Raise (e : PyExc)
| Pending.
Arguments Ret {A} a.
Arguments Raise {A} e.
Arguments Pending {A}.

(** [n <= v] and [v < n] against an [int] literal: [TypeError] unless [v]
    is a number. *)
Definition py_int_le (n : Z) (v : PyVal) : Outcome bool :=
  match as_int v with
  | Some m => Ret (n <=? m)%Z
  | None => Raise (TypeError ("'<=' not supported between instances of 'int' and '"
                              +:+ type_name v +:+ "'"))
  end.

Definition py_lt_int (v : PyVal) (n : Z) : Outcome bool :=
  match as_int v with
  | Some m => Ret (m <? n)%Z
  | None => Raise (TypeError ("'<' not supported between instances of '"
                              +:+ type_name v +:+ "' and 'int'"))
  end.

(** The chained comparison [lo <= v < hi]. *)
Definition py_chain_le_lt (lo : Z) (v : PyVal) (hi : Z) : Outcome bool :=
  match py_int_le lo v with
  | Ret true => py_lt_int v hi
  | r => r
  end.

(** ** Configuration ([config.py]) *)

Record SPAPIConfig : Type := {
  client_id : string;
  client_secret : string;
  refresh_token : string;
  aws_access_key_id : string;
  aws_secret_access_key : string;
  aws_region : string;
  aws_role_arn : string;
  aws_session_token : option string;
  base_url : string;
  rate_limit_buffer : Q;
  retry_attempts : Z;
  timeout : Z;
  debug : bool
}.

(** [RATE_LIMITS]: requests per second and burst capacity of each group. *)
Definition RATE_LIMITS : list (string * (Q * Q)) :=
  [ ("orders",    (167 # 10000, 20));
    ("inventory", (2, 30));
    ("reports",   (222 # 10000, 10));
    ("feeds",     (222 # 10000, 10));
    ("catalog",   (5, 15));
    ("listings",  (5, 10));
    ("finances",  (1 # 2, 30));
    ("tokens",    (167 # 10000, 15)) ]%Q.

(** ** Component state *)

Record Bucket : Type := {
  tokens : Q;
  max_tokens : Q;
  refill_rate : Q;
  last_refill : Q
}.

Record RateLimiter : Type := {
  buffer : Q;
  buckets : gmap string Bucket;
  last_request_times : gmap string Q
}.

Record LWATokenManager : Type := {
  access_token : PyVal;
  token_expires_at : option Q
}.

Record Credentials : Type := {
  access_key : string;
  secret_key : string;
  token : option string
}.

Record AWSRequest : Type := {
  method : string;
  url : string;
  headers : gmap string PyVal;
  body : option string
}.

(** How often each part of the outside world has been asked, and what the
    task has slept (latest first). *)
Record World : Type := {
  clock_reads : nat;
  uniform_draws : nat;
  lwa_posts : nat;
  sts_calls : nat;
  http_calls : nat;
  slept : list Q
}.

Record State : Type := {
  config : SPAPIConfig;
  lwa_manager : LWATokenManager;
  aws_credentials : option Credentials;
  rate_limiter : RateLimiter;
  max_retries : Z;
  world : World
}.

Definition set_lwa (l : LWATokenManager) (st : State) : State :=
  {| config := config st; lwa_manager := l; aws_credentials := aws_credentials st;
     rate_limiter := rate_limiter st; max_retries := max_retries st; world := world st |}.

Definition set_credentials (c : option Credentials) (st : State) : State :=
  {| config := config st; lwa_manager := lwa_manager st; aws_credentials := c;
     rate_limiter := rate_limiter st; max_retries := max_retries st; world := world st |}.

Definition set_limiter (r : RateLimiter) (st : State) : State :=
  {| config := config st; lwa_manager := lwa_manager st;
     aws_credentials := aws_credentials st;
     rate_limiter := r; max_retries := max_retries st; world := world st |}.

Definition set_world (w : World) (st : State) : State :=
  {| config := config st; lwa_manager := lwa_manager st;
     aws_credentials := aws_credentials st;
     rate_limiter := rate_limiter st; max_retries := max_retries st; world := w |}.

(** ** The outside world *)

(** Answer of the token endpoint to [requests.post]: the call raises, or a
    response arrives with a status and a body that [response.json()] decodes
    or not. *)
Inductive LwaReply : Type :=
| LwaUnreachable (message : string)
| LwaResponse (status : Z) (json : option PyVal).

Inductive StsReply : Type :=
| StsFailure (message : string)
| StsCredentials (key secret session : string).

(** What [response.json()] does with the text of a body: it returns the
    decoded value, raises [json.JSONDecodeError] (the text is not JSON), or
    raises something else, such as the decoder's [ValueError] for an integer
    literal beyond the digit limit or [RecursionError] for nesting that is
    too deep. *)
Inductive JsonReply : Type :=
| JsonValue (v : PyVal)
| JSONDecodeError
| JsonRaises (e : PyExc).

(** Answer of the SP-API transport to [session.request]. *)
Inductive HttpReply : Type :=
| TransportFailure (message : string)
| Response (status_code : Z) (text : string).

Record Env : Type := {
  clock : nat -> Q;
  uniform : nat -> Q;
  lwa_post : nat -> LwaReply;
  sts_assume_role : nat -> StsReply;
  session_request : nat -> AWSRequest -> HttpReply
}.

Record Lib : Type := {
  urljoin : string -> string -> string;
  str_upper : string -> string;
  json_dumps : PyVal -> string;
  json_loads : string -> JsonReply;
  py_str : PyVal -> string;
  (** The headers [SigV4Auth(credentials, service, region).add_auth] computes
      for a request at a given time. *)
  sigv4_headers : Credentials -> string -> string -> Q -> AWSRequest -> gmap string PyVal
}.

(** ** Stateful computations *)

Definition M (A : Type) : Type := State -> Outcome A * State.

Definition ret {A} (a : A) : M A := fun st => (Ret a, st).
Definition raise {A} (e : PyExc) : M A := fun st => (Raise e, st).

Definition bind {A B} (m : M A) (k : A -> M B) : M B :=
  fun st =>
    match m st with
    | (Ret a, st') => k a st'
    | (Raise e, st') => (Raise e, st')
    | (Pending, st') => (Pending, st')
    end.

(** [try: m  except Exception as e: h e]. *)
Definition try_except {A} (m : M A) (h : PyExc -> M A) : M A :=
  fun st =>
    match m st with
    | (Raise e, st') => h e st'
    | r => r
    end.

Definition lift {A} (o : Outcome A) : M A := fun st => (o, st).

Notation "x <- m ;; k" := (bind m (fun x => k))
  (at level 100, m at next level, right associativity).
Notation "m ;; k" := (bind m (fun _ => k))
  (at level 100, right associativity).

Definition get : M State := fun st => (Ret st, st).
Definition modify (f : State -> State) : M unit := fun st => (Ret tt, f st).

Section Model.

Variable L : Lib.
Variable E : Env.

(** [time.time()] and [datetime.utcnow()]: the next reading of the clock. *)
Definition now : M Q := fun st =>
  let w := world st in
  (Ret (clock E (clock_reads w)),
   set_world {| clock_reads := S (clock_reads w); uniform_draws := uniform_draws w;
                lwa_posts := lwa_posts w; sts_calls := sts_calls w;
                http_calls := http_calls w; slept := slept w |} st).

(** [random.uniform(0.5, 1.5)]. *)
Definition random_uniform : M Q := fun st =>
  let w := world st in
  (Ret (uniform E (uniform_draws w)),
   set_world {| clock_reads := clock_reads w; uniform_draws := S (uniform_draws w);
                lwa_posts := lwa_posts w; sts_calls := sts_calls w;
                http_calls := http_calls w; slept := slept w |} st).

(** [await asyncio.sleep(d)]. *)
Definition sleep (d : Q) : M unit := fun st =>
  let w := world st in
  (Ret tt,
   set_world {| clock_reads := clock_reads w; uniform_draws := uniform_draws w;
                lwa_posts := lwa_posts w; sts_calls := sts_calls w;
                http_calls := http_calls w; slept := d :: slept w |} st).

Definition requests_post : M LwaReply := fun st =>
  let w := world st in
  (Ret (lwa_post E (lwa_posts w)),
   set_world {| clock_reads := clock_reads w; uniform_draws := uniform_draws w;
                lwa_posts := S (lwa_posts w); sts_calls := sts_calls w;
                http_calls := http_calls w; slept := slept w |} st).

Definition assume_role : M StsReply := fun st =>
  let w := world st in
  (Ret (sts_assume_role E (sts_calls w)),
   set_world {| clock_reads := clock_reads w; uniform_draws := uniform_draws w;
                lwa_posts := lwa_posts w; sts_calls := S (sts_calls w);
                http_calls := http_calls w; slept := slept w |} st).

Definition send (r : AWSRequest) : M HttpReply := fun st =>
  let w := world st in
  (Ret (session_request E (http_calls w) r),
   set_world {| clock_reads := clock_reads w; uniform_draws := uniform_draws w;
                lwa_posts := lwa_posts w; sts_calls := sts_calls w;
                http_calls := S (http_calls w); slept := slept w |} st).

(** ** [error_handler.py] *)

(** [SPAPIErrorHandler._should_retry] *)
Definition _should_retry (error : PyExc) : Outcome bool :=
  let network :=
    match error with
    | ConnectionError _ | TimeoutError _ => Ret true
    | _ => Ret false
    end in
  match error with
  | SPAPIError _ details =>
      if (size details =? 0)%nat then network
      else
        let status_code := dict_get details "status_code" in
        if py_in_ints status_code [429; 500; 502; 503; 504]%Z then Ret true
        else if py_eq_int status_code 401 then Ret true
        else match py_chain_le_lt 400 status_code 500 with
             | Ret true => Ret false
             | Ret false => network
             | r => r
             end
  | _ => network
  end.

(** [min(60, base_delay * jitter)] with [base_delay = 2 ** attempt]: the
    product converts the integer to a float, which raises from [2 ** 1024]
    on; below that the product by a power of two is exact. *)
Definition backoff_of (attempt : nat) (jitter : Q) : Outcome Q :=
  let base_delay := (2 ^ Z.of_nat attempt)%Z in
  if (2 ^ 1024 <=? base_delay)%Z
  then Raise (OverflowError "int too large to convert to float")
  else Ret (Qmin 60 (inject_Z base_delay * jitter)).

(** [SPAPIErrorHandler._calculate_backoff] *)
Definition _calculate_backoff (attempt : nat) : M Q :=
  jitter <- random_uniform ;;
  lift (backoff_of attempt jitter).

(** [SPAPIErrorHandler.execute_with_retry]: the [for] loop over
    [range(max_retries + 1)], [left] iterations from [attempt] on.  A loop
    that runs out falls off the end of the function, which returns [None]. *)
Fixpoint retry_loop (func : M PyVal) (left : nat) (attempt : nat) : M PyVal :=
  match left with
  | O => ret VNone
  | S left' =>
      try_except func (fun e =>
        st <- get ;;
        if (Z.of_nat attempt =? max_retries st)%Z then raise e
        else
          retry <- lift (_should_retry e) ;;
          if negb retry then raise e
          else
            backoff_time <- _calculate_backoff attempt ;;
            sleep backoff_time ;;
            retry_loop func left' (S attempt))
  end.

Definition execute_with_retry (func : M PyVal) : M PyVal :=
  st <- get ;;
  retry_loop func (Z.to_nat (max_retries st + 1)) 0.

(** ** [rate_limiter.py] *)

Definition set_buckets (bs : gmap string Bucket) (st : State) : State :=
  let r := rate_limiter st in
  set_limiter {| buffer := buffer r; buckets := bs;
                 last_request_times := last_request_times r |} st.

Definition set_last_request (endpoint : string) (t : Q) (st : State) : State :=
  let r := rate_limiter st in
  set_limiter {| buffer := buffer r; buckets := buckets r;
                 last_request_times := <[endpoint := t]> (last_request_times r) |} st.

(** [RateLimiter.__init__]: one full bucket per entry of [RATE_LIMITS]. *)
Fixpoint init_buckets (limits : list (string * (Q * Q))) : M unit :=
  match limits with
  | [] => ret tt
  | (endpoint, (rate, burst)) :: limits' =>
      t <- now ;;
      st <- get ;;
      modify (set_buckets (<[endpoint := {| tokens := burst; max_tokens := burst;
                                            refill_rate := rate; last_refill := t |}]>
                             (buckets (rate_limiter st)))) ;;
      init_buckets limits'
  end.

Definition RateLimiter_init (buffer : Q) : M unit :=
  modify (set_limiter {| buffer := buffer; buckets := ∅; last_request_times := ∅ |}) ;;
  init_buckets RATE_LIMITS.

(** The refill at the head of the loop of [acquire]. *)
Definition refill (t : Q) (bucket : Bucket) : Bucket :=
  let time_passed := (t - last_refill bucket)%Q in
  let tokens_to_add := (time_passed * refill_rate bucket)%Q in
  {| tokens := Qmin (max_tokens bucket) (tokens bucket + tokens_to_add);
     max_tokens := max_tokens bucket;
     refill_rate := refill_rate bucket;
     last_refill := t |}.

(** [bucket['tokens'] -= 1]. *)
Definition consume (bucket : Bucket) : Bucket :=
  {| tokens := (tokens bucket - 1)%Q;
     max_tokens := max_tokens bucket;
     refill_rate := refill_rate bucket;
     last_refill := last_refill bucket |}.

(** One pass through the body of [while True] in [acquire]: [true] when the
    token was granted ([break]), [false] after the sleep. *)
Definition acquire_iteration (endpoint : string) : M bool :=
  t <- now ;;
  st <- get ;;
  match buckets (rate_limiter st) !! endpoint with
  | None => raise (KeyError endpoint)
  | Some bucket =>
      let bucket := refill t bucket in
      if Qle_bool 1 (tokens bucket) then
        modify (set_buckets (<[endpoint := consume bucket]> (buckets (rate_limiter st)))) ;;
        modify (set_last_request endpoint t) ;;
        ret true
      else
        modify (set_buckets (<[endpoint := bucket]> (buckets (rate_limiter st)))) ;;
        if Qeq_bool (refill_rate bucket) 0
        then raise (ZeroDivisionError "float division by zero")
        else
          let wait_time := ((1 - tokens bucket) / refill_rate bucket)%Q in
          let wait_time := (wait_time + buffer (rate_limiter st))%Q in
          sleep wait_time ;;
          ret false
  end.

Fixpoint acquire_loop (fuel : nat) (endpoint : string) : M unit :=
  match fuel with
  | O => lift Pending
  | S fuel' =>
      granted <- acquire_iteration endpoint ;;
      if granted then ret tt else acquire_loop fuel' endpoint
  end.

(** [RateLimiter.acquire]; [fuel] bounds the passes through the loop. *)
Definition acquire (fuel : nat) (endpoint : string) : M unit :=
  st <- get ;;
  endpoint <-
    match buckets (rate_limiter st) !! endpoint with
    | Some _ => ret endpoint
    | None =>
        let endpoint := "default" in
        match buckets (rate_limiter st) !! endpoint with
        | Some _ => ret endpoint
        | None =>
            t <- now ;;
            modify (set_buckets (<[endpoint := {| tokens := 10; max_tokens := 10;
                                                  refill_rate := 1; last_refill := t |}]>
                                   (buckets (rate_limiter st)))) ;;
            ret endpoint
        end
    end ;;
  acquire_loop fuel endpoint.

(** ** [lwa_auth.py] *)

Definition set_access_token (v : PyVal) (st : State) : State :=
  set_lwa {| access_token := v;
             token_expires_at := token_expires_at (lwa_manager st) |} st.

Definition set_token_expires_at (t : Q) (st : State) : State :=
  set_lwa {| access_token := access_token (lwa_manager st);
             token_expires_at := Some t |} st.

(** [LWATokenManager._is_token_expired] *)
Definition _is_token_expired : M bool :=
  st <- get ;;
  let self := lwa_manager st in
  match token_expires_at self with
  | Some expires_at =>
      if negb (truthy (access_token self)) then ret true
      else
        let buffer_time := 300%Q in
        t <- now ;;
        ret (Qle_bool expires_at (t + buffer_time))
  | None => ret true
  end.

(** [token_data["access_token"]] *)
Definition subscript (v : PyVal) (k : string) : Outcome PyVal :=
  match v with
  | VDict kv =>
      match assoc kv k with
      | Some x => Ret x
      | None => Raise (KeyError k)
      end
  | VList _ => Raise (TypeError "list indices must be integers or slices, not str")
  | VStr _ => Raise (TypeError "string indices must be integers, not 'str'")
  | VBytes _ => Raise (TypeError "byte indices must be integers or slices, not str")
  | _ => Raise (TypeError ("'" +:+ type_name v +:+ "' object is not subscriptable"))
  end.

(** [token_data.get("expires_in", 3600)] on a dictionary. *)
Definition get_default (v : PyVal) (k : string) (d : PyVal) : PyVal :=
  match v with
  | VDict kv => default d (assoc kv k)
  | _ => d
  end.

(** [timedelta(seconds=v)], in seconds: the days of a [timedelta] have a
    magnitude of at most 999999999. *)
Definition timedelta_seconds (v : PyVal) : Outcome Q :=
  match as_int v with
  | Some n =>
      let days := (n / 86400)%Z in
      if ((-999999999 <=? days) && (days <=? 999999999))%Z then Ret (inject_Z n)
      else if ((- 2 ^ 31 <=? days) && (days <? 2 ^ 31))%Z then
        Raise (OverflowError ("days=" +:+ pretty days
                              +:+ "; must have magnitude <= 999999999"))
      else Raise (OverflowError "Python int too large to convert to C int")
  | None => Raise (TypeError ("unsupported type for timedelta seconds component: "
                              +:+ type_name v))
  end.

(** [datetime.min] and the end of the year 9999, in seconds from the epoch
    of the clock (1970-01-01T00:00:00, [datetime.utcnow] being naive UTC). *)
Definition DATETIME_MIN : Q := inject_Z (-62135596800).
Definition DATETIME_END : Q := inject_Z 253402300800.

(** [t + delta] on a [datetime]: the result has a year from 1 to 9999. *)
Definition datetime_add (t delta : Q) : Outcome Q :=
  let sum := (t + delta)%Q in
  if Qle_bool DATETIME_MIN sum && negb (Qle_bool DATETIME_END sum) then Ret sum
  else Raise (OverflowError "date value out of range").

(** [response.raise_for_status()] *)
Definition raise_for_status (status : Z) : M unit :=
  if ((400 <=? status) && (status <? 600))%Z
  then raise (RequestException (pretty status +:+ " Error"))
  else ret tt.

(** [LWATokenManager._refresh_access_token] *)
Definition _refresh_access_token : M unit :=
  try_except
    (reply <- requests_post ;;
     match reply with
     | LwaUnreachable m => raise (RequestException m)
     | LwaResponse status json =>
         raise_for_status status ;;
         match json with
         | None => raise (RequestException "Expecting value")
         | Some token_data =>
             tok <- lift (subscript token_data "access_token") ;;
             modify (set_access_token tok) ;;
             let expires_in := get_default token_data "expires_in" (VInt 3600) in
             t <- now ;;
             delta <- lift (timedelta_seconds expires_in) ;;
             expires_at <- lift (datetime_add t delta) ;;
             modify (set_token_expires_at expires_at)
         end
     end)
    (fun e =>
       match e with
       | RequestException _ => raise (Exception ("LWA token refresh failed: " +:+ exc_str e))
       | KeyError _ => raise (Exception ("Invalid LWA token response: " +:+ exc_str e))
       | _ => raise e
       end).

(** [LWATokenManager.get_access_token] *)
Definition get_access_token (force_refresh : bool) : M PyVal :=
  expired <- _is_token_expired ;;
  (if expired || force_refresh then _refresh_access_token else ret tt) ;;
  st <- get ;;
  if negb (truthy (access_token (lwa_manager st)))
  then raise (Exception "Failed to obtain access token")
  else ret (access_token (lwa_manager st)).

(** ** [aws_auth.py] *)

(** [AWSAuthManager.get_credentials] *)
Definition get_credentials : M Credentials :=
  st <- get ;;
  match aws_credentials st with
  | Some c => ret c
  | None =>
      try_except
        (if negb (String.eqb (aws_role_arn (config st)) "") then
           reply <- assume_role ;;
           match reply with
           | StsFailure m => raise (Exception m)
           | StsCredentials key secret session =>
               let c := {| access_key := key; secret_key := secret;
                           token := Some session |} in
               modify (set_credentials (Some c)) ;;
               ret c
           end
         else
           let c := {| access_key := aws_access_key_id (config st);
                       secret_key := aws_secret_access_key (config st);
                       token := aws_session_token (config st) |} in
           modify (set_credentials (Some c)) ;;
           ret c)
        (fun e => raise (Exception ("AWS credentials error: " +:+ exc_str e)))
  end.

(** [AWSAuthManager.sign_request]: the signature headers are written into
    the request. *)
Definition sign_request (request : AWSRequest) : M AWSRequest :=
  credentials <- get_credentials ;;
  st <- get ;;
  t <- now ;;
  let signature :=
    sigv4_headers L credentials "execute-api" (aws_region (config st)) t request in
  ret {| method := method request; url := url request;
         headers := signature ∪ headers request; body := body request |}.

(** [AWSAuthManager.create_signed_request] *)
Definition create_signed_request (method : string) (url : string)
    (headers : option (gmap string PyVal)) (data : option string) : M AWSRequest :=
  let headers := default ∅ headers in
  let request := {| method := method; url := url; headers := headers; body := data |} in
  sign_request request.

(** ** [http_client.py] *)

(** The generator [f"{k}={v}" for k, v in params.items() if v is not None]. *)
Definition is_not_none (v : PyVal) : bool :=
  match v with VNone => false | _ => true end.

Definition query_items (params : list (string * PyVal)) : list string :=
  map (fun kv => fst kv +:+ "=" +:+ py_str L (snd kv))
      (filter (fun kv => is_not_none (snd kv)) params).

(** [if params: aws_request.url += '?' + '&'.join(...)] *)
Definition add_query (params : list (string * PyVal)) (r : AWSRequest) : AWSRequest :=
  match params with
  | [] => r
  | _ => {| method := method r;
            url := url r +:+ "?" +:+ String.concat "&" (query_items params);
            headers := headers r; body := body r |}
  end.

(** The request data of [request]: [json.dumps] for structures, the bytes of
    a string, bytes as they are. *)
Definition request_data_of (data : PyVal) : option string :=
  if truthy data then
    match data with
    | VDict _ | VList _ => Some (json_dumps L data)
    | VStr s => Some s
    | VBytes s => Some s
    | _ => None
    end
  else None.

(** [SPAPIClient._execute_request] *)
Definition _execute_request (aws_request : AWSRequest) : M PyVal :=
  try_except
    (reply <- send aws_request ;;
     match reply with
     | TransportFailure m => raise (RequestException m)
     | Response status_code text =>
         if (status_code =? 204)%Z then ret (VDict [("success", VBool true)])
         else
           response_data <-
             match json_loads L text with
             | JsonValue v => ret v
             | JSONDecodeError => ret (VDict [("raw_content", VStr text)])
             | JsonRaises e => raise e
             end ;;
           if (400 <=? status_code)%Z then
             let error_info : gmap string PyVal :=
               <["status_code" := VInt status_code]>
                 (<["response" := response_data]>
                    (<["url" := VStr (url aws_request)]>
                       (<["method" := VStr (method aws_request)]> ∅))) in
             raise (SPAPIError ("API error " +:+ pretty status_code) error_info)
           else ret response_data
     end)
    (fun e =>
       match e with
       | RequestException _ =>
           raise (SPAPIError ("Request failed: " +:+ exc_str e)
                             (<["original_error" := VStr (exc_str e)]> ∅))
       | _ => raise e
       end).

(** [SPAPIClient.request], up to the request that is handed to the retry
    loop: rate limiting, URL, headers, credential header, body, signature,
    query parameters. *)
Definition build_request (fuel : nat) (method endpoint path : string)
    (params : list (string * PyVal)) (data : PyVal)
    (headers : option (gmap string PyVal))
    (use_rdt : bool) (rdt_token : PyVal) : M AWSRequest :=
  acquire fuel endpoint ;;
  st <- get ;;
  let url := urljoin L (base_url (config st)) path in
  let request_headers : gmap string PyVal :=
    <["User-Agent" := VStr "amazon-sp-api-mcp/1.0.0"]>
      (<["Content-Type" := VStr "application/json"]> ∅) in
  let request_headers :=
    match headers with
    | Some h => h ∪ request_headers
    | None => request_headers
    end in
  request_headers <-
    (if use_rdt && truthy rdt_token
     then ret (<["x-amz-access-token" := rdt_token]> request_headers)
     else
       access_token <- get_access_token false ;;
       ret (<["x-amz-access-token" := access_token]> request_headers)) ;;
  let request_data := request_data_of data in
  aws_request <- create_signed_request (str_upper L method) url
                   (Some request_headers) request_data ;;
  ret (add_query params aws_request).

(** [SPAPIClient.__init__]: nothing cached, full buckets, the configured
    number of retries. *)
Definition blank (config : SPAPIConfig) : State :=
  {| config := config;
     lwa_manager := {| access_token := VNone; token_expires_at := None |};
     aws_credentials := None;
     rate_limiter := {| buffer := rate_limit_buffer config; buckets := ∅;
                        last_request_times := ∅ |};
     max_retries := retry_attempts config;
     world := {| clock_reads := 0; uniform_draws := 0; lwa_posts := 0;
                 sts_calls := 0; http_calls := 0; slept := [] |} |}.

Definition SPAPIClient_init (config : SPAPIConfig) : State :=
  snd (RateLimiter_init (rate_limit_buffer config) (blank config)).

Definition request (fuel : nat) (method endpoint path : string)
    (params : list (string * PyVal)) (data : PyVal)
    (headers : option (gmap string PyVal))
    (use_rdt : bool) (rdt_token : PyVal) : M PyVal :=
  aws_request <- build_request fuel method endpoint path params data headers
                   use_rdt rdt_token ;;
  execute_with_retry (_execute_request aws_request).

End Model.

(** ** Further methods of the same classes *)

(** [type(error).__name__] *)
Definition exc_type_name (e : PyExc) : string :=
  match e with
  | SPAPIError _ _ => "SPAPIError"
  | ConnectionError _ => "ConnectionError"
  | TimeoutError _ => "TimeoutError"
  | RequestException _ => "RequestException"
  | TypeError _ => "TypeError"
  | KeyError _ => "KeyError"
  | ZeroDivisionError _ => "ZeroDivisionError"
  | OverflowError _ => "OverflowError"
  | RecursionError _ => "RecursionError"
  | ValueError' _ => "ValueError"
  | Exception _ => "Exception"
  end.

(** [v >= n] against an [int] literal. *)
Definition py_ge_int (v : PyVal) (n : Z) : Outcome bool :=
  match as_int v with
  | Some m => Ret (n <=? m)%Z
  | None => Raise (TypeError ("'>=' not supported between instances of '"
                              +:+ type_name v +:+ "' and 'int'"))
  end.

(** A dictionary as a value (its items in the order of the map). *)
Definition dict_val (d : gmap string PyVal) : PyVal := VDict (map_to_list d).

(** [SPAPIErrorHandler.format_error] *)
Definition format_error (error : PyExc) : Outcome (gmap string PyVal) :=
  match error with
  | SPAPIError _ details =>
      let result : gmap string PyVal :=
        <["type" := VStr "SPAPIError"]>
          (<["message" := VStr (exc_str error)]>
             (<["details" := dict_val details]> ∅)) in
      if (size details =? 0)%nat then Ret result
      else
        let status_code := dict_get details "status_code" in
        if py_eq_int status_code 401 then
          Ret (<["guidance" :=
                 VStr "Authentication failed. Check your LWA credentials and refresh token."]>
                 result)
        else if py_eq_int status_code 403 then
          Ret (<["guidance" :=
                 VStr "Access forbidden. Check your application permissions and roles."]>
                 result)
        else if py_eq_int status_code 429 then
          Ret (<["guidance" :=
                 VStr "Rate limit exceeded. The request will be retried automatically."]>
                 result)
        else
          match py_ge_int status_code 500 with
          | Ret true =>
              Ret (<["guidance" :=
                     VStr "Amazon server error. The request will be retried automatically."]>
                     result)
          | Ret false =>
              if py_eq_int status_code 400 then
                Ret (<["guidance" := VStr "Bad request. Check your request parameters."]>
                       result)
              else Ret result
          | Raise e => Raise e
          | Pending => Pending
          end
  | _ =>
      Ret (<["type" := VStr (exc_type_name error)]>
             (<["message" := VStr (exc_str error)]>
                (<["guidance" := VStr "An unexpected error occurred."]> ∅)))
  end.

Section MoreMethods.

Variable E : Env.

(** [datetime.isoformat], from the library. *)
Variable isoformat : Q -> string.

(** [LWATokenManager.get_client_credentials_token] *)
Definition get_client_credentials_token (scope : string) : M PyVal :=
  try_except
    (reply <- requests_post E ;;
     match reply with
     | LwaUnreachable m => raise (RequestException m)
     | LwaResponse status json =>
         raise_for_status status ;;
         match json with
         | None => raise (RequestException "Expecting value")
         | Some token_data => lift (subscript token_data "access_token")
         end
     end)
    (fun e =>
       match e with
       | RequestException _ =>
           raise (Exception ("Client credentials token failed: " +:+ exc_str e))
       | _ => raise e
       end).

(** [LWATokenManager.validate_credentials] *)
Definition LWATokenManager_validate_credentials : M (gmap string PyVal) :=
  try_except
    (st0 <- get ;;
     let old_token := access_token (lwa_manager st0) in
     _refresh_access_token E ;;
     st1 <- get ;;
     let result : gmap string PyVal :=
       <["valid" := VBool true]>
         (<["client_id" := VStr (client_id (config st1))]>
            (<["token_expires_at" :=
                 match token_expires_at (lwa_manager st1) with
                 | Some t => VStr (isoformat t)
                 | None => VNone
                 end]>
               (<["message" := VStr "LWA credentials are valid"]> ∅))) in
     (if truthy old_token then
        expired <- _is_token_expired E ;;
        if negb expired then modify (set_access_token old_token) else ret tt
      else ret tt) ;;
     ret result)
    (fun e =>
       ret (<["valid" := VBool false]>
              (<["error" := VStr (exc_str e)]>
                 (<["message" := VStr "LWA credentials validation failed"]> ∅)))).

(** [AWSAuthManager.refresh_credentials] *)
Definition refresh_credentials : M unit :=
  modify (set_credentials None).

End MoreMethods.

(** ** Notions used in the statements *)

(** The error [_execute_request] raises for a response with [status_code]
    at least 400. *)
Definition api_error (aws_request : AWSRequest) (status_code : Z)
    (response_data : PyVal) : PyExc :=
  SPAPIError ("API error " +:+ pretty status_code)
    (<["status_code" := VInt status_code]>
       (<["response" := response_data]>
          (<["url" := VStr (url aws_request)]>
             (<["method" := VStr (method aws_request)]> ∅)))).

(** The error [_execute_request] raises when the transport fails. *)
Definition transport_error (m : string) : PyExc :=
  SPAPIError ("Request failed: " +:+ m) (<["original_error" := VStr m]> ∅).

(** The body of a response as [_execute_request] decodes it: the decoded
    value, the wrapper of the raw text when the text is not JSON, and
    nothing when the decoder raises something else. *)
Definition decoded (L : Lib) (text : string) : option PyVal :=
  match json_loads L text with
  | JsonValue v => Some v
  | JSONDecodeError => Some (VDict [("raw_content", VStr text)])
  | JsonRaises _ => None
  end.

(** What leaves [_execute_request] when the decoder raises [e]: a
    [RequestException] is wrapped like a failure of the transport, anything
    else passes through. *)
Definition decoder_error (e : PyExc) : PyExc :=
  match e with
  | RequestException _ =>
      SPAPIError ("Request failed: " +:+ exc_str e)
                 (<["original_error" := VStr (exc_str e)]> ∅)
  | _ => e
  end.

(** The status codes the retry policy retries. *)
Definition retryable_status (status : Z) : Prop :=
  status ∈ [429; 500; 502; 503; 504]%Z \/ status = 401%Z.

(** The state after one more answer of the transport. *)
Definition sent (st : State) : State :=
  let w := world st in
  set_world {| clock_reads := clock_reads w; uniform_draws := uniform_draws w;
               lwa_posts := lwa_posts w; sts_calls := sts_calls w;
               http_calls := S (http_calls w); slept := slept w |} st.

(** The state after one more draw from the random source. *)
Definition drawn (st : State) : State :=
  let w := world st in
  set_world {| clock_reads := clock_reads w; uniform_draws := S (uniform_draws w);
               lwa_posts := lwa_posts w; sts_calls := sts_calls w;
               http_calls := http_calls w; slept := slept w |} st.

(** The delay after failed attempt [attempt], when it can be computed. *)
Definition delay_of (attempt : nat) (jitter : Q) : Q :=
  Qmin 60 (inject_Z (2 ^ Z.of_nat attempt) * jitter).

(** The state after the backoff that follows failed attempt [attempt]. *)
Definition backed_off (E : Env) (attempt : nat) (st : State) : State :=
  let w := world st in
  set_world {| clock_reads := clock_reads w; uniform_draws := S (uniform_draws w);
               lwa_posts := lwa_posts w; sts_calls := sts_calls w;
               http_calls := http_calls w;
               slept := delay_of attempt (uniform E (uniform_draws w)) :: slept w |} st.

(** ** A concrete configuration and world

    The configuration of the repository's tests and a world with scripted
    answers, on which the statements below are exercised. *)

Definition test_config : SPAPIConfig :=
  {| client_id := "test_client_id";
     client_secret := "test_client_secret";
     refresh_token := "test_refresh_token";
     aws_access_key_id := "test_access_key";
     aws_secret_access_key := "test_secret_key";
     aws_region := "eu-west-1";
     aws_role_arn := "arn:aws:iam::123456789012:role/test-role";
     aws_session_token := None;
     base_url := "https://sellingpartnerapi-eu.amazon.com";
     rate_limit_buffer := 1 # 10;
     retry_attempts := 3;
     timeout := 30;
     debug := false |}.

(** The integer literal of [n] digits 9, and the texts of that form. *)
Fixpoint nines (n : nat) : string :=
  match n with
  | O => EmptyString
  | S n' => String (Ascii.ascii_of_nat 57) (nines n')
  end.

Fixpoint only_nines (s : string) : bool :=
  match s with
  | EmptyString => true
  | String a s' => Ascii.eqb a (Ascii.ascii_of_nat 57) && only_nines s'
  end.

(** A body that is one integer literal of 4301 digits: beyond the limit of
    4300 digits that the conversion of a string into an integer accepts. *)
Definition oversized_literal : string := nines 4301.

Definition digit_limit_exceeded (digits : nat) : PyExc :=
  ValueError' ("Exceeds the limit (4300 digits) for integer string conversion: value has "
               +:+ pretty (Z.of_nat digits)
               +:+ " digits; use sys.set_int_max_str_digits() to increase the limit").

Definition mock_lib : Lib :=
  {| urljoin := fun base path => base +:+ path;
     str_upper := fun s => s;
     json_dumps := fun _ => "{}";
     json_loads := fun s =>
       if String.eqb s "{}" then JsonValue (VDict [])
       else if negb (String.eqb s "") && only_nines s then
         if (4300 <? String.length s)%nat
         then JsonRaises (digit_limit_exceeded (String.length s))
         else JsonValue (VInt (10 ^ Z.of_nat (String.length s) - 1))
       else JSONDecodeError;
     py_str := fun v => match v with
                        | VStr s => s
                        | VInt n => pretty n
                        | _ => "?"
                        end;
     sigv4_headers := fun c service region t r =>
       {[ "Authorization" := VStr (service +:+ "/" +:+ region +:+ "/" +:+ access_key c
                                   +:+ "/" +:+ method r +:+ " " +:+ url r) ]} |}.

(** A world in which the clock advances one second per reading, the jitter
    is always 1, the token endpoint and STS answer well, and the transport
    plays [replies] in order (and fails once they are used up). *)
Definition scripted (replies : list HttpReply) : Env :=
  {| clock := fun n => inject_Z (Z.of_nat n);
     uniform := fun _ => 1%Q;
     lwa_post := fun _ =>
       LwaResponse 200 (Some (VDict [("access_token", VStr "Atza|token");
                                     ("expires_in", VInt 3600)]));
     sts_assume_role := fun _ => StsCredentials "ASIAKEY" "secret" "session";
     session_request := fun n _ => nth n replies (TransportFailure "timed out") |}.

Definition get_orders : AWSRequest :=
  {| method := "GET";
     url := "https://sellingpartnerapi-eu.amazon.com/orders/v0/orders";
     headers := ∅; body := None |}.

(** A bucket within its bounds, with a refill rate that does not drain it. *)
Definition bucket_ok (b : Bucket) : Prop :=
  (0 <= tokens b)%Q /\ (tokens b <= max_tokens b)%Q /\ (0 <= refill_rate b)%Q.

(** Every bucket is within its bounds and was last refilled no later than
    the [n]-th reading of the clock. *)
Definition buckets_ok (E : Env) (bs : gmap string Bucket) (n : nat) : Prop :=
  forall name b, bs !! name = Some b ->
    bucket_ok b /\ (last_refill b <= clock E n)%Q.

Definition limiter_ok (E : Env) (st : State) : Prop :=
  buckets_ok E (buckets (rate_limiter st)) (clock_reads (world st)).

(** Time passes: the clock never runs backwards. *)
Definition clock_monotone (E : Env) : Prop :=
  forall n, (clock E n <= clock E (S n))%Q.

(** The state after a sequence of calls of [acquire], each with its own
    bound on the passes through the waiting loop.  A call cut off by its
    bound and resumed by a later call on the same endpoint is a task that
    was suspended in [asyncio.sleep] while other tasks ran. *)
Definition after_acquires (E : Env) (calls : list (nat * string)) (st : State) : State :=
  fold_left (fun st call => snd (acquire E (fst call) (snd call) st)) calls st.

(** The token exchange fails: the endpoint cannot be reached, it answers
    with an HTTP error status, or its JSON object has no ["access_token"]. *)
Inductive refresh_fails : LwaReply -> Prop :=
| fails_unreachable m :
    refresh_fails (LwaUnreachable m)
| fails_status status json :
    (400 <= status < 600)%Z ->
    refresh_fails (LwaResponse status json)
| fails_no_token status kv :
    assoc kv "access_token" = None ->
    refresh_fails (LwaResponse status (Some (VDict kv))).

(** No usable token is cached. *)
Definition token_absent (self : LWATokenManager) : Prop :=
  truthy (access_token self) = false \/ token_expires_at self = None.

(** The state after one more reading of the clock. *)
Definition ticked (st : State) : State :=
  let w := world st in
  set_world {| clock_reads := S (clock_reads w); uniform_draws := uniform_draws w;
               lwa_posts := lwa_posts w; sts_calls := sts_calls w;
               http_calls := http_calls w; slept := slept w |} st.

(** A world whose token endpoint grants a token once and then answers
    without one. *)
Definition revoking : Env :=
  {| clock := fun n => inject_Z (Z.of_nat n);
     uniform := fun _ => 1%Q;
     lwa_post := fun n =>
       match n with
       | O => LwaResponse 200 (Some (VDict [("access_token", VStr "Atza|first")]))
       | _ => LwaResponse 200 (Some (VDict [("error", VStr "invalid_grant")]))
       end;
     sts_assume_role := fun _ => StsCredentials "ASIAKEY" "secret" "session";
     session_request := fun _ _ => TransportFailure "timed out" |}.

(** The headers of [request] before the credential header is attached. *)
Definition default_headers (headers : option (gmap string PyVal)) : gmap string PyVal :=
  let request_headers : gmap string PyVal :=
    <["User-Agent" := VStr "amazon-sp-api-mcp/1.0.0"]>
      (<["Content-Type" := VStr "application/json"]> ∅) in
  match headers with
  | Some h => h ∪ request_headers
  | None => request_headers
  end.

(** The formatted error tells the user that the request is retried. *)
Definition retry_promised (o : Outcome (gmap string PyVal)) : Prop :=
  exists result,
    o = Ret result
    /\ (result !! "guidance"
          = Some (VStr "Rate limit exceeded. The request will be retried automatically.")
        \/ result !! "guidance"
             = Some (VStr "Amazon server error. The request will be retried automatically.")).

(** Outside the world counters of the transport, the random source and the
    sleeps, nothing has changed from [st] to [st']. *)
Definition same_components (st st' : State) : Prop :=
  config st' = config st
  /\ lwa_manager st' = lwa_manager st
  /\ aws_credentials st' = aws_credentials st
  /\ rate_limiter st' = rate_limiter st
  /\ max_retries st' = max_retries st
  /\ clock_reads (world st') = clock_reads (world st)
  /\ lwa_posts (world st') = lwa_posts (world st)
  /\ sts_calls (world st') = sts_calls (world st).

(** The tests' configuration with another number of retries. *)
Definition with_retries (n : Z) : SPAPIConfig :=
  {| client_id := client_id test_config;
     client_secret := client_secret test_config;
     refresh_token := refresh_token test_config;
     aws_access_key_id := aws_access_key_id test_config;
     aws_secret_access_key := aws_secret_access_key test_config;
     aws_region := aws_region test_config;
     aws_role_arn := aws_role_arn test_config;
     aws_session_token := aws_session_token test_config;
     base_url := base_url test_config;
     rate_limit_buffer := rate_limit_buffer test_config;
     retry_attempts := n;
     timeout := timeout test_config;
     debug := debug test_config |}.

(** The bucket [acquire] works on for an endpoint: its own when it has one,
    the one named ["default"] otherwise. *)
Definition resolved (st : State) (endpoint : string) : string :=
  match buckets (rate_limiter st) !! endpoint with
  | Some _ => endpoint
  | None => "default"
  end.

(** The capacity and the rate of a bucket are never written. *)
Definition same_limits (b b' : Bucket) : Prop :=
  max_tokens b' = max_tokens b /\ refill_rate b' = refill_rate b.

(** A 2xx answer of the token endpoint whose JSON object holds [tok] under
    ["access_token"] and [expires] under ["expires_in"] (when it has that
    key). *)
Definition grants (reply : LwaReply) (tok : PyVal) (expires : option PyVal) : Prop :=
  exists status kv,
    reply = LwaResponse status (Some (VDict kv))
    /\ ~ (400 <= status < 600)%Z
    /\ assoc kv "access_token" = Some tok
    /\ assoc kv "expires_in" = expires.

(** A lifetime of [n] seconds granted at time [t] that the library can
    represent: [n] seconds are a [timedelta], and [t] plus [n] seconds is a
    [datetime]. *)
Definition lifetime_in_range (t : Q) (n : Z) : Prop :=
  (-999999999 <= n / 86400 <= 999999999)%Z
  /\ (DATETIME_MIN <= t + inject_Z n)%Q /\ (t + inject_Z n < DATETIME_END)%Q.

(** The state after one more answer of the token endpoint. *)
Definition posted (st : State) : State :=
  let w := world st in
  set_world {| clock_reads := clock_reads w; uniform_draws := uniform_draws w;
               lwa_posts := S (lwa_posts w); sts_calls := sts_calls w;
               http_calls := http_calls w; slept := slept w |} st.

(** A world like [scripted []] whose token endpoint answers every exchange
    with the given JSON object. *)
Definition answering (kv : list (string * PyVal)) : Env :=
  {| clock := fun n => inject_Z (Z.of_nat n);
     uniform := fun _ => 1%Q;
     lwa_post := fun _ => LwaResponse 200 (Some (VDict kv));
     sts_assume_role := fun _ => StsCredentials "ASIAKEY" "secret" "session";
     session_request := fun _ _ => TransportFailure "timed out" |}.

(** A client that holds the token ["Atza|old"] with expiry [t]. *)
Definition holding (t : Q) : State :=
  set_lwa {| access_token := VStr "Atza|old"; token_expires_at := Some t |}
    (blank test_config).

(** The state after one more answer of STS. *)
Definition assumed (st : State) : State :=
  let w := world st in
  set_world {| clock_reads := clock_reads w; uniform_draws := uniform_draws w;
               lwa_posts := lwa_posts w; sts_calls := S (sts_calls w);
               http_calls := http_calls w; slept := slept w |} st.

(** A world like [scripted []] in which STS refuses the first call. *)
Definition sts_refusing : Env :=
  {| clock := fun n => inject_Z (Z.of_nat n);
     uniform := fun _ => 1%Q;
     lwa_post := lwa_post (scripted []);
     sts_assume_role := fun n =>
       match n with
       | O => StsFailure "AccessDenied"
       | _ => StsCredentials "ASIAKEY" "secret" "session"
       end;
     session_request := fun _ _ => TransportFailure "timed out" |}.

(** From [st] to [st'] only the rate limiter, the clock and the sleeps may
    have changed. *)
Definition limiter_only (st st' : State) : Prop :=
  config st' = config st
  /\ lwa_manager st' = lwa_manager st
  /\ aws_credentials st' = aws_credentials st
  /\ max_retries st' = max_retries st
  /\ lwa_posts (world st') = lwa_posts (world st)
  /\ sts_calls (world st') = sts_calls (world st)
  /\ http_calls (world st') = http_calls (world st).

(** From [st] to [st'] only the token cache, the clock and the count of
    token exchanges may have changed. *)
Definition token_only (st st' : State) : Prop :=
  config st' = config st
  /\ aws_credentials st' = aws_credentials st
  /\ rate_limiter st' = rate_limiter st
  /\ max_retries st' = max_retries st
  /\ sts_calls (world st') = sts_calls (world st)
  /\ http_calls (world st') = http_calls (world st)
  /\ slept (world st') = slept (world st).

(** From [st] to [st'] only the signing credentials, the clock and the
    count of STS calls may have changed. *)
Definition signer_only (st st' : State) : Prop :=
  config st' = config st
  /\ lwa_manager st' = lwa_manager st
  /\ rate_limiter st' = rate_limiter st
  /\ max_retries st' = max_retries st
  /\ lwa_posts (world st') = lwa_posts (world st)
  /\ http_calls (world st') = http_calls (world st)
  /\ slept (world st') = slept (world st).

(** ** [config.py]: the dataclass and its validation *)

(** The fields of the dataclass [SPAPIConfig]: those the components read,
    and the three that only [__post_init__] and the tools read. *)
Record SPAPIConfigFields : Type := {
  settings : SPAPIConfig;
  region : string;
  marketplace_ids : option (list string);
  sandbox : bool
}.

(** What the constructor of the dataclass gives: [ValueError(message)] out
    of [__post_init__], or the object. *)
Inductive Constructed : Type :=
| ValueError (message : string)
| Initialized (self : SPAPIConfigFields).

(** [required_fields], each name with its [getattr]. *)
Definition required_fields : list (string * (SPAPIConfig -> string)) :=
  [ ("client_id", client_id); ("client_secret", client_secret);
    ("refresh_token", refresh_token);
    ("aws_access_key_id", aws_access_key_id);
    ("aws_secret_access_key", aws_secret_access_key);
    ("aws_region", aws_region); ("aws_role_arn", aws_role_arn) ].

(** The loop [for field in required_fields: if not getattr(self, field)]:
    the first field that is empty. *)
Fixpoint first_missing (fields : list (string * (SPAPIConfig -> string)))
    (c : SPAPIConfig) : option string :=
  match fields with
  | [] => None
  | (field, getattr) :: rest =>
      if String.eqb (getattr c) "" then Some field else first_missing rest c
  end.

Definition set_base_url (u : string) (c : SPAPIConfig) : SPAPIConfig :=
  {| client_id := client_id c; client_secret := client_secret c;
     refresh_token := refresh_token c;
     aws_access_key_id := aws_access_key_id c;
     aws_secret_access_key := aws_secret_access_key c;
     aws_region := aws_region c; aws_role_arn := aws_role_arn c;
     aws_session_token := aws_session_token c;
     base_url := u;
     rate_limit_buffer := rate_limit_buffer c;
     retry_attempts := retry_attempts c;
     timeout := timeout c; debug := debug c |}.

(** [SPAPIConfig.__post_init__]; [str_lower] is [str.lower]. *)
Definition SPAPIConfig_post_init (str_lower : string -> string)
    (self : SPAPIConfigFields) : Constructed :=
  let ids :=
    match marketplace_ids self with
    | None => Some ["A1RKKUPIHCS9HS"]
    | Some ids => Some ids
    end in
  let c :=
    if sandbox self
    then set_base_url ("https://sandbox.sellingpartnerapi-" +:+ str_lower (region self)
                       +:+ ".amazon.com") (settings self)
    else settings self in
  match first_missing required_fields c with
  | Some field => ValueError ("Missing required configuration: " +:+ field)
  | None =>
      Initialized {| settings := c; region := region self;
                     marketplace_ids := ids; sandbox := sandbox self |}
  end.

(** [str.lower] on the letters of ASCII. *)
Fixpoint ascii_lower (s : string) : string :=
  match s with
  | EmptyString => EmptyString
  | String a s' =>
      let n := Ascii.nat_of_ascii a in
      String (if (65 <=? n)%nat && (n <=? 90)%nat then Ascii.ascii_of_nat (n + 32) else a)
             (ascii_lower s')
  end.

(** The arguments of the tests, with [client_secret] and [aws_role_arn]
    left empty. *)
Definition incomplete_fields : SPAPIConfigFields :=
  {| settings :=
       {| client_id := "test_client_id"; client_secret := "";
          refresh_token := "test_refresh_token";
          aws_access_key_id := "test_access_key";
          aws_secret_access_key := "test_secret_key";
          aws_region := "eu-west-1"; aws_role_arn := "";
          aws_session_token := None;
          base_url := "https://sellingpartnerapi-eu.amazon.com";
          rate_limit_buffer := 1 # 10; retry_attempts := 3; timeout := 30;
          debug := false |};
     region := "EU"; marketplace_ids := None; sandbox := false |}.

(** The arguments of the tests, complete, in sandbox mode with a base URL of
    the caller's. *)
Definition sandbox_fields : SPAPIConfigFields :=
  {| settings := set_base_url "https://proxy.example.com" test_config;
     region := "EU"; marketplace_ids := None; sandbox := true |}.

(** ** Validation of the connection *)

(** Answer of STS to [get_caller_identity]: the call (or the creation of
    the client before it) raises, or the response arrives. *)
Inductive IdentityReply : Type :=
| IdentityFailure (message : string)
| Identity (response : list (string * PyVal)).

(** One entry of the dictionary [RateLimiter.get_status] returns. *)
Record BucketStatus : Type := {
  current_tokens : Q;
  status_max_tokens : Q;
  status_refill_rate : Q;
  last_request : Q
}.

(** The dictionary [SPAPIClient.validate_connection] returns. *)
Record ConnectionReport : Type := {
  lwa_auth : gmap string PyVal;
  aws_auth : gmap string PyVal;
  rate_limiter_status : gmap string BucketStatus;
  overall_valid : PyVal
}.

Section Connection.

Variable E : Env.

(** [datetime.isoformat] and [round(x, 2)], from the library. *)
Variable isoformat : Q -> string.
Variable round2 : Q -> Q.

(** What STS answers to [get_caller_identity] after the given number of
    calls of [assume_role]. *)
Variable get_caller_identity : nat -> IdentityReply.

(** [AWSAuthManager.validate_credentials] *)
Definition AWSAuthManager_validate_credentials : M (gmap string PyVal) :=
  try_except
    (st <- get ;;
     match get_caller_identity (sts_calls (world st)) with
     | IdentityFailure m => raise (Exception m)
     | Identity response =>
         let result : gmap string PyVal :=
           <["valid" := VBool true]>
             (<["account_id" := default VNone (assoc response "Account")]>
                (<["user_id" := default VNone (assoc response "UserId")]>
                   (<["arn" := default VNone (assoc response "Arn")]>
                      (<["region" := VStr (aws_region (config st))]>
                         (<["role_arn" := VStr (aws_role_arn (config st))]>
                            (<["message" := VStr "AWS credentials are valid"]> ∅)))))) in
         if negb (String.eqb (aws_role_arn (config st)) "") then
           try_except
             (reply <- assume_role E ;;
              match reply with
              | StsFailure m => raise (Exception m)
              | StsCredentials _ _ _ =>
                  ret (<["message" :=
                           VStr "AWS credentials are valid and role assumption successful"]>
                         (<["role_assumed" := VBool true]> result))
              end)
             (fun role_error =>
                ret (<["message" :=
                         VStr "AWS credentials are valid but role assumption failed"]>
                       (<["role_error" := VStr (exc_str role_error)]>
                          (<["role_assumed" := VBool false]> result))))
         else ret result
     end)
    (fun e =>
       ret (<["valid" := VBool false]>
              (<["error" := VStr (exc_str e)]>
                 (<["message" := VStr "AWS credentials validation failed"]> ∅)))).

(** [RateLimiter.get_status] *)
Definition get_status : M (gmap string BucketStatus) :=
  t <- now E ;;
  st <- get ;;
  ret (map_imap
         (fun endpoint bucket =>
            let time_passed := (t - last_refill bucket)%Q in
            let tokens_to_add := (time_passed * refill_rate bucket)%Q in
            let current := Qmin (max_tokens bucket) (tokens bucket + tokens_to_add) in
            Some {| current_tokens := round2 current;
                    status_max_tokens := max_tokens bucket;
                    status_refill_rate := refill_rate bucket;
                    last_request :=
                      default 0%Q (last_request_times (rate_limiter st) !! endpoint) |})
         (buckets (rate_limiter st))).

(** [d[k]] on a dictionary. *)
Definition dict_subscript (d : gmap string PyVal) (k : string) : M PyVal :=
  match d !! k with
  | Some v => ret v
  | None => raise (KeyError k)
  end.

(** [SPAPIClient.validate_connection] *)
Definition validate_connection : M ConnectionReport :=
  lwa <- LWATokenManager_validate_credentials E isoformat ;;
  aws <- AWSAuthManager_validate_credentials ;;
  status <- get_status ;;
  lwa_valid <- dict_subscript lwa "valid" ;;
  overall <- (if truthy lwa_valid then dict_subscript aws "valid" else ret lwa_valid) ;;
  ret {| lwa_auth := lwa; aws_auth := aws; rate_limiter_status := status;
         overall_valid := overall |}.

End Connection.

(** A world like [scripted []] in which STS refuses every call of
    [assume_role]. *)
Definition role_refused : Env :=
  {| clock := fun n => inject_Z (Z.of_nat n);
     uniform := fun _ => 1%Q;
     lwa_post := lwa_post (scripted []);
     sts_assume_role := fun _ => StsFailure "AccessDenied";
     session_request := session_request (scripted []) |}.

(** STS answering [get_caller_identity] with an account. *)
Definition identified (n : nat) : IdentityReply :=
  Identity [("Account", VStr "123456789012"); ("UserId", VStr "AIDAEXAMPLE");
            ("Arn", VStr "arn:aws:iam::123456789012:user/sp-api")].

(** ** Sequences of calls *)

(** The arguments of one call of [SPAPIClient.request], with the bound on
    the passes through the waiting loop of the limiter. *)
Record Call : Type := {
  call_fuel : nat;
  call_method : string;
  call_endpoint : string;
  call_path : string;
  call_params : list (string * PyVal);
  call_data : PyVal;
  call_headers : option (gmap string PyVal);
  call_use_rdt : bool;
  call_rdt_token : PyVal
}.

Definition request_of (L : Lib) (E : Env) (c : Call) : M PyVal :=
  request L E (call_fuel c) (call_method c) (call_endpoint c) (call_path c)
    (call_params c) (call_data c) (call_headers c) (call_use_rdt c) (call_rdt_token c).

(** The state after a sequence of calls of [request], whatever each of them
    returned or raised. *)
Definition after_requests (L : Lib) (E : Env) (calls : list Call) (st : State) : State :=
  fold_left (fun st c => snd (request_of L E c st)) calls st.

(** A GET of the orders. *)
Definition orders_call : Call :=
  {| call_fuel := 2; call_method := "GET"; call_endpoint := "orders";
     call_path := "/orders/v0/orders"; call_params := []; call_data := VNone;
     call_headers := None; call_use_rdt := false; call_rdt_token := VNone |}.

(** * Properties *)

(** ** Retry classification *)

Lemma should_retry_status_code (msg : string) (details : gmap string PyVal) (status : Z) :
  details !! "status_code" = Some (VInt status) ->
  _should_retry (SPAPIError msg details) =
    Ret (bool_decide (status ∈ [429; 500; 502; 503; 504; 401]%Z)).
Proof.
  intros Hs. unfold _should_retry.
  assert (size details <> 0%nat) as Hne.
  { intros Hz. apply map_size_empty_iff in Hz. subst. by rewrite lookup_empty in Hs. }
  apply Nat.eqb_neq in Hne. rewrite Hne.
  unfold dict_get. rewrite Hs. simpl.
  unfold py_in_ints, py_eq_int, py_chain_le_lt, py_int_le, py_lt_int. simpl.
  repeat match goal with
         | |- context [(status =? ?n)%Z] => destruct (Z.eqb_spec status n); subst; simpl; [done|]
         end.
  rewrite bool_decide_eq_false_2.
  2:{ rewrite !elem_of_cons, elem_of_nil. lia. }
  destruct (400 <=? status)%Z; [destruct (status <? 500)%Z|]; done.
Qed.

(** ** The delay *)

Lemma backoff_of_small (attempt : nat) (jitter : Q) :
  (attempt < 1024)%nat -> backoff_of attempt jitter = Ret (delay_of attempt jitter).
Proof.
  intros Hk. unfold backoff_of, delay_of.
  assert ((2 ^ 1024 <=? 2 ^ Z.of_nat attempt)%Z = false) as ->; [|reflexivity].
  apply Z.leb_gt. apply Z.pow_lt_mono_r; lia.
Qed.

Lemma backoff_of_large (attempt : nat) (jitter : Q) :
  (1024 <= attempt)%nat ->
  backoff_of attempt jitter = Raise (OverflowError "int too large to convert to float").
Proof.
  intros Hk. unfold backoff_of.
  assert ((2 ^ 1024 <=? 2 ^ Z.of_nat attempt)%Z = true) as ->; [|reflexivity].
  apply Z.leb_le. apply Z.pow_le_mono_r; lia.
Qed.

(** ** The retry loop, one failure at a time *)

Section RetryLoop.

Variable E : Env.
Variable func : M PyVal.

Lemma retry_loop_return left attempt st v st' :
  func st = (Ret v, st') ->
  retry_loop E func (S left) attempt st = (Ret v, st').
Proof. intros H. simpl. unfold try_except. by rewrite H. Qed.

Lemma retry_loop_last left attempt st e st' :
  func st = (Raise e, st') ->
  Z.of_nat attempt = max_retries st' ->
  retry_loop E func (S left) attempt st = (Raise e, st').
Proof.
  intros H Hm. simpl. unfold try_except. rewrite H.
  unfold bind, get. apply Z.eqb_eq in Hm. by rewrite Hm.
Qed.

Lemma retry_loop_fatal left attempt st e st' :
  func st = (Raise e, st') ->
  _should_retry e = Ret false ->
  retry_loop E func (S left) attempt st = (Raise e, st').
Proof.
  intros H Hr. simpl. unfold try_except. rewrite H.
  unfold bind, get, lift. rewrite Hr. simpl.
  by destruct (Z.of_nat attempt =? max_retries st')%Z.
Qed.

Lemma retry_loop_crash left attempt st e st' x :
  func st = (Raise e, st') ->
  Z.of_nat attempt <> max_retries st' ->
  _should_retry e = Raise x ->
  retry_loop E func (S left) attempt st = (Raise x, st').
Proof.
  intros H Hm Hr. simpl. unfold try_except. rewrite H.
  unfold bind, get, lift. apply Z.eqb_neq in Hm. by rewrite Hm, Hr.
Qed.

Lemma retry_loop_again left attempt st e st' :
  func st = (Raise e, st') ->
  Z.of_nat attempt <> max_retries st' ->
  _should_retry e = Ret true ->
  (attempt < 1024)%nat ->
  retry_loop E func (S left) attempt st =
    retry_loop E func left (S attempt) (backed_off E attempt st').
Proof.
  intros H Hm Hr Hk. simpl. unfold try_except. rewrite H.
  unfold bind, get, lift, _calculate_backoff, random_uniform, bind.
  apply Z.eqb_neq in Hm. rewrite Hm, Hr. cbn [negb].
  unfold lift. by rewrite backoff_of_small.
Qed.

(** From attempt 1024 on the delay cannot be computed: the loop ends with
    the [OverflowError] of the conversion, after the draw of the jitter. *)
Lemma retry_loop_overflow left attempt st e st' :
  func st = (Raise e, st') ->
  Z.of_nat attempt <> max_retries st' ->
  _should_retry e = Ret true ->
  (1024 <= attempt)%nat ->
  retry_loop E func (S left) attempt st =
    (Raise (OverflowError "int too large to convert to float"), drawn st').
Proof.
  intros H Hm Hr Hk. simpl. unfold try_except. rewrite H.
  unfold bind, get, lift, _calculate_backoff, random_uniform, bind.
  apply Z.eqb_neq in Hm. rewrite Hm, Hr. cbn [negb].
  unfold lift. by rewrite backoff_of_large.
Qed.

End RetryLoop.

(** ** One attempt of the pipeline *)

Section Attempt.

Variable L : Lib.
Variable E : Env.

Lemma execute_request_failure r st m :
  session_request E (http_calls (world st)) r = TransportFailure m ->
  _execute_request L E r st = (Raise (transport_error m), sent st).
Proof.
  intros H. unfold _execute_request, try_except, bind, send. by rewrite H.
Qed.

Lemma execute_request_no_content r st text :
  session_request E (http_calls (world st)) r = Response 204 text ->
  _execute_request L E r st = (Ret (VDict [("success", VBool true)]), sent st).
Proof.
  intros H. unfold _execute_request, try_except, bind, send. by rewrite H.
Qed.

Lemma execute_request_error r st status text data :
  session_request E (http_calls (world st)) r = Response status text ->
  decoded L text = Some data ->
  (400 <= status)%Z ->
  _execute_request L E r st = (Raise (api_error r status data), sent st).
Proof.
  intros H Hd Hs. unfold _execute_request, try_except, bind, send. rewrite H.
  destruct (Z.eqb_spec status 204) as [->|_]; [lia|].
  apply Z.leb_le in Hs. unfold decoded in Hd.
  destruct (json_loads L text); simplify_eq; unfold ret; by rewrite Hs.
Qed.

Lemma execute_request_success r st status text data :
  session_request E (http_calls (world st)) r = Response status text ->
  decoded L text = Some data ->
  (status < 400)%Z -> status <> 204%Z ->
  _execute_request L E r st = (Ret data, sent st).
Proof.
  intros H Hd Hs Hn. unfold _execute_request, try_except, bind, send. rewrite H.
  apply Z.eqb_neq in Hn. rewrite Hn.
  apply Z.leb_gt in Hs. unfold decoded in Hd.
  destruct (json_loads L text); simplify_eq; unfold ret; by rewrite Hs.
Qed.

(** The decoder runs before the status is looked at: what it raises, other
    than [JSONDecodeError], ends the attempt whatever the status. *)
Lemma execute_request_decoder_raises r st status text e :
  session_request E (http_calls (world st)) r = Response status text ->
  status <> 204%Z ->
  json_loads L text = JsonRaises e ->
  _execute_request L E r st = (Raise (decoder_error e), sent st).
Proof.
  intros H Hn Hj. unfold _execute_request, try_except, bind, send. rewrite H.
  apply Z.eqb_neq in Hn. rewrite Hn, Hj. unfold raise. by destruct e.
Qed.

End Attempt.

(** ** Claims about the retry policy *)

(** C4: for a failed attempt whose error carries an HTTP status code, the
    classifier answers, and it answers "retry" exactly when the status is
    one of 429, 500, 502, 503, 504 or is 401; every other status from 400
    up to 499 is answered "do not retry". *)
Theorem should_retry_by_status (msg : string) (details : gmap string PyVal)
    (status : Z) :
  details !! "status_code" = Some (VInt status) ->
  exists b : bool,
    _should_retry (SPAPIError msg details) = Ret b
    /\ (b = true <-> retryable_status status)
    /\ ((400 <= status < 500)%Z -> ~ retryable_status status -> b = false).
Proof.
  intros Hs. eexists. split; [by apply should_retry_status_code|].
  assert (bool_decide (status ∈ [429; 500; 502; 503; 504; 401]%Z) = true
          <-> retryable_status status) as Hiff.
  { rewrite bool_decide_eq_true. unfold retryable_status.
    rewrite !elem_of_cons, !elem_of_nil. intuition. }
  split; [exact Hiff|].
  intros _ Hn. destruct (bool_decide _); [|done]. by destruct Hn; apply Hiff.
Qed.

Lemma should_retry_by_status_witness :
  _should_retry (SPAPIError "API error 503" {[ "status_code" := VInt 503 ]}) = Ret true
  /\ _should_retry (SPAPIError "API error 404" {[ "status_code" := VInt 404 ]}) = Ret false.
Proof.
  split.
  - destruct (should_retry_by_status "API error 503" {[ "status_code" := VInt 503 ]} 503)
      as (b & Hb & Hiff & _); [apply lookup_singleton_eq|].
    rewrite Hb. f_equal. apply Hiff. left. rewrite !elem_of_cons. tauto.
  - destruct (should_retry_by_status "API error 404" {[ "status_code" := VInt 404 ]} 404)
      as (b & Hb & _ & Hno); [apply lookup_singleton_eq|].
    rewrite Hb. f_equal. apply Hno; [lia|].
    unfold retryable_status. rewrite !elem_of_cons, elem_of_nil. lia.
Defined.

(** What the classifier does with the error the pipeline raises for a
    transport failure: the comparison [400 <= None] raises. *)
Lemma should_retry_transport_error (m : string) :
  _should_retry (transport_error m) =
    Raise (TypeError "'<=' not supported between instances of 'int' and 'NoneType'").
Proof.
  unfold transport_error, _should_retry.
  rewrite map_size_insert_None by apply lookup_empty. simpl.
  unfold dict_get. rewrite lookup_insert_ne by done. by rewrite lookup_empty.
Qed.

(** A transport failure on an attempt that is not the last one ends the
    retry loop after that attempt, with the classifier's [TypeError]. *)
Lemma transport_failure_ends_retry (L : Lib) (E : Env) (r : AWSRequest) (st : State) m :
  session_request E (http_calls (world st)) r = TransportFailure m ->
  (0 < max_retries st)%Z ->
  execute_with_retry E (_execute_request L E r) st =
    (Raise (TypeError "'<=' not supported between instances of 'int' and 'NoneType'"),
     sent st).
Proof.
  intros H Hm. unfold execute_with_retry, bind, get.
  destruct (Z.to_nat (max_retries st + 1)) as [|left] eqn:Hl; [lia|].
  eapply retry_loop_crash.
  - by apply execute_request_failure.
  - simpl. lia.
  - apply should_retry_transport_error.
Qed.

(** C1 (the code departs from the claim): with the tests' configuration
    (three retries) and a transport that times out, the retry loop makes one
    attempt, sleeps never, and ends with a [TypeError] raised by the
    classifier instead of retrying the transport failure. *)
Theorem transport_failure_not_retried :
  let st := SPAPIClient_init (scripted []) test_config in
  let run := execute_with_retry (scripted [])
               (_execute_request mock_lib (scripted []) get_orders) st in
  fst run = Raise (TypeError "'<=' not supported between instances of 'int' and 'NoneType'")
  /\ http_calls (world (snd run)) = 1%nat
  /\ slept (world (snd run)) = [].
Proof.
  intros st run. unfold run.
  rewrite (transport_failure_ends_retry mock_lib (scripted []) get_orders st "timed out").
  - done.
  - done.
  - done.
Qed.

(** The classifier on the error of a response with status at least 400. *)
Lemma should_retry_api_error (r : AWSRequest) (status : Z) (data : PyVal) :
  _should_retry (api_error r status data) =
    Ret (bool_decide (status ∈ [429; 500; 502; 503; 504; 401]%Z)).
Proof. apply should_retry_status_code. apply lookup_insert_eq. Qed.

Lemma retryable_status_retried (r : AWSRequest) (status : Z) (data : PyVal) :
  retryable_status status -> _should_retry (api_error r status data) = Ret true.
Proof.
  intros H. rewrite should_retry_api_error. f_equal. apply bool_decide_eq_true.
  unfold retryable_status in H. rewrite !elem_of_cons, elem_of_nil in *. intuition.
Qed.

Lemma retryable_status_error (status : Z) : retryable_status status -> (400 <= status)%Z.
Proof.
  unfold retryable_status. rewrite !elem_of_cons, elem_of_nil. lia.
Qed.

(** One failed, retried attempt of the pipeline. *)
Lemma retry_loop_retryable_response (L : Lib) (E : Env) (r : AWSRequest)
    (left attempt : nat) (st : State) (status : Z) (text : string) (data : PyVal) :
  session_request E (http_calls (world st)) r = Response status text ->
  decoded L text = Some data ->
  retryable_status status ->
  Z.of_nat attempt <> max_retries st ->
  (attempt < 1024)%nat ->
  retry_loop E (_execute_request L E r) (S left) attempt st =
    retry_loop E (_execute_request L E r) left (S attempt)
      (backed_off E attempt (sent st)).
Proof.
  intros H Hd Hr Hm Hk.
  eapply retry_loop_again.
  - eapply execute_request_error; [exact H|exact Hd|by apply retryable_status_error].
  - exact Hm.
  - by apply retryable_status_retried.
  - exact Hk.
Qed.

(** The loop for any operation: with three retries allowed, four failures
    of which the first three are classified as retryable are four calls of
    the operation, each from the state the backoff after the previous one
    left, and the error of the fourth call is raised. *)
Lemma execute_with_retry_exhausted (E : Env) (func : M PyVal)
    (st0 s1 s2 s3 s4 : State) (e0 e1 e2 e3 : PyExc) :
  max_retries st0 = 3%Z -> max_retries s1 = 3%Z -> max_retries s2 = 3%Z ->
  max_retries s3 = 3%Z -> max_retries s4 = 3%Z ->
  func st0 = (Raise e0, s1) -> _should_retry e0 = Ret true ->
  func (backed_off E 0 s1) = (Raise e1, s2) -> _should_retry e1 = Ret true ->
  func (backed_off E 1 s2) = (Raise e2, s3) -> _should_retry e2 = Ret true ->
  func (backed_off E 2 s3) = (Raise e3, s4) ->
  execute_with_retry E func st0 = (Raise e3, s4).
Proof.
  intros M0 M1 M2 M3 M4 F0 R0 F1 R1 F2 R2 F3.
  unfold execute_with_retry, bind, get. rewrite M0.
  change (Z.to_nat (3 + 1)) with 4%nat.
  rewrite (retry_loop_again E func _ _ _ _ _ F0) by (rewrite ?M1; (done || lia)).
  rewrite (retry_loop_again E func _ _ _ _ _ F1) by (rewrite ?M2; (done || lia)).
  rewrite (retry_loop_again E func _ _ _ _ _ F2) by (rewrite ?M3; (done || lia)).
  apply (retry_loop_last E func _ _ _ _ _ F3). by rewrite M4.
Qed.

(** C3: with [max_retries = 3], when each of four successive attempts fails
    with the API error of a retried status, exactly four attempts are made
    (with three sleeps between them) and the error of the fourth is raised;
    a first attempt that fails with the API error of status 404 is raised
    after exactly one attempt and no sleep; and for the failures 503, 503
    followed by a success exactly three attempts are made and the value of
    the third is returned.  An attempt fails with the API error of its
    status when the body of the response is one the decoder handles
    ([decoded]); an attempt on which the decoder raises fails with what the
    decoder raised, whatever the status, and when the classifier does not
    retry that error it is raised after that one attempt. *)
Theorem execute_with_retry_attempts (L : Lib) (E : Env) (r : AWSRequest) (st : State) :
  max_retries st = 3%Z ->
  let n := http_calls (world st) in
  let run := execute_with_retry E (_execute_request L E r) st in
  ((forall k, (k < 4)%nat -> exists status text data,
       session_request E (n + k) r = Response status text
       /\ decoded L text = Some data /\ retryable_status status) ->
   exists status text data,
     session_request E (n + 3) r = Response status text
     /\ decoded L text = Some data
     /\ fst run = Raise (api_error r status data)
     /\ http_calls (world (snd run)) = (n + 4)%nat
     /\ length (slept (world (snd run))) = (length (slept (world st)) + 3)%nat)
  /\ (forall text data,
       session_request E n r = Response 404 text ->
       decoded L text = Some data ->
       fst run = Raise (api_error r 404 data)
       /\ http_calls (world (snd run)) = (n + 1)%nat
       /\ slept (world (snd run)) = slept (world st))
  /\ (forall text1 text2 text3 data1 data2 data3,
       session_request E n r = Response 503 text1 ->
       session_request E (n + 1) r = Response 503 text2 ->
       session_request E (n + 2) r = Response 200 text3 ->
       decoded L text1 = Some data1 ->
       decoded L text2 = Some data2 ->
       decoded L text3 = Some data3 ->
       fst run = Ret data3
       /\ http_calls (world (snd run)) = (n + 3)%nat
       /\ length (slept (world (snd run))) = (length (slept (world st)) + 2)%nat)
  /\ (forall status text e,
       session_request E n r = Response status text ->
       status <> 204%Z ->
       json_loads L text = JsonRaises e ->
       _should_retry (decoder_error e) = Ret false ->
       fst run = Raise (decoder_error e)
       /\ http_calls (world (snd run)) = (n + 1)%nat
       /\ slept (world (snd run)) = slept (world st)).
Proof.
  intros Hmax n run. subst run. unfold execute_with_retry, bind, get.
  rewrite Hmax. change (Z.to_nat (3 + 1)) with 4%nat.
  assert (retryable_status 503) as H503.
  { left. rewrite !elem_of_cons. tauto. }
  split; [|split; [|split]].
  - intros Hall.
    destruct (Hall 0%nat) as (s0 & t0 & d0 & H0 & D0 & R0); [lia|].
    destruct (Hall 1%nat) as (s1 & t1 & d1 & H1 & D1 & R1); [lia|].
    destruct (Hall 2%nat) as (s2 & t2 & d2 & H2 & D2 & R2); [lia|].
    destruct (Hall 3%nat) as (s3 & t3 & d3 & H3 & D3 & R3); [lia|].
    subst n. rewrite Nat.add_0_r in H0.
    exists s3, t3, d3. split; [exact H3|]. split; [exact D3|].
    erewrite retry_loop_retryable_response;
      [|exact H0|exact D0|exact R0|simpl; lia|lia].
    erewrite retry_loop_retryable_response;
      [|simpl; rewrite <- H1; f_equal; lia|exact D1|exact R1|simpl; lia|lia].
    erewrite retry_loop_retryable_response;
      [|simpl; rewrite <- H2; f_equal; lia|exact D2|exact R2|simpl; lia|lia].
    erewrite retry_loop_last; cycle 1.
    + eapply (execute_request_error _ _ _ _ s3 t3 d3);
        [|exact D3|by apply retryable_status_error].
      simpl. rewrite <- H3. f_equal. lia.
    + simpl. lia.
    + simpl. repeat split; lia.
  - intros text data H0 D0. subst n.
    erewrite retry_loop_fatal; cycle 1.
    + eapply execute_request_error; [exact H0|exact D0|lia].
    + by rewrite should_retry_api_error.
    + simpl. repeat split. lia.
  - intros t1 t2 t3 d1 d2 d3 H0 H1 H2 D1 D2 D3. subst n.
    erewrite retry_loop_retryable_response;
      [|exact H0|exact D1|exact H503|simpl; lia|lia].
    erewrite retry_loop_retryable_response;
      [|simpl; rewrite <- H1; f_equal; lia|exact D2|exact H503|simpl; lia|lia].
    erewrite retry_loop_return; cycle 1.
    + eapply (execute_request_success _ _ _ _ 200 t3 d3); [|exact D3|lia|lia].
      simpl. rewrite <- H2. f_equal. lia.
    + simpl. repeat split; lia.
  - intros status text e H0 Hn Hj Hr. subst n.
    erewrite retry_loop_fatal; cycle 1.
    + eapply execute_request_decoder_raises; [exact H0|exact Hn|exact Hj].
    + exact Hr.
    + simpl. repeat split. lia.
Qed.

Lemma execute_with_retry_attempts_witness :
  (let E := scripted [Response 503 ""; Response 429 ""; Response 401 ""; Response 500 "busy"] in
   let run := execute_with_retry E (_execute_request mock_lib E get_orders)
                (SPAPIClient_init E test_config) in
   fst run = Raise (api_error get_orders 500 (VDict [("raw_content", VStr "busy")]))
   /\ http_calls (world (snd run)) = 4%nat)
  /\ (let E := scripted [Response 404 "{}"] in
      let run := execute_with_retry E (_execute_request mock_lib E get_orders)
                   (SPAPIClient_init E test_config) in
      fst run = Raise (api_error get_orders 404 (VDict []))
      /\ http_calls (world (snd run)) = 1%nat)
  /\ (let E := scripted [Response 503 ""; Response 503 ""; Response 200 "{}"] in
      let run := execute_with_retry E (_execute_request mock_lib E get_orders)
                   (SPAPIClient_init E test_config) in
      fst run = Ret (VDict [])
      /\ http_calls (world (snd run)) = 3%nat)
  /\ (let E := scripted [Response 503 oversized_literal; Response 200 "{}"] in
      let run := execute_with_retry E (_execute_request mock_lib E get_orders)
                   (SPAPIClient_init E test_config) in
      fst run = Raise (digit_limit_exceeded 4301)
      /\ http_calls (world (snd run)) = 1%nat).
Proof.
  split; [|split; [|split]]; intros E run.
  - destruct (execute_with_retry_attempts mock_lib E get_orders
                (SPAPIClient_init E test_config) eq_refl) as [Hall _].
    destruct Hall as (status & text & data & Hs & Hd & Hr & Hc & _).
    { intros k Hk.
      destruct k as [|[|[|[|k]]]]; [| | | |lia]; eexists _, _, _;
        (split; [reflexivity|]); (split; [reflexivity|]); unfold retryable_status;
        rewrite !elem_of_cons; tauto. }
    vm_compute in Hs. injection Hs as <- <-.
    vm_compute in Hd. injection Hd as <-. split; [exact Hr|exact Hc].
  - destruct (execute_with_retry_attempts mock_lib E get_orders
                (SPAPIClient_init E test_config) eq_refl) as (_ & H404 & _).
    destruct (H404 "{}" (VDict []) eq_refl eq_refl) as (Hr & Hc & _).
    split; [exact Hr|exact Hc].
  - destruct (execute_with_retry_attempts mock_lib E get_orders
                (SPAPIClient_init E test_config) eq_refl) as (_ & _ & Hok & _).
    destruct (Hok "" "" "{}" _ _ _ eq_refl eq_refl eq_refl eq_refl eq_refl eq_refl)
      as (Hr & Hc & _).
    split; [exact Hr|exact Hc].
  - destruct (execute_with_retry_attempts mock_lib E get_orders
                (SPAPIClient_init E test_config) eq_refl) as (_ & _ & _ & Hcrash).
    destruct (Hcrash 503%Z oversized_literal (digit_limit_exceeded 4301) eq_refl)
      as (Hr & Hc & _); [lia|vm_compute; reflexivity|reflexivity|].
    split; [exact Hr|exact Hc].
Defined.

(** ** Backoff *)

Lemma pow2_pos (k : nat) : (0 < inject_Z (2 ^ Z.of_nat k))%Q.
Proof.
  change 0%Q with (inject_Z 0). rewrite <- Zlt_Qlt. apply Z.pow_pos_nonneg; lia.
Qed.

(** C5 as stated fails: at attempt 7 with jitter 1/2 the delay is the cap,
    60, below the claimed lower bound 2^7 * 0.5 = 64. *)
Lemma backoff_lower_bound_fails :
  ~ (forall (k : nat) (jitter : Q),
       (1 # 2 <= jitter)%Q -> (jitter < 3 # 2)%Q ->
       exists delay,
         backoff_of k jitter = Ret delay
         /\ (inject_Z (2 ^ Z.of_nat k) * (1 # 2) <= delay)%Q
         /\ (delay <= Qmin 60 (inject_Z (2 ^ Z.of_nat k) * (3 # 2)))%Q).
Proof.
  intros H. destruct (H 7%nat (1 # 2)) as (delay & Hrun & Hlow & _); [done|done|].
  vm_compute in Hrun. injection Hrun as <-.
  vm_compute in Hlow. by apply Hlow.
Qed.

(** C5, amended: for an attempt [k] up to 1023 the delay computed from a
    jitter sample in [0.5, 1.5) is [min(60, 2^k * jitter)]; it lies between
    [min(60, 2^k * 0.5)] and [min(60, 2^k * 1.5)], and it is at least
    [2^k * 0.5] whenever [k <= 6].  From attempt 1024 on no delay is
    computed: after the jitter is drawn, the product raises
    [OverflowError]. *)
Theorem backoff_bounds (E : Env) (k : nat) (st : State) :
  let jitter := uniform E (uniform_draws (world st)) in
  (1 # 2 <= jitter)%Q -> (jitter < 3 # 2)%Q ->
  ((k <= 1023)%nat ->
   exists delay,
     _calculate_backoff E k st = (Ret delay, drawn st)
     /\ delay = Qmin 60 (inject_Z (2 ^ Z.of_nat k) * jitter)
     /\ (Qmin 60 (inject_Z (2 ^ Z.of_nat k) * (1 # 2)) <= delay)%Q
     /\ (delay <= Qmin 60 (inject_Z (2 ^ Z.of_nat k) * (3 # 2)))%Q
     /\ ((k <= 6)%nat -> (inject_Z (2 ^ Z.of_nat k) * (1 # 2) <= delay)%Q))
  /\ ((1024 <= k)%nat ->
      _calculate_backoff E k st
      = (Raise (OverflowError "int too large to convert to float"), drawn st)).
Proof.
  intros jitter Hlo Hhi. split.
  - intros Hk. eexists. split.
    { unfold _calculate_backoff, bind, random_uniform, lift.
      rewrite backoff_of_small by lia. reflexivity. }
    fold jitter. unfold delay_of.
    pose proof (pow2_pos k) as Hp. set (p := inject_Z (2 ^ Z.of_nat k)) in *.
    assert (p * (1 # 2) <= p * jitter)%Q as H1 by (apply Qmult_le_l; assumption).
    assert (p * jitter <= p * (3 # 2))%Q as H2
      by (apply Qmult_le_l; [assumption | by apply Qlt_le_weak]).
    split; [reflexivity|]. split; [|split].
    + by apply Q.min_le_compat_l.
    + by apply Q.min_le_compat_l.
    + intros H6. apply Q.min_glb; [|exact H1].
      assert (p <= 64)%Q as H64.
      { subst p. change 64%Q with (inject_Z (2 ^ 6)). rewrite <- Zle_Qle.
        apply Z.pow_le_mono_r; lia. }
      lra.
  - intros Hk. unfold _calculate_backoff, bind, random_uniform, lift.
    rewrite backoff_of_large by lia. reflexivity.
Qed.

Lemma backoff_bounds_witness :
  (exists delay st',
     _calculate_backoff (scripted []) 2 (SPAPIClient_init (scripted []) test_config)
       = (Ret delay, st')
     /\ (2 <= delay)%Q /\ (delay <= 6)%Q)
  /\ fst (_calculate_backoff (scripted []) 1024
            (SPAPIClient_init (scripted []) test_config))
     = Raise (OverflowError "int too large to convert to float").
Proof.
  destruct (backoff_bounds (scripted []) 2 (SPAPIClient_init (scripted []) test_config))
    as [Hsmall _]; [done|done|].
  destruct Hsmall as (delay & Hrun & _ & Hlo & Hhi & _); [lia|].
  destruct (backoff_bounds (scripted []) 1024
              (SPAPIClient_init (scripted []) test_config)) as [_ Hlarge]; [done|done|].
  split.
  - eexists delay, _. split; [exact Hrun|]. split.
    + eapply Qle_trans; [|exact Hlo]. done.
    + eapply Qle_trans; [exact Hhi|]. done.
  - rewrite Hlarge by lia. reflexivity.
Defined.

(** ** The token buckets *)

Section Buckets.

Variable E : Env.
Hypothesis Hclock : clock_monotone E.

Lemma clock_le (n m : nat) : (n <= m)%nat -> (clock E n <= clock E m)%Q.
Proof.
  induction 1 as [|m _ IH]; [apply Qle_refl|].
  eapply Qle_trans; [exact IH|apply Hclock].
Qed.

Lemma refill_le_max (t : Q) (b : Bucket) :
  (tokens (refill t b) <= max_tokens b)%Q.
Proof. simpl. apply Q.le_min_l. Qed.

Lemma refill_ok (t : Q) (b : Bucket) :
  bucket_ok b -> (last_refill b <= t)%Q -> bucket_ok (refill t b).
Proof.
  intros (H0 & Hmax & Hrate) Ht. unfold bucket_ok. simpl.
  split; [|split; [apply Q.le_min_l|exact Hrate]].
  apply Q.min_glb; [lra|].
  assert (0 <= (t - last_refill b) * refill_rate b)%Q
    by (apply Qmult_le_0_compat; lra).
  lra.
Qed.

Lemma consume_ok (b : Bucket) :
  bucket_ok b -> Qle_bool 1 (tokens b) = true -> bucket_ok (consume b).
Proof.
  intros (H0 & Hmax & Hrate) H1. apply Qle_bool_iff in H1.
  unfold bucket_ok. simpl. repeat split; lra.
Qed.

Lemma buckets_ok_later (bs : gmap string Bucket) (n m : nat) :
  (n <= m)%nat -> buckets_ok E bs n -> buckets_ok E bs m.
Proof.
  intros Hnm Hok name b Hb. destruct (Hok name b Hb) as [H1 H2].
  split; [exact H1|]. eapply Qle_trans; [exact H2|by apply clock_le].
Qed.

Lemma buckets_ok_insert (bs : gmap string Bucket) (n : nat) (k : string) (b : Bucket) :
  buckets_ok E bs n -> bucket_ok b -> (last_refill b <= clock E n)%Q ->
  buckets_ok E (<[k := b]> bs) n.
Proof.
  intros Hok Hb Ht name b' Hl.
  destruct (decide (k = name)) as [->|Hne].
  - rewrite lookup_insert_eq in Hl. by injection Hl as <-.
  - rewrite lookup_insert_ne in Hl by done. exact (Hok name b' Hl).
Qed.

(** One pass through the loop keeps the buckets within their bounds,
    however it ends. *)
Lemma acquire_iteration_ok (endpoint : string) (st : State) :
  limiter_ok E st -> limiter_ok E (snd (acquire_iteration E endpoint st)).
Proof.
  unfold limiter_ok. intros Hok.
  unfold acquire_iteration, bind, now, get. simpl.
  destruct (buckets (rate_limiter st) !! endpoint) as [b|] eqn:Hb; simpl.
  2:{ eapply buckets_ok_later; [|exact Hok]. lia. }
  destruct (Hok _ _ Hb) as [Hbok Hlast].
  pose proof (refill_ok (clock E (clock_reads (world st))) b Hbok Hlast) as Hre.
  destruct (Qle_bool 1 _) eqn:Hge; simpl.
  - apply buckets_ok_insert.
    + eapply buckets_ok_later; [|exact Hok]. lia.
    + by apply consume_ok.
    + simpl. apply Hclock.
  - destruct (Qeq_bool (refill_rate b) 0); simpl;
      (apply buckets_ok_insert;
       [eapply buckets_ok_later; [|exact Hok]; lia | exact Hre | simpl; apply Hclock]).
Qed.

Lemma acquire_loop_ok (fuel : nat) (endpoint : string) (st : State) :
  limiter_ok E st -> limiter_ok E (snd (acquire_loop E fuel endpoint st)).
Proof.
  revert st. induction fuel as [|fuel IH]; intros st Hok; [exact Hok|].
  simpl. unfold bind.
  pose proof (acquire_iteration_ok endpoint st Hok) as Hstep.
  destruct (acquire_iteration E endpoint st) as [[[|]| |] st1]; simpl in *;
    try exact Hstep.
  by apply IH.
Qed.

Lemma acquire_ok (fuel : nat) (endpoint : string) (st : State) :
  limiter_ok E st -> limiter_ok E (snd (acquire E fuel endpoint st)).
Proof.
  intros Hok. unfold acquire, bind, get.
  destruct (buckets (rate_limiter st) !! endpoint) eqn:H1; simpl.
  { by apply acquire_loop_ok. }
  destruct (buckets (rate_limiter st) !! "default") eqn:H2; simpl.
  { by apply acquire_loop_ok. }
  apply acquire_loop_ok. unfold limiter_ok. simpl.
  apply buckets_ok_insert.
  - eapply buckets_ok_later; [|exact Hok]. lia.
  - unfold bucket_ok. simpl. repeat split; lra.
  - simpl. apply Hclock.
Qed.

Lemma after_acquires_ok (calls : list (nat * string)) (st : State) :
  limiter_ok E st -> limiter_ok E (after_acquires E calls st).
Proof.
  revert st. induction calls as [|[fuel endpoint] calls IH]; intros st Hok; [exact Hok|].
  simpl. apply IH. by apply acquire_ok.
Qed.

(** A granted pass took exactly one token from a refilled level of at
    least one. *)
Lemma acquire_iteration_granted (endpoint : string) (st st' : State) :
  acquire_iteration E endpoint st = (Ret true, st') ->
  exists b b',
    buckets (rate_limiter st) !! endpoint = Some b
    /\ buckets (rate_limiter st') !! endpoint = Some b'
    /\ (1 <= tokens (refill (clock E (clock_reads (world st))) b))%Q
    /\ tokens b' = (tokens (refill (clock E (clock_reads (world st))) b) - 1)%Q.
Proof.
  unfold acquire_iteration, bind, now, get. simpl.
  destruct (buckets (rate_limiter st) !! endpoint) as [b|] eqn:Hb; simpl; [|done].
  destruct (Qle_bool 1 _) eqn:Hge; simpl.
  - intros [= <-]. eexists b, _. simpl. rewrite lookup_insert_eq.
    split; [done|]. split; [done|]. split; [by apply Qle_bool_iff|done].
  - by destruct (Qeq_bool (refill_rate b) 0).
Qed.

End Buckets.

Section BucketsInit.

Variable E : Env.
Hypothesis Hclock : clock_monotone E.

Lemma init_buckets_ok (limits : list (string * (Q * Q))) (st : State) :
  Forall (fun l => (0 <= fst (snd l))%Q /\ (0 <= snd (snd l))%Q) limits ->
  limiter_ok E st -> limiter_ok E (snd (init_buckets E limits st)).
Proof.
  intros Hl. revert st.
  induction Hl as [|[endpoint [rate burst]] limits [Hr Hb] _ IH]; intros st Hok;
    [exact Hok|].
  simpl in Hr, Hb. simpl. unfold bind, now, get, modify. simpl.
  apply IH. unfold limiter_ok. simpl.
  apply buckets_ok_insert.
  - eapply buckets_ok_later; [exact Hclock| |exact Hok]. lia.
  - unfold bucket_ok. simpl. repeat split; [exact Hb|apply Qle_refl|exact Hr].
  - simpl. apply Hclock.
Qed.

Lemma rate_limits_nonnegative :
  Forall (fun l => (0 <= fst (snd l))%Q /\ (0 <= snd (snd l))%Q) RATE_LIMITS.
Proof. unfold RATE_LIMITS. repeat constructor; simpl; lra. Qed.

(** A freshly constructed client has its buckets within bounds. *)
Lemma SPAPIClient_init_ok (config : SPAPIConfig) :
  limiter_ok E (SPAPIClient_init E config).
Proof.
  unfold SPAPIClient_init, RateLimiter_init.
  match goal with
  | |- limiter_ok E (snd (bind (modify ?f) ?k ?st)) =>
      change (limiter_ok E (snd (k tt (f st))))
  end.
  cbv beta. apply init_buckets_ok; [apply rate_limits_nonnegative|].
  intros name b Hb. cbn in Hb. by rewrite lookup_empty in Hb.
Qed.

End BucketsInit.

(** C2: while time passes (the clock never runs backwards), from buckets
    that are within their bounds, after every finite sequence of calls of
    [acquire] (suspended ones included) every bucket has
    [0 <= tokens <= max_tokens]; a refill never leaves more than
    [max_tokens]; and a granted acquisition takes exactly one token, from a
    refilled level of at least one. *)
Theorem bucket_tokens_within_bounds (E : Env) (st : State)
    (calls : list (nat * string)) :
  clock_monotone E ->
  limiter_ok E st ->
  (forall name b,
      buckets (rate_limiter (after_acquires E calls st)) !! name = Some b ->
      (0 <= tokens b)%Q /\ (tokens b <= max_tokens b)%Q)
  /\ (forall t b, (tokens (refill t b) <= max_tokens b)%Q)
  /\ (forall endpoint st1 st2,
         acquire_iteration E endpoint st1 = (Ret true, st2) ->
         exists b b',
           buckets (rate_limiter st1) !! endpoint = Some b
           /\ buckets (rate_limiter st2) !! endpoint = Some b'
           /\ (1 <= tokens (refill (clock E (clock_reads (world st1))) b))%Q
           /\ tokens b' = (tokens (refill (clock E (clock_reads (world st1))) b) - 1)%Q).
Proof.
  intros Hclock Hok. split; [|split].
  - intros name b Hb.
    destruct (after_acquires_ok E Hclock calls st Hok name b Hb) as [(H0 & Hmax & _) _].
    by split.
  - apply refill_le_max.
  - apply acquire_iteration_granted.
Qed.

Lemma scripted_clock_monotone (replies : list HttpReply) :
  clock_monotone (scripted replies).
Proof.
  intros n. simpl. rewrite <- Zle_Qle. lia.
Qed.

Lemma bucket_tokens_within_bounds_witness :
  exists b,
    buckets (rate_limiter
               (after_acquires (scripted [])
                  [(1, "orders"); (2, "inventory"); (1, "orders"); (3, "elsewhere")]%nat
                  (SPAPIClient_init (scripted []) test_config)))
      !! "orders" = Some b
    /\ max_tokens b = 20%Q
    /\ (0 <= tokens b)%Q /\ (tokens b <= max_tokens b)%Q.
Proof.
  eexists. split; [vm_compute; reflexivity|]. split; [reflexivity|].
  refine (proj1 (bucket_tokens_within_bounds (scripted [])
                   (SPAPIClient_init (scripted []) test_config)
                   [(1, "orders"); (2, "inventory"); (1, "orders"); (3, "elsewhere")]%nat
                   (scripted_clock_monotone [])
                   (SPAPIClient_init_ok (scripted []) (scripted_clock_monotone [])
                      test_config)) "orders" _ _).
  vm_compute. reflexivity.
Defined.

(** ** The bearer-token cache *)

Section Token.

Variable E : Env.

(** Every refresh asks the token endpoint exactly once. *)
Lemma refresh_posts_once (st : State) :
  lwa_posts (world (snd (_refresh_access_token E st))) = S (lwa_posts (world st)).
Proof.
  unfold _refresh_access_token, try_except, bind, requests_post, raise_for_status,
    raise, ret, lift, modify, now.
  simpl. repeat case_match; simplify_eq; reflexivity.
Qed.

(** C7: when the token exchange fails (no answer, an HTTP error status, or
    an answer without the token field), the refresh raises and the cached
    token and expiry are what they were before the call. *)
Theorem refresh_failure_keeps_cache (st : State) :
  refresh_fails (lwa_post E (lwa_posts (world st))) ->
  exists msg st',
    _refresh_access_token E st = (Raise (Exception msg), st')
    /\ lwa_manager st' = lwa_manager st.
Proof.
  intros Hf.
  unfold _refresh_access_token, try_except, bind, requests_post, raise_for_status.
  simpl. inversion Hf as [m Hm | status json Hs Hm | status kv Hk Hm]; simpl.
  - eexists _, _. split; reflexivity.
  - assert (((400 <=? status) && (status <? 600))%Z = true) as ->
      by (apply andb_true_iff; split; [apply Z.leb_le|apply Z.ltb_lt]; lia).
    simpl. eexists _, _. split; reflexivity.
  - destruct ((400 <=? status) && (status <? 600))%Z; simpl.
    + eexists _, _. split; reflexivity.
    + unfold lift. rewrite Hk. simpl. eexists _, _. split; reflexivity.
Qed.

End Token.

Lemma refresh_failure_keeps_cache_witness :
  access_token (lwa_manager (snd (_refresh_access_token revoking (blank test_config))))
    = VStr "Atza|first"
  /\ exists msg st2,
       _refresh_access_token revoking
         (snd (_refresh_access_token revoking (blank test_config)))
         = (Raise (Exception msg), st2)
       /\ lwa_manager st2
          = lwa_manager (snd (_refresh_access_token revoking (blank test_config))).
Proof.
  split; [reflexivity|].
  apply (refresh_failure_keeps_cache revoking
           (snd (_refresh_access_token revoking (blank test_config)))).
  apply (fails_no_token 200 [("error", VStr "invalid_grant")]). reflexivity.
Defined.

(** ** Reuse of the cached token *)

Section TokenReuse.

Variable E : Env.

Lemma is_token_expired_cached (st : State) (T : Q) :
  truthy (access_token (lwa_manager st)) = true ->
  token_expires_at (lwa_manager st) = Some T ->
  _is_token_expired E st =
    (Ret (Qle_bool T (clock E (clock_reads (world st)) + 300)), ticked st).
Proof.
  intros Ht HT. unfold _is_token_expired, bind, get. rewrite HT, Ht. reflexivity.
Qed.

Lemma is_token_expired_absent (st : State) :
  token_absent (lwa_manager st) ->
  _is_token_expired E st = (Ret true, st).
Proof.
  intros [Ht|HT]; unfold _is_token_expired, bind, get.
  - rewrite Ht. by destruct (token_expires_at (lwa_manager st)).
  - by rewrite HT.
Qed.

(** A refresh that returns has stored a token and an expiry. *)
Lemma refresh_returns_expiry (st st' : State) :
  _refresh_access_token E st = (Ret tt, st') ->
  exists T, token_expires_at (lwa_manager st') = Some T.
Proof.
  unfold _refresh_access_token, try_except, bind, requests_post, raise_for_status,
    raise, ret, lift, modify, now.
  simpl. intros H. repeat case_match; simplify_eq; simpl; eauto.
Qed.

(** A call that returns a token leaves that token cached with an expiry. *)
Lemma get_access_token_returns (force : bool) (st st1 : State) (tok : PyVal) :
  get_access_token E force st = (Ret tok, st1) ->
  access_token (lwa_manager st1) = tok
  /\ truthy tok = true
  /\ exists T, token_expires_at (lwa_manager st1) = Some T.
Proof.
  unfold get_access_token, bind at 1.
  destruct (_is_token_expired E st) as [[expired| |] st0] eqn:Hexp; [|done|done].
  unfold bind at 1.
  destruct ((if expired || force then _refresh_access_token E else ret tt) st0)
    as [[[]| |] st'] eqn:Hre; [|done|done].
  unfold bind, get.
  destruct (truthy (access_token (lwa_manager st'))) eqn:Ht; simpl; [|done].
  intros [= <- <-]. split; [done|]. split; [done|].
  destruct (expired || force) eqn:Hor.
  - by eapply refresh_returns_expiry.
  - apply orb_false_iff in Hor as [-> ->]. unfold ret in Hre. injection Hre as <-.
    revert Hexp. unfold _is_token_expired, bind, get.
    destruct (token_expires_at (lwa_manager st)) as [T|] eqn:HT; [|done].
    destruct (negb (truthy (access_token (lwa_manager st)))); [done|].
    simpl. intros [= _ <-]. simpl. eauto.
Qed.

(** Before the margin, a call that is not forced returns the cached token
    and asks nobody. *)
Lemma get_access_token_cached (st : State) (T : Q) :
  truthy (access_token (lwa_manager st)) = true ->
  token_expires_at (lwa_manager st) = Some T ->
  (clock E (clock_reads (world st)) + 300 < T)%Q ->
  get_access_token E false st = (Ret (access_token (lwa_manager st)), ticked st).
Proof.
  intros Ht HT Hlt. unfold get_access_token, bind at 1.
  rewrite (is_token_expired_cached st T Ht HT).
  assert (Qle_bool T (clock E (clock_reads (world st)) + 300) = false) as ->.
  { apply not_true_is_false. intros H. apply Qle_bool_iff in H. lra. }
  simpl. unfold bind, ret, get. simpl. by rewrite Ht.
Qed.

(** From the margin on, or when forced, or with nothing cached, a call
    refreshes: the token endpoint is asked once. *)
Lemma get_access_token_refreshes (force : bool) (st : State) :
  force = true
  \/ token_absent (lwa_manager st)
  \/ (exists T, token_expires_at (lwa_manager st) = Some T
                /\ (T <= clock E (clock_reads (world st)) + 300)%Q) ->
  lwa_posts (world (snd (get_access_token E force st))) = S (lwa_posts (world st)).
Proof.
  intros Hcase.
  assert (exists st0, lwa_posts (world st0) = lwa_posts (world st)
            /\ exists b, _is_token_expired E st = (Ret b, st0) /\ b || force = true)
    as (st0 & Hposts & b & Hexp & Hor).
  { destruct (token_expires_at (lwa_manager st)) as [T|] eqn:HT.
    2:{ exists st. split; [done|]. exists true. split; [|done].
        apply is_token_expired_absent. by right. }
    destruct (truthy (access_token (lwa_manager st))) eqn:Ht.
    2:{ exists st. split; [done|]. exists true. split; [|done].
        apply is_token_expired_absent. by left. }
    exists (ticked st). split; [done|]. eexists. split.
    { by apply is_token_expired_cached. }
    destruct Hcase as [->|[[Ha|Ha]|(T' & HT' & Hle)]].
    - apply orb_true_r.
    - congruence.
    - congruence.
    - assert (T' = T) as -> by congruence.
      apply orb_true_iff. left. by apply Qle_bool_iff. }
  unfold get_access_token, bind at 1. rewrite Hexp.
  unfold bind at 1. rewrite Hor.
  pose proof (refresh_posts_once E st0) as Hp.
  destruct (_refresh_access_token E st0) as [[[]| |] st1]; simpl in *;
    [|congruence|congruence].
  unfold bind, get. destruct (negb _); simpl; congruence.
Qed.

End TokenReuse.

(** C6: the cached token counts as expired exactly when it is absent (no
    token, an empty one, or no expiry recorded) or the clock plus the
    five-minute margin has reached the recorded expiry.
    Hence a token that [get_access_token] returned, cached with expiry [T],
    is returned again, with no call of the token endpoint and the cache
    untouched, by every call that is not forced and reads the clock before
    [T - 300]; and every call at or after [T - 300], and every forced call,
    performs a refresh. *)
Theorem cached_token_reused_until_margin (E : Env) (force : bool)
    (st st1 : State) (tok : PyVal) :
  get_access_token E force st = (Ret tok, st1) ->
  (forall st0,
      exists b st0',
        _is_token_expired E st0 = (Ret b, st0')
        /\ lwa_manager st0' = lwa_manager st0
        /\ (b = true <->
            token_absent (lwa_manager st0)
            \/ exists T, token_expires_at (lwa_manager st0) = Some T
                         /\ (T <= clock E (clock_reads (world st0)) + 300)%Q))
  /\ exists T,
       token_expires_at (lwa_manager st1) = Some T
       /\ access_token (lwa_manager st1) = tok
       /\ forall st2,
            lwa_manager st2 = lwa_manager st1 ->
            let t := clock E (clock_reads (world st2)) in
            ((t + 300 < T)%Q ->
             exists st3,
               get_access_token E false st2 = (Ret tok, st3)
               /\ lwa_posts (world st3) = lwa_posts (world st2)
               /\ lwa_manager st3 = lwa_manager st2)
            /\ ((T <= t + 300)%Q ->
                lwa_posts (world (snd (get_access_token E false st2)))
                  = S (lwa_posts (world st2)))
            /\ lwa_posts (world (snd (get_access_token E true st2)))
                 = S (lwa_posts (world st2)).
Proof.
  intros Hget. split.
  - intros st0.
    destruct (token_expires_at (lwa_manager st0)) as [T|] eqn:HT.
    2:{ exists true, st0. split; [apply is_token_expired_absent; by right|].
        split; [done|]. split; [|done]. intros _. left. by right. }
    destruct (truthy (access_token (lwa_manager st0))) eqn:Ht.
    2:{ exists true, st0. split; [apply is_token_expired_absent; by left|].
        split; [done|]. split; [|done]. intros _. left. by left. }
    eexists _, _. split; [by apply is_token_expired_cached|]. split; [done|].
    rewrite Qle_bool_iff. split.
    + intros H. right. by exists T.
    + intros [[Ha|Ha]|(T' & HT' & Hle)]; [congruence|congruence|].
      by assert (T = T') as -> by congruence.
  - destruct (get_access_token_returns E force st st1 tok Hget) as (Htok & Ht & T & HT).
    exists T. split; [exact HT|]. split; [exact Htok|].
    intros st2 Hsame t. split; [|split].
    + intros Hlt. exists (ticked st2).
      rewrite (get_access_token_cached E st2 T); rewrite ?Hsame, ?Htok; try done.
    + intros Hle. apply get_access_token_refreshes. right. right.
      exists T. rewrite Hsame. by split.
    + apply get_access_token_refreshes. by left.
Qed.

Lemma cached_token_reused_until_margin_witness :
  exists st3,
    get_access_token (scripted []) false
      (snd (get_access_token (scripted []) false (blank test_config)))
      = (Ret (VStr "Atza|token"), st3)
    /\ lwa_posts (world st3) = 1%nat.
Proof.
  destruct (cached_token_reused_until_margin (scripted []) false (blank test_config)
              (snd (get_access_token (scripted []) false (blank test_config)))
              (VStr "Atza|token") eq_refl) as (_ & T & HT & _ & Hnext).
  vm_compute in HT. injection HT as <-.
  destruct (Hnext (snd (get_access_token (scripted []) false (blank test_config)))
              eq_refl) as ((st3 & Hrun & Hposts & _) & _).
  { vm_compute. reflexivity. }
  exists st3. split; [exact Hrun|]. rewrite Hposts. reflexivity.
Defined.

(** ** Responses *)

(** C8 as stated fails: a response with status 304 is not a 2xx response,
    and it is returned as a value (the raw-text wrapper of its body), not
    raised as an error. *)
Lemma non_2xx_returned_as_success :
  ~ (forall (L : Lib) (E : Env) (r : AWSRequest) (st : State) status text,
        session_request E (http_calls (world st)) r = Response status text ->
        ~ (200 <= status < 300)%Z ->
        exists e, fst (_execute_request L E r st) = Raise e).
Proof.
  intros H.
  destruct (H mock_lib (scripted [Response 304 ""]) get_orders (blank test_config)
              304%Z "" eq_refl) as [e He]; [lia|].
  vm_compute in He. discriminate He.
Qed.

(** C8, amended: for every response of the transport, [_execute_request]
    returns the empty-success marker when the status is 204; otherwise it
    decodes the body as JSON, or wraps the raw text when the text is not
    JSON, and raises an [SPAPIError] carrying the status code, the decoded
    body, the request URL and the method when the status is at least 400,
    and returns the decoded body when the status is below 400.  The body is
    decoded before the status is looked at: when the decoder raises
    something other than [JSONDecodeError], that exception ends the call
    whatever the status, wrapped as a failed request if it is a
    [RequestException] and as it is otherwise. *)
Theorem execute_request_outcome (L : Lib) (E : Env) (r : AWSRequest) (st : State)
    (status : Z) (text : string) :
  session_request E (http_calls (world st)) r = Response status text ->
  exists o,
    _execute_request L E r st = (o, sent st)
    /\ (status = 204%Z -> o = Ret (VDict [("success", VBool true)]))
    /\ (forall data,
          status <> 204%Z -> decoded L text = Some data ->
          ((400 <= status)%Z ->
           exists msg details,
             o = Raise (SPAPIError msg details)
             /\ details !! "status_code" = Some (VInt status)
             /\ details !! "response" = Some data
             /\ details !! "url" = Some (VStr (url r))
             /\ details !! "method" = Some (VStr (method r)))
          /\ ((status < 400)%Z -> o = Ret data))
    /\ (forall e,
          status <> 204%Z -> json_loads L text = JsonRaises e ->
          o = Raise (decoder_error e)
          /\ ((forall m, e <> RequestException m) -> decoder_error e = e))
    /\ (forall v, json_loads L text = JsonValue v -> decoded L text = Some v)
    /\ (json_loads L text = JSONDecodeError ->
        decoded L text = Some (VDict [("raw_content", VStr text)])).
Proof.
  intros H.
  assert (forall v, json_loads L text = JsonValue v -> decoded L text = Some v) as Hjson
    by (intros v Hv; unfold decoded; by rewrite Hv).
  assert (json_loads L text = JSONDecodeError ->
          decoded L text = Some (VDict [("raw_content", VStr text)]))
    as Hraw by (intros Hv; unfold decoded; by rewrite Hv).
  assert (forall e, (forall m, e <> RequestException m) -> decoder_error e = e) as Hpass.
  { intros e He. destruct e; try reflexivity. by destruct (He message). }
  destruct (Z.eq_dec status 204%Z) as [->|Hne].
  { eexists. split; [by eapply execute_request_no_content|].
    split; [done|]. split; [done|]. split; [done|]. by split. }
  destruct (decoded L text) as [data|] eqn:Hd.
  - destruct (Z_le_gt_dec 400 status) as [Hge|Hlt].
    + eexists. split; [by eapply execute_request_error|].
      split; [done|]. split.
      { intros data' _ [= <-]. split; [|intros; lia].
        intros _. eexists _, _. split; [reflexivity|].
        split; [apply lookup_insert_eq|].
        split; [rewrite lookup_insert_ne by done; apply lookup_insert_eq|].
        split; [do 2 (rewrite lookup_insert_ne by done); apply lookup_insert_eq|].
        do 3 (rewrite lookup_insert_ne by done). apply lookup_insert_eq. }
      split; [|by split].
      intros e _ He. unfold decoded in Hd. by rewrite He in Hd.
    + eexists. split; [eapply execute_request_success; [exact H|exact Hd|lia|exact Hne]|].
      split; [done|]. split.
      { intros data' _ [= <-]. split; [intros; lia|done]. }
      split; [|by split].
      intros e _ He. unfold decoded in Hd. by rewrite He in Hd.
  - assert (exists e, json_loads L text = JsonRaises e) as [e He].
    { unfold decoded in Hd. destruct (json_loads L text); [done|done|by eexists]. }
    eexists. split; [by eapply execute_request_decoder_raises|].
    split; [done|]. split; [done|]. split; [|by split].
    intros e' _ He'. rewrite He in He'. injection He' as <-. split; [done|apply Hpass].
Qed.

Lemma execute_request_outcome_witness :
  (exists msg details,
     fst (_execute_request mock_lib (scripted [Response 403 "denied"]) get_orders
            (blank test_config))
       = Raise (SPAPIError msg details)
     /\ details !! "status_code" = Some (VInt 403)
     /\ details !! "response" = Some (VDict [("raw_content", VStr "denied")]))
  /\ fst (_execute_request mock_lib (scripted [Response 503 oversized_literal]) get_orders
            (blank test_config))
     = Raise (digit_limit_exceeded 4301).
Proof.
  split.
  - destruct (execute_request_outcome mock_lib (scripted [Response 403 "denied"])
                get_orders (blank test_config) 403 "denied" eq_refl)
      as (o & Hrun & _ & Herr & _).
    destruct (Herr (VDict [("raw_content", VStr "denied")])) as [Hraise _];
      [lia|reflexivity|].
    destruct Hraise as (msg & details & -> & Hcode & Hbody & _); [lia|].
    exists msg, details. rewrite Hrun. split; [reflexivity|]. by split.
  - destruct (execute_request_outcome mock_lib (scripted [Response 503 oversized_literal])
                get_orders (blank test_config) 503 oversized_literal eq_refl)
      as (o & Hrun & _ & _ & Hcrash & _).
    destruct (Hcrash (digit_limit_exceeded 4301)) as [-> _];
      [lia|vm_compute; reflexivity|].
    by rewrite Hrun.
Defined.

(** ** The request pipeline *)

Section Pipeline.

Variable L : Lib.
Variable E : Env.

(** The configuration is read, never written. *)
Lemma acquire_iteration_config (endpoint : string) (st : State) :
  config (snd (acquire_iteration E endpoint st)) = config st.
Proof.
  unfold acquire_iteration, bind, now, get, modify, sleep, raise, ret. simpl.
  repeat case_match; reflexivity.
Qed.

Lemma acquire_loop_config (fuel : nat) (endpoint : string) (st : State) :
  config (snd (acquire_loop E fuel endpoint st)) = config st.
Proof.
  revert st. induction fuel as [|fuel IH]; intros st; [reflexivity|].
  simpl. unfold bind.
  pose proof (acquire_iteration_config endpoint st) as Hc.
  destruct (acquire_iteration E endpoint st) as [[[|]| |] st1]; simpl in *;
    try exact Hc.
  by rewrite IH.
Qed.

Lemma acquire_config (fuel : nat) (endpoint : string) (st : State) :
  config (snd (acquire E fuel endpoint st)) = config st.
Proof.
  unfold acquire, bind, get.
  destruct (buckets (rate_limiter st) !! endpoint); simpl;
    [apply acquire_loop_config|].
  destruct (buckets (rate_limiter st) !! "default"); simpl;
    by rewrite acquire_loop_config.
Qed.

Lemma refresh_config (st : State) :
  config (snd (_refresh_access_token E st)) = config st.
Proof.
  unfold _refresh_access_token, try_except, bind, requests_post, raise_for_status,
    raise, ret, lift, modify, now.
  simpl. repeat case_match; simplify_eq; reflexivity.
Qed.

Lemma is_token_expired_config (st : State) :
  config (snd (_is_token_expired E st)) = config st.
Proof.
  unfold _is_token_expired, bind, get, now, ret.
  repeat case_match; simplify_eq; reflexivity.
Qed.

Lemma get_access_token_config (force : bool) (st : State) :
  config (snd (get_access_token E force st)) = config st.
Proof.
  unfold get_access_token. unfold bind at 1.
  pose proof (is_token_expired_config st) as H1.
  destruct (_is_token_expired E st) as [[expired| |] st0]; simpl in H1; [|done|done].
  unfold bind at 1.
  assert (config (snd ((if expired || force then _refresh_access_token E else ret tt) st0))
          = config st0) as H2
    by (destruct (expired || force); [apply refresh_config|reflexivity]).
  destruct ((if expired || force then _refresh_access_token E else ret tt) st0)
    as [[[]| |] st1]; simpl in H2; [|simpl; congruence|simpl; congruence].
  unfold bind, get. destruct (negb _); simpl; congruence.
Qed.

Lemma get_credentials_config (st : State) :
  config (snd (get_credentials E st)) = config st.
Proof.
  unfold get_credentials, try_except, bind, assume_role, raise, ret, modify, get.
  simpl. repeat case_match; simplify_eq; reflexivity.
Qed.

End Pipeline.

Section BuildRequest.

Variable L : Lib.
Variable E : Env.

(** Appending no parameters leaves the request as it is. *)
Lemma add_query_nil (r : AWSRequest) : add_query L [] r = r.
Proof. reflexivity. Qed.

(** The parameters enter [build_request] in its last step only. *)
Lemma build_request_params (fuel : nat) (method endpoint path : string)
    (params : list (string * PyVal)) (data : PyVal)
    (headers : option (gmap string PyVal)) (use_rdt : bool) (rdt_token : PyVal)
    (st : State) :
  build_request L E fuel method endpoint path params data headers use_rdt rdt_token st =
    match build_request L E fuel method endpoint path [] data headers use_rdt rdt_token st
    with
    | (Ret r, st') => (Ret (add_query L params r), st')
    | other => other
    end.
Proof.
  unfold build_request, bind, get, ret.
  repeat case_match; simplify_eq; done.
Qed.

(** Signing: the signature headers are computed from the request as it
    is created, and laid over its headers. *)
Lemma create_signed_request_run (verb address : string) (h : gmap string PyVal)
    (data : option string) (st st' : State) (r : AWSRequest) :
  create_signed_request L E verb address (Some h) data st = (Ret r, st') ->
  config st' = config st
  /\ exists (credentials : Credentials) (t : Q),
       let unsigned := {| method := verb; url := address;
                          headers := h; body := data |} in
       r = {| method := verb; url := address;
              headers := sigv4_headers L credentials "execute-api"
                           (aws_region (config st)) t unsigned ∪ h;
              body := data |}.
Proof.
  unfold create_signed_request, sign_request. simpl. unfold bind at 1.
  pose proof (get_credentials_config E st) as Hc.
  destruct (get_credentials E st) as [[credentials| |] st1]; [|done|done].
  simpl in Hc. unfold bind, get, now, ret. simpl.
  intros [= <- <-]. split; [exact Hc|].
  exists credentials, (clock E (clock_reads (world st1))). simpl. by rewrite Hc.
Qed.

(** What [build_request] hands to the retry loop: the request signed over
    the method, the URL without the parameters, the headers and the body,
    with the parameters appended to the URL afterwards. *)
Lemma build_request_signed (fuel : nat) (verb endpoint path : string)
    (params : list (string * PyVal)) (data : PyVal)
    (extra : option (gmap string PyVal)) (use_rdt : bool) (rdt_token : PyVal)
    (st st' : State) (r : AWSRequest) :
  build_request L E fuel verb endpoint path params data extra use_rdt rdt_token st
    = (Ret r, st') ->
  exists (credentials : Credentials) (t : Q) (credential : PyVal),
    let h := <["x-amz-access-token" := credential]> (default_headers extra) in
    let unsigned := {| method := str_upper L verb;
                       url := urljoin L (base_url (config st)) path;
                       headers := h;
                       body := request_data_of L data |} in
    let signature :=
      sigv4_headers L credentials "execute-api" (aws_region (config st)) t unsigned in
    r = add_query L params
          {| method := str_upper L verb;
             url := urljoin L (base_url (config st)) path;
             headers := signature ∪ h;
             body := request_data_of L data |}.
Proof.
  unfold build_request. unfold bind at 1.
  pose proof (acquire_config E fuel endpoint st) as Hc1.
  destruct (acquire E fuel endpoint st) as [[[]| |] st1]; [|done|done].
  simpl in Hc1. unfold bind at 1. unfold get at 1.
  fold (default_headers extra).
  assert (forall credential st2,
            config st2 = config st1 ->
            (aws_request <- create_signed_request L E (str_upper L verb)
                              (urljoin L (base_url (config st1)) path)
                              (Some (<["x-amz-access-token" := credential]>
                                       (default_headers extra)))
                              (request_data_of L data) ;;
             ret (add_query L params aws_request)) st2 = (Ret r, st') ->
            exists (credentials : Credentials) (t : Q) (credential : PyVal),
              r = add_query L params
                    {| method := str_upper L verb;
                       url := urljoin L (base_url (config st)) path;
                       headers :=
                         sigv4_headers L credentials "execute-api"
                           (aws_region (config st)) t
                           {| method := str_upper L verb;
                              url := urljoin L (base_url (config st)) path;
                              headers :=
                                <["x-amz-access-token" := credential]>
                                  (default_headers extra);
                              body := request_data_of L data |}
                         ∪ <["x-amz-access-token" := credential]>
                             (default_headers extra);
                       body := request_data_of L data |}) as Htail.
  { intros credential st2 Hc2. unfold bind at 1.
    destruct (create_signed_request L E _ _ _ _ st2) as [[r0| |] st3] eqn:Hs;
      [|done|done].
    apply create_signed_request_run in Hs as (_ & credentials & t & ->).
    unfold ret. intros [= <- <-].
    exists credentials, t, credential. by rewrite Hc2, Hc1. }
  unfold bind at 1.
  destruct (use_rdt && truthy rdt_token).
  - unfold ret at 1. by apply Htail.
  - unfold bind at 1.
    pose proof (get_access_token_config E false st1) as Hc2.
    destruct (get_access_token E false st1) as [[tok| |] st2]; [|done|done].
    unfold ret at 1. by apply Htail.
Qed.

End BuildRequest.

Section Parameters.

Variable L : Lib.
Variable E : Env.

Lemma add_query_keeps (params : list (string * PyVal)) (r : AWSRequest) :
  headers (add_query L params r) = headers r
  /\ method (add_query L params r) = method r
  /\ body (add_query L params r) = body r.
Proof. by destruct params. Qed.

(** A parameter whose value is [None] contributes nothing to the query. *)
Lemma query_items_skip_none (p1 p2 : list (string * PyVal)) (k : string) :
  query_items L (p1 ++ (k, VNone) :: p2) = query_items L (p1 ++ p2).
Proof.
  unfold query_items. rewrite !filter_app.
  by rewrite filter_cons_False by (simpl; tauto).
Qed.

(** Every item of the query comes from a parameter whose value is not
    [None]. *)
Lemma query_items_origin (params : list (string * PyVal)) (item : string) :
  item ∈ query_items L params ->
  exists k v, (k, v) ∈ params /\ v <> VNone /\ item = k +:+ "=" +:+ py_str L v.
Proof.
  unfold query_items. intros H.
  apply list_elem_of_fmap in H as ([k v] & -> & Hin).
  apply list_elem_of_filter in Hin as [Hv Hin]. simpl in Hv.
  exists k, v. split; [exact Hin|]. split; [|reflexivity].
  intros ->. exact Hv.
Qed.

(** C9: the parameters enter the request only after it has been signed.
    The outcome for any parameters is the outcome for no parameters with
    the query appended to the URL; two calls that differ in their
    parameters only produce the same headers (signature included), method,
    body and state; the signature is computed from the upper-cased method,
    the URL joined from base and path, the headers and the body; and a
    parameter whose value is [None] is skipped, so that every item of the
    query stems from a parameter with a value. *)
Theorem params_outside_signature (fuel : nat) (verb endpoint path : string)
    (params params' : list (string * PyVal)) (data : PyVal)
    (extra : option (gmap string PyVal)) (use_rdt : bool) (rdt_token : PyVal)
    (st : State) :
  let build p :=
    build_request L E fuel verb endpoint path p data extra use_rdt rdt_token st in
  build params =
    match build [] with
    | (Ret r, st') => (Ret (add_query L params r), st')
    | other => other
    end
  /\ (forall r1 r2 st1 st2,
        build params = (Ret r1, st1) -> build params' = (Ret r2, st2) ->
        headers r1 = headers r2
        /\ method r1 = method r2
        /\ body r1 = body r2 /\ st1 = st2)
  /\ (forall r st',
        build params = (Ret r, st') ->
        exists (credentials : Credentials) (t : Q) (credential : PyVal),
          let h := <["x-amz-access-token" := credential]> (default_headers extra) in
          let unsigned := {| method := str_upper L verb;
                             url := urljoin L (base_url (config st)) path;
                             headers := h;
                             body := request_data_of L data |} in
          headers r =
            sigv4_headers L credentials "execute-api" (aws_region (config st)) t unsigned
            ∪ h
          /\ url r = url (add_query L params unsigned))
  /\ (forall r, params <> [] ->
        url (add_query L params r)
          = url r +:+ "?" +:+ String.concat "&" (query_items L params))
  /\ (forall p1 p2 k,
        query_items L (p1 ++ (k, VNone) :: p2) = query_items L (p1 ++ p2))
  /\ (forall item,
        item ∈ query_items L params ->
        exists k v, (k, v) ∈ params /\ v <> VNone /\ item = k +:+ "=" +:+ py_str L v).
Proof.
  intros build. subst build. cbv beta.
  split; [apply build_request_params|].
  split.
  { intros r1 r2 st1 st2.
    rewrite (build_request_params L E fuel verb endpoint path params).
    rewrite (build_request_params L E fuel verb endpoint path params').
    destruct (build_request L E fuel verb endpoint path [] data extra use_rdt
                rdt_token st) as [[r| |] st0]; [|done|done].
    intros [= <- <-] [= <- <-].
    destruct (add_query_keeps params r) as (-> & -> & ->).
    by destruct (add_query_keeps params' r) as (-> & -> & ->). }
  split.
  { intros r st' Hb.
    apply build_request_signed in Hb as (credentials & t & credential & ->).
    exists credentials, t, credential. cbv zeta.
    split; [apply add_query_keeps|]. by destruct params. }
  split; [intros r Hp; by destruct params|].
  split; [apply query_items_skip_none|apply query_items_origin].
Qed.

(** C10: a call in restricted-token mode without a restricted token is the
    call outside that mode: the pipeline, and the request it builds, are the
    same, and the credential header of that request is the token
    [get_access_token] returns. *)
Theorem missing_rdt_falls_back (fuel : nat) (method endpoint path : string)
    (params : list (string * PyVal)) (data : PyVal)
    (headers : option (gmap string PyVal)) (st : State) :
  request L E fuel method endpoint path params data headers true VNone st
    = request L E fuel method endpoint path params data headers false VNone st
  /\ build_request L E fuel method endpoint path params data headers true VNone st
     = build_request L E fuel method endpoint path params data headers false VNone st
  /\ (forall st1 st2 tok,
        acquire E fuel endpoint st = (Ret tt, st1) ->
        get_access_token E false st1 = (Ret tok, st2) ->
        build_request L E fuel method endpoint path params data headers true VNone st
        = (aws_request <-
             create_signed_request L E (str_upper L method)
               (urljoin L (base_url (config st1)) path)
               (Some (<["x-amz-access-token" := tok]> (default_headers headers)))
               (request_data_of L data) ;;
           ret (add_query L params aws_request)) st2).
Proof.
  split; [reflexivity|]. split; [reflexivity|].
  intros st1 st2 tok Ha Ht.
  unfold build_request. unfold bind at 1. rewrite Ha.
  unfold bind at 1. unfold get at 1. unfold bind at 1. simpl.
  unfold bind at 1. rewrite Ht. reflexivity.
Qed.

End Parameters.

Lemma params_outside_signature_witness :
  exists r1 r2 st1 st2,
    build_request mock_lib (scripted []) 2 "GET" "orders" "/orders/v0/orders"
      [("CreatedAfter", VStr "2024-01-01T00:00:00Z")] VNone None false VNone
      (SPAPIClient_init (scripted []) test_config) = (Ret r1, st1)
    /\ build_request mock_lib (scripted []) 2 "GET" "orders" "/orders/v0/orders"
         [("MaxResultsPerPage", VInt 10); ("NextToken", VNone)] VNone None false VNone
         (SPAPIClient_init (scripted []) test_config) = (Ret r2, st2)
    /\ headers r1 = headers r2 /\ body r1 = body r2 /\ st1 = st2.
Proof.
  pose proof (params_outside_signature mock_lib (scripted []) 2 "GET" "orders"
                "/orders/v0/orders"
                [("CreatedAfter", VStr "2024-01-01T00:00:00Z")]
                [("MaxResultsPerPage", VInt 10); ("NextToken", VNone)]
                VNone None false VNone (SPAPIClient_init (scripted []) test_config))
    as (H1 & Hsame & _).
  cbv zeta in H1, Hsame.
  pose proof (build_request_params mock_lib (scripted []) 2 "GET" "orders"
                "/orders/v0/orders"
                [("MaxResultsPerPage", VInt 10); ("NextToken", VNone)]
                VNone None false VNone (SPAPIClient_init (scripted []) test_config))
    as H2.
  destruct (build_request mock_lib (scripted []) 2 "GET" "orders" "/orders/v0/orders"
              [] VNone None false VNone (SPAPIClient_init (scripted []) test_config))
    as [[r0| |] st0] eqn:H0.
  - eexists _, _, _, _. split; [exact H1|]. split; [exact H2|].
    destruct (Hsame _ _ _ _ H1 H2) as (Hh & _ & Hb & Hst). by repeat split.
  - vm_compute in H0. discriminate H0.
  - vm_compute in H0. discriminate H0.
Defined.

Lemma missing_rdt_falls_back_witness :
  exists r st',
    build_request mock_lib (scripted []) 2 "GET" "orders" "/orders/v0/orders" []
      VNone None true VNone (SPAPIClient_init (scripted []) test_config) = (Ret r, st')
    /\ headers r !! "x-amz-access-token" = Some (VStr "Atza|token")
    /\ request mock_lib (scripted []) 2 "GET" "orders" "/orders/v0/orders" []
         VNone None true VNone (SPAPIClient_init (scripted []) test_config)
       = request mock_lib (scripted []) 2 "GET" "orders" "/orders/v0/orders" []
           VNone None false VNone (SPAPIClient_init (scripted []) test_config).
Proof.
  destruct (missing_rdt_falls_back mock_lib (scripted []) 2 "GET" "orders"
              "/orders/v0/orders" [] VNone None
              (SPAPIClient_init (scripted []) test_config))
    as (Hreq & _ & Hbuild).
  pose (st1 := snd (acquire (scripted []) 2 "orders"
                      (SPAPIClient_init (scripted []) test_config))).
  pose (st2 := snd (get_access_token (scripted []) false st1)).
  assert (acquire (scripted []) 2 "orders" (SPAPIClient_init (scripted []) test_config)
          = (Ret tt, st1)) as H1 by (vm_compute; reflexivity).
  assert (get_access_token (scripted []) false st1 = (Ret (VStr "Atza|token"), st2))
    as H2 by (vm_compute; reflexivity).
  rewrite (Hbuild st1 st2 (VStr "Atza|token") H1 H2).
  eexists _, _. split; [vm_compute; reflexivity|]. split; [|exact Hreq].
  vm_compute. reflexivity.
Defined.


(** ** The pipeline on concrete calls *)

(** A GET of the orders with one parameter set and one left out: one
    attempt, the decoded body is returned, and the URL that was signed has
    no query while the URL that is sent has the parameter that was set. *)
Example request_orders :
  let E := scripted [Response 200 "{}"] in
  let params := [("CreatedAfter", VStr "2024-01-01T00:00:00Z"); ("NextToken", VNone)] in
  let run := request mock_lib E 2 "GET" "orders" "/orders/v0/orders" params VNone None
               false VNone (SPAPIClient_init E test_config) in
  fst run = Ret (VDict [])
  /\ http_calls (world (snd run)) = 1%nat
  /\ lwa_posts (world (snd run)) = 1%nat.
Proof. vm_compute. done. Qed.

Example build_request_orders :
  let E := scripted [] in
  let params := [("CreatedAfter", VStr "2024-01-01T00:00:00Z"); ("NextToken", VNone)] in
  exists r st',
    build_request mock_lib E 2 "GET" "orders" "/orders/v0/orders" params VNone None
      true VNone (SPAPIClient_init E test_config) = (Ret r, st')
    /\ url r = "https://sellingpartnerapi-eu.amazon.com/orders/v0/orders?CreatedAfter=2024-01-01T00:00:00Z"
    /\ headers r !! "x-amz-access-token" = Some (VStr "Atza|token")
    /\ headers r !! "Authorization" =
         Some (VStr "execute-api/eu-west-1/ASIAKEY/GET https://sellingpartnerapi-eu.amazon.com/orders/v0/orders").
Proof. eexists _, _. split; [vm_compute; reflexivity|]. vm_compute. done. Qed.

(** A response with status 403 is raised after the first attempt, without
    a sleep. *)
Example request_forbidden :
  let E := scripted [Response 403 "{}"; Response 200 "{}"] in
  let run := request mock_lib E 2 "GET" "orders" "/orders/v0/orders" [] VNone None
               false VNone (SPAPIClient_init E test_config) in
  fst run = Raise (api_error get_orders 403 (VDict []))
  /\ http_calls (world (snd run)) = 1%nat
  /\ slept (world (snd run)) = [].
Proof. vm_compute. repeat split. Qed.

(** After twenty acquisitions the bucket of the orders is empty: the next
    call is granted at once on another endpoint, is still waiting after one
    pass on the orders, and is granted there once the clock has refilled
    a token. *)
Example acquire_waits :
  let E := scripted [] in
  let st := after_acquires E (repeat (1%nat, "orders") 20)
              (SPAPIClient_init E test_config) in
  fst (acquire E 1 "listings" st) = Ret tt
  /\ fst (acquire E 1 "orders" st) = Pending
  /\ fst (acquire E 70 "orders" st) = Ret tt.
Proof. vm_compute. repeat split. Qed.

(** * Further properties of the code *)

(** ** Formatting of errors *)

Lemma format_error_status (msg : string) (details : gmap string PyVal) (status : Z) :
  details !! "status_code" = Some (VInt status) ->
  exists result,
    format_error (SPAPIError msg details) = Ret result
    /\ result !! "type" = Some (VStr "SPAPIError")
    /\ result !! "message" = Some (VStr msg)
    /\ result !! "guidance" =
         if (status =? 401)%Z then
           Some (VStr "Authentication failed. Check your LWA credentials and refresh token.")
         else if (status =? 403)%Z then
           Some (VStr "Access forbidden. Check your application permissions and roles.")
         else if (status =? 429)%Z then
           Some (VStr "Rate limit exceeded. The request will be retried automatically.")
         else if (500 <=? status)%Z then
           Some (VStr "Amazon server error. The request will be retried automatically.")
         else if (status =? 400)%Z then
           Some (VStr "Bad request. Check your request parameters.")
         else None.
Proof.
  intros Hs. unfold format_error.
  assert (size details <> 0%nat) as Hne.
  { intros Hz. apply map_size_empty_iff in Hz. subst. by rewrite lookup_empty in Hs. }
  apply Nat.eqb_neq in Hne. rewrite Hne.
  unfold dict_get. rewrite Hs. simpl. unfold py_eq_int, py_ge_int. simpl.
  repeat (case_match; simpl);
    (eexists; split; [reflexivity|]);
    repeat (rewrite ?lookup_insert_eq, ?lookup_insert_ne by done); rewrite ?lookup_empty;
    done.
Qed.

(** X1: for an error that carries an integer status code, [format_error]
    returns a dictionary with the type, the message and a guidance that
    depends on the status alone: its own text for 401, 403, 429, for every
    status from 500 up, and for 400; no guidance for any other status. *)
Theorem format_error_guidance (msg : string) (details : gmap string PyVal)
    (status : Z) :
  details !! "status_code" = Some (VInt status) ->
  exists result,
    format_error (SPAPIError msg details) = Ret result
    /\ result !! "type" = Some (VStr "SPAPIError")
    /\ result !! "message" = Some (VStr msg)
    /\ (is_Some (result !! "guidance")
        <-> status ∈ [400; 401; 403; 429]%Z \/ (500 <= status)%Z)
    /\ (retry_promised (Ret result) <-> status = 429%Z \/ (500 <= status)%Z).
Proof.
  intros Hs. destruct (format_error_status msg details status Hs)
    as (result & Hrun & Hty & Hmsg & Hg).
  exists result. split; [exact Hrun|]. split; [exact Hty|]. split; [exact Hmsg|].
  unfold retry_promised. rewrite !elem_of_cons, elem_of_nil.
  split.
  - rewrite Hg. repeat case_match; rewrite ?is_Some_alt; simpl;
      repeat match goal with
             | H : (_ =? _)%Z = true |- _ => apply Z.eqb_eq in H
             | H : (_ =? _)%Z = false |- _ => apply Z.eqb_neq in H
             | H : (_ <=? _)%Z = true |- _ => apply Z.leb_le in H
             | H : (_ <=? _)%Z = false |- _ => apply Z.leb_gt in H
             end; split; intros; try done; lia.
  - split.
    + intros (result' & [= <-] & Hcase). rewrite Hg in Hcase.
      repeat case_match;
        repeat match goal with
               | H : (_ =? _)%Z = true |- _ => apply Z.eqb_eq in H
               | H : (_ =? _)%Z = false |- _ => apply Z.eqb_neq in H
               | H : (_ <=? _)%Z = true |- _ => apply Z.leb_le in H
               | H : (_ <=? _)%Z = false |- _ => apply Z.leb_gt in H
               end; destruct Hcase as [Hc|Hc]; try discriminate Hc; lia.
    + intros Hcase. exists result. split; [reflexivity|]. rewrite Hg.
      repeat case_match;
        repeat match goal with
               | H : (_ =? _)%Z = true |- _ => apply Z.eqb_eq in H
               | H : (_ =? _)%Z = false |- _ => apply Z.eqb_neq in H
               | H : (_ <=? _)%Z = true |- _ => apply Z.leb_le in H
               | H : (_ <=? _)%Z = false |- _ => apply Z.leb_gt in H
               end; try lia; auto.
Qed.

Lemma format_error_guidance_witness :
  exists result,
    format_error (api_error get_orders 404 (VDict [])) = Ret result
    /\ result !! "guidance" = None.
Proof.
  destruct (format_error_guidance "API error 404"
              (<["status_code" := VInt 404]>
                 (<["response" := VDict []]>
                    (<["url" := VStr (url get_orders)]>
                       (<["method" := VStr (method get_orders)]> ∅)))) 404)
    as (result & Hrun & _ & _ & Hg & _); [apply lookup_insert_eq|].
  exists result. split; [exact Hrun|].
  destruct (result !! "guidance") eqn:Hl; [|reflexivity].
  exfalso. assert (is_Some (Some p)) as Hsome by eauto.
  apply Hg in Hsome. rewrite !elem_of_cons, elem_of_nil in Hsome. lia.
Defined.

(** X2: the error [_execute_request] raises for a transport failure cannot
    be formatted: [format_error] raises a [TypeError] on it, from the
    comparison of the missing status code with 500. *)
Theorem format_error_transport_failure (L : Lib) (E : Env) (r : AWSRequest)
    (st : State) (m : string) :
  session_request E (http_calls (world st)) r = TransportFailure m ->
  exists e st',
    _execute_request L E r st = (Raise e, st')
    /\ format_error e =
         Raise (TypeError "'>=' not supported between instances of 'NoneType' and 'int'").
Proof.
  intros H. exists (transport_error m), (sent st).
  split; [by apply execute_request_failure|].
  unfold transport_error, format_error.
  rewrite map_size_insert_None by apply lookup_empty. simpl.
  unfold dict_get. rewrite lookup_insert_ne by done. by rewrite lookup_empty.
Qed.

Lemma format_error_transport_failure_witness :
  exists e st',
    _execute_request mock_lib (scripted []) get_orders (blank test_config) = (Raise e, st')
    /\ format_error e =
         Raise (TypeError "'>=' not supported between instances of 'NoneType' and 'int'").
Proof.
  exact (format_error_transport_failure mock_lib (scripted []) get_orders
           (blank test_config) "timed out" eq_refl).
Defined.

(** X3: what the guidance promises and what the retry policy does differ on
    the server errors outside 500, 502, 503 and 504: for each of them
    [format_error] says that the request is retried automatically, and
    [_should_retry] answers that it is not.  In the other direction, an API
    error that the policy retries is 401 or has the promise. *)
Theorem guidance_promises_retry_not_made (r : AWSRequest) (status : Z) (data : PyVal) :
  ((500 <= status)%Z -> status ∉ [500; 502; 503; 504]%Z ->
   retry_promised (format_error (api_error r status data))
   /\ _should_retry (api_error r status data) = Ret false)
  /\ (_should_retry (api_error r status data) = Ret true ->
      status = 401%Z \/ retry_promised (format_error (api_error r status data))).
Proof.
  destruct (format_error_guidance ("API error " +:+ pretty status)
              (<["status_code" := VInt status]>
                 (<["response" := data]>
                    (<["url" := VStr (url r)]>
                       (<["method" := VStr (method r)]> ∅)))) status)
    as (result & Hrun & _ & _ & _ & Hp); [apply lookup_insert_eq|].
  fold (api_error r status data) in Hrun. rewrite Hrun.
  rewrite should_retry_api_error. split.
  - intros Hge Hnot. split; [apply Hp; by right|].
    f_equal. apply bool_decide_eq_false.
    rewrite !elem_of_cons, elem_of_nil in *. lia.
  - intros [= Hd]. apply bool_decide_eq_true in Hd.
    rewrite !elem_of_cons, elem_of_nil in Hd.
    destruct (Z.eq_dec status 401%Z) as [->|Hne]; [by left|].
    right. apply Hp. lia.
Qed.

Lemma guidance_promises_retry_not_made_witness :
  retry_promised (format_error (api_error get_orders 501 (VDict [])))
  /\ _should_retry (api_error get_orders 501 (VDict [])) = Ret false.
Proof.
  apply (guidance_promises_retry_not_made get_orders 501 (VDict [])); [lia|].
  rewrite !elem_of_cons, elem_of_nil. lia.
Defined.

(** ** Attempts *)

Lemma execute_request_cases (L : Lib) (E : Env) (r : AWSRequest) (st : State) :
  (exists v, _execute_request L E r st = (Ret v, sent st))
  \/ (exists msg details,
        _execute_request L E r st = (Raise (SPAPIError msg details), sent st))
  \/ (exists status text e,
        session_request E (http_calls (world st)) r = Response status text
        /\ status <> 204%Z
        /\ json_loads L text = JsonRaises e
        /\ (forall m, e <> RequestException m)
        /\ _execute_request L E r st = (Raise e, sent st)).
Proof.
  destruct (session_request E (http_calls (world st)) r) as [m|status text] eqn:H.
  { right. left. eexists _, _. by apply execute_request_failure. }
  destruct (Z.eq_dec status 204%Z) as [->|Hne].
  { left. eexists. by eapply execute_request_no_content. }
  destruct (json_loads L text) as [v| |e] eqn:Hj.
  - assert (decoded L text = Some v) as Hd by (unfold decoded; by rewrite Hj).
    destruct (Z_le_gt_dec 400 status).
    + right. left. eexists _, _. by eapply execute_request_error.
    + left. eexists. eapply execute_request_success; [done|exact Hd|lia|done].
  - assert (decoded L text = Some (VDict [("raw_content", VStr text)])) as Hd
      by (unfold decoded; by rewrite Hj).
    destruct (Z_le_gt_dec 400 status).
    + right. left. eexists _, _. by eapply execute_request_error.
    + left. eexists. eapply execute_request_success; [done|exact Hd|lia|done].
  - pose proof (execute_request_decoder_raises L E r st status text e H Hne Hj) as Hrun.
    destruct e;
      try (right; right; exists status, text; eexists; split; [reflexivity|];
           split; [exact Hne|]; split; [exact Hj|]; split; [done|exact Hrun]).
    right. left. eexists _, _. exact Hrun.
Qed.


(** Every attempt returns or raises, in the state after the call of the
    transport. *)
Lemma execute_request_returns_or_raises (L : Lib) (E : Env) (r : AWSRequest)
    (st : State) :
  (exists v, _execute_request L E r st = (Ret v, sent st))
  \/ (exists e, _execute_request L E r st = (Raise e, sent st)).
Proof.
  destruct (execute_request_cases L E r st)
    as [[v ->]|[(msg & details & ->)|(status & text & e & _ & _ & _ & _ & ->)]]; eauto.
Qed.

Section Attempts.

Variable L : Lib.
Variable E : Env.
Variable r : AWSRequest.

Lemma same_components_refl (st : State) : same_components st st.
Proof. by repeat split. Qed.

Lemma retry_loop_bounds (left attempt : nat) (st : State) :
  (Z.of_nat attempt + Z.of_nat left = max_retries st + 1)%Z ->
  exists (k : nat) (new : list Q),
    let st' := snd (retry_loop E (_execute_request L E r) left attempt st) in
    (k <= left)%nat
    /\ (left <> 0%nat -> k = S (length new))
    /\ http_calls (world st') = (http_calls (world st) + k)%nat
    /\ slept (world st') = (new ++ slept (world st))%list
    /\ Forall (fun d => (d <= 60)%Q) new
    /\ same_components st st'.
Proof.
  revert attempt st. induction left as [|left IH]; intros attempt st Heq.
  { exists 0%nat, []. simpl. repeat split; try done; lia. }
  destruct (execute_request_returns_or_raises L E r st) as [[v Hrun]|[e Hrun]].
  { exists 1%nat, []. cbv zeta. rewrite (retry_loop_return E _ _ _ _ _ _ Hrun). simpl.
    repeat split; try done; lia. }
  destruct (Z.eq_dec (Z.of_nat attempt) (max_retries (sent st))) as [Hlast|Hmore].
  { exists 1%nat, []. cbv zeta. rewrite (retry_loop_last E _ _ _ _ _ _ Hrun Hlast). simpl.
    repeat split; try done; lia. }
  destruct (_should_retry e) as [[|]|x|] eqn:Hretry.
  - destruct (le_lt_dec 1024 attempt) as [Hbig|Hsmall].
    { exists 1%nat, []. cbv zeta.
      rewrite (retry_loop_overflow E _ _ _ _ _ _ Hrun Hmore Hretry Hbig). simpl.
      repeat split; try done; lia. }
    destruct (IH (S attempt) (backed_off E attempt (sent st)))
      as (k & new & Hk & Hlen & Hcalls & Hslept & Hall & Hsame).
    { simpl in *. lia. }
    cbv zeta in *.
    exists (S k), (new ++ [delay_of attempt (uniform E (uniform_draws (world (sent st))))])%list.
    rewrite (retry_loop_again E _ _ _ _ _ _ Hrun Hmore Hretry Hsmall).
    split; [lia|]. split.
    { intros _. rewrite length_app. simpl. rewrite Hlen; [lia|]. simpl in *. lia. }
    split; [rewrite Hcalls; simpl; lia|].
    split; [rewrite Hslept; simpl; by rewrite <- app_assoc|].
    split.
    { apply Forall_app. split; [exact Hall|]. constructor; [|constructor].
      unfold delay_of. apply Q.le_min_l. }
    destruct Hsame as (H1 & H2 & H3 & H4 & H5 & H6 & H7 & H8).
    repeat split; [by rewrite H1|by rewrite H2|by rewrite H3|by rewrite H4|by rewrite H5
                  |by rewrite H6|by rewrite H7|by rewrite H8].
  - exists 1%nat, []. cbv zeta. rewrite (retry_loop_fatal E _ _ _ _ _ _ Hrun Hretry). simpl.
    repeat split; try done; lia.
  - exists 1%nat, []. cbv zeta.
    rewrite (retry_loop_crash E _ _ _ _ _ _ x Hrun Hmore Hretry). simpl.
    repeat split; try done; lia.
  - exists 1%nat, []. cbv zeta. simpl. unfold try_except. rewrite Hrun.
    unfold bind, get, lift. apply Z.eqb_neq in Hmore. rewrite Hmore, Hretry. simpl.
    repeat split; try done; lia.
Qed.

End Attempts.

(** X5: with a number of retries that is not negative, [execute_with_retry]
    makes at least one and at most [max_retries + 1] attempts, sleeps once
    between two attempts and never else, and never sleeps longer than 60
    seconds at a time. *)
Theorem execute_with_retry_bounded (L : Lib) (E : Env) (r : AWSRequest) (st : State) :
  (0 <= max_retries st)%Z ->
  exists (attempts : nat) (new : list Q),
    let st' := snd (execute_with_retry E (_execute_request L E r) st) in
    (1 <= attempts)%nat /\ (Z.of_nat attempts <= max_retries st + 1)%Z
    /\ http_calls (world st') = (http_calls (world st) + attempts)%nat
    /\ slept (world st') = (new ++ slept (world st))%list
    /\ S (length new) = attempts
    /\ Forall (fun d => (d <= 60)%Q) new.
Proof.
  intros Hmax.
  destruct (retry_loop_bounds L E r (Z.to_nat (max_retries st + 1)) 0 st)
    as (k & new & Hk & Hlen & Hcalls & Hslept & Hall & _); [lia|].
  exists k, new. cbv zeta in *. unfold execute_with_retry, bind, get.
  assert (k = S (length new)) as Hk' by (apply Hlen; lia).
  repeat split; try done; lia.
Qed.

Lemma execute_with_retry_bounded_witness :
  exists (attempts : nat) (new : list Q),
    (attempts <= 4)%nat
    /\ http_calls (world (snd (execute_with_retry (scripted [])
                                 (_execute_request mock_lib (scripted []) get_orders)
                                 (blank test_config)))) = attempts
    /\ S (length new) = attempts.
Proof.
  destruct (execute_with_retry_bounded mock_lib (scripted []) get_orders
              (blank test_config)) as (attempts & new & _ & Hmax & Hcalls & _ & Hlen & _);
    [done|].
  exists attempts, new. split; [simpl in Hmax; lia|]. split; [exact Hcalls|exact Hlen].
Defined.

(** X6: the retry loop around [_execute_request] touches neither the cached
    bearer token, nor the cached signing credentials, nor the buckets, and
    asks neither the token endpoint nor STS: every attempt, the one after a
    401 included, sends the request it was given, with the credential header
    that request already has. *)
Theorem retries_keep_credentials (L : Lib) (E : Env) (r : AWSRequest) (st : State) :
  same_components st (snd (execute_with_retry E (_execute_request L E r) st)).
Proof.
  unfold execute_with_retry, bind, get.
  destruct (Z_lt_le_dec (max_retries st) 0) as [Hneg|Hpos].
  - replace (Z.to_nat (max_retries st + 1)) with 0%nat by lia. apply same_components_refl.
  - destruct (retry_loop_bounds L E r (Z.to_nat (max_retries st + 1)) 0 st)
      as (k & new & _ & _ & _ & _ & _ & Hsame); [lia|]. exact Hsame.
Qed.


(** X7: with a negative number of retries the loop has no iteration:
    [execute_with_retry] returns [None] without calling the operation at
    all, whatever the operation is. *)
Theorem negative_retries_skip_operation (E : Env) (func : M PyVal) (st : State) :
  (max_retries st < 0)%Z ->
  execute_with_retry E func st = (Ret VNone, st).
Proof.
  intros Hneg. unfold execute_with_retry, bind, get.
  by replace (Z.to_nat (max_retries st + 1)) with 0%nat by lia.
Qed.

Lemma negative_retries_skip_operation_witness :
  execute_with_retry (scripted [Response 200 "{}"])
    (_execute_request mock_lib (scripted [Response 200 "{}"]) get_orders)
    (blank (with_retries (-1)))
  = (Ret VNone, blank (with_retries (-1))).
Proof. apply negative_retries_skip_operation. reflexivity. Defined.

(** X8: with no retry allowed the wrapper is transparent: the outcome of
    the single call of the operation, value or exception, is the outcome of
    [execute_with_retry], and the retry policy is not consulted.  So a
    transport failure leaves as the [SPAPIError] the pipeline made of it. *)
Theorem zero_retries_transparent (E : Env) (func : M PyVal) (st st' : State)
    (o : Outcome PyVal) :
  max_retries st = 0%Z -> max_retries st' = 0%Z ->
  func st = (o, st') ->
  execute_with_retry E func st = (o, st').
Proof.
  intros H0 H0' Hf. unfold execute_with_retry, bind, get. rewrite H0.
  change (Z.to_nat (0 + 1)) with 1%nat.
  destruct o as [v|e|].
  - by apply retry_loop_return.
  - apply retry_loop_last; [exact Hf|]. by rewrite H0'.
  - simpl. unfold try_except. by rewrite Hf.
Qed.

Lemma zero_retries_transparent_witness :
  execute_with_retry (scripted [])
    (_execute_request mock_lib (scripted []) get_orders) (blank (with_retries 0))
  = (Raise (transport_error "timed out"), sent (blank (with_retries 0))).
Proof.
  apply zero_retries_transparent; [reflexivity|reflexivity|].
  by apply execute_request_failure.
Defined.

(** ** More on the token buckets *)

Section BucketFrame.

Variable E : Env.

Lemma acquire_iteration_frame (endpoint name : string) (st : State) :
  name <> endpoint ->
  buckets (rate_limiter (snd (acquire_iteration E endpoint st))) !! name
    = buckets (rate_limiter st) !! name.
Proof.
  intros Hne. unfold acquire_iteration, bind, now, get, modify, sleep, raise, ret. simpl.
  repeat case_match; simpl; rewrite ?lookup_insert_ne by done; reflexivity.
Qed.

Lemma acquire_loop_frame (fuel : nat) (endpoint name : string) (st : State) :
  name <> endpoint ->
  buckets (rate_limiter (snd (acquire_loop E fuel endpoint st))) !! name
    = buckets (rate_limiter st) !! name.
Proof.
  intros Hne. revert st. induction fuel as [|fuel IH]; intros st; [reflexivity|].
  simpl. unfold bind.
  pose proof (acquire_iteration_frame endpoint name st Hne) as Hstep.
  destruct (acquire_iteration E endpoint st) as [[[|]| |] st1]; simpl in *;
    try exact Hstep.
  by rewrite IH.
Qed.

Lemma acquire_iteration_limits (endpoint name : string) (st : State) (b : Bucket) :
  buckets (rate_limiter st) !! name = Some b ->
  exists b', buckets (rate_limiter (snd (acquire_iteration E endpoint st))) !! name = Some b'
             /\ same_limits b b'.
Proof.
  intros Hb. destruct (decide (name = endpoint)) as [->|Hne].
  - unfold acquire_iteration, bind, now, get, modify, sleep, raise, ret. simpl.
    rewrite Hb. repeat case_match; simpl; rewrite ?lookup_insert_eq;
      eexists; (split; [reflexivity|]); by split.
  - rewrite acquire_iteration_frame by done. exists b. by repeat split.
Qed.

Lemma acquire_loop_limits (fuel : nat) (endpoint name : string) (st : State) (b : Bucket) :
  buckets (rate_limiter st) !! name = Some b ->
  exists b', buckets (rate_limiter (snd (acquire_loop E fuel endpoint st))) !! name = Some b'
             /\ same_limits b b'.
Proof.
  revert st b. induction fuel as [|fuel IH]; intros st b Hb.
  { exists b. by repeat split. }
  simpl. unfold bind.
  destruct (acquire_iteration_limits endpoint name st b Hb) as (b1 & Hb1 & Hl1 & Hl2).
  destruct (acquire_iteration E endpoint st) as [[[|]| |] st1]; simpl in *;
    try (exists b1; by repeat split).
  destruct (IH st1 b1 Hb1) as (b2 & Hb2 & Hl3 & Hl4).
  exists b2. split; [exact Hb2|]. split; congruence.
Qed.

End BucketFrame.

(** X9: a call of [acquire], granted or not, leaves every bucket other than
    the one it resolves its endpoint to exactly as it was, and never changes
    the capacity or the refill rate of any bucket. *)
Theorem acquire_touches_one_bucket (E : Env) (fuel : nat) (endpoint name : string)
    (st : State) :
  let st' := snd (acquire E fuel endpoint st) in
  (name <> resolved st endpoint ->
   buckets (rate_limiter st') !! name = buckets (rate_limiter st) !! name)
  /\ (forall b, buckets (rate_limiter st) !! name = Some b ->
        exists b', buckets (rate_limiter st') !! name = Some b'
                   /\ max_tokens b' = max_tokens b /\ refill_rate b' = refill_rate b).
Proof.
  cbv zeta. unfold resolved, acquire, bind, get.
  destruct (buckets (rate_limiter st) !! endpoint) as [b0|] eqn:H1; simpl.
  { split; [apply acquire_loop_frame|apply acquire_loop_limits]. }
  destruct (buckets (rate_limiter st) !! "default") as [b1|] eqn:H2; simpl.
  { split; [apply acquire_loop_frame|apply acquire_loop_limits]. }
  split.
  - intros Hne. rewrite acquire_loop_frame by done. simpl.
    by rewrite lookup_insert_ne.
  - intros b Hb.
    assert (name <> "default") as Hne by (intros ->; congruence).
    apply acquire_loop_limits. simpl. by rewrite lookup_insert_ne.
Qed.

(** X10: an endpoint without a bucket of its own is served from the bucket
    named ["default"]: the call is the call for ["default"].  When that
    bucket does not exist yet and the clock does not run backwards, the
    first such call creates it with capacity 10 and rate 1 and is granted at
    once, which leaves 9 tokens; the time of the grant is recorded under
    ["default"], not under the endpoint. *)
Theorem unknown_endpoint_uses_default (E : Env) (fuel : nat) (endpoint : string)
    (st : State) :
  buckets (rate_limiter st) !! endpoint = None ->
  acquire E fuel endpoint st = acquire E fuel "default" st
  /\ (buckets (rate_limiter st) !! "default" = None ->
      (clock E (clock_reads (world st)) <= clock E (S (clock_reads (world st))))%Q ->
      exists st' b,
        acquire E (S fuel) endpoint st = (Ret tt, st')
        /\ buckets (rate_limiter st') !! "default" = Some b
        /\ (tokens b == 9)%Q /\ max_tokens b = 10%Q /\ refill_rate b = 1%Q
        /\ last_request_times (rate_limiter st') !! "default"
           = Some (clock E (S (clock_reads (world st))))
        /\ (endpoint <> "default" ->
            last_request_times (rate_limiter st') !! endpoint
            = last_request_times (rate_limiter st) !! endpoint)).
Proof.
  intros Hnone. split.
  { unfold acquire, bind, get. rewrite Hnone.
    by destruct (buckets (rate_limiter st) !! "default"). }
  intros Hd Hclock. unfold acquire, bind at 1, get. rewrite Hnone. simpl.
  unfold bind at 1. rewrite Hd. simpl.
  unfold acquire_iteration, bind, now, get, modify. simpl.
  rewrite lookup_insert_eq. simpl.
  set (t0 := clock E (clock_reads (world st))) in *.
  set (t1 := clock E (S (clock_reads (world st)))) in *.
  assert (Qmin 10 (10 + (t1 - t0) * 1) == 10)%Q as Hfull.
  { apply Q.min_l. lra. }
  assert (Qle_bool 1 (Qmin 10 (10 + (t1 - t0) * 1)) = true) as ->.
  { apply Qle_bool_iff. rewrite Hfull. lra. }
  simpl. eexists _, _. split; [reflexivity|]. simpl.
  rewrite !lookup_insert_eq. split; [reflexivity|]. simpl.
  split; [rewrite Hfull; lra|]. split; [reflexivity|]. split; [reflexivity|].
  split; [reflexivity|]. intros Hne. by rewrite lookup_insert_ne.
Qed.

Lemma unknown_endpoint_uses_default_witness :
  acquire (scripted []) 3 "sellers" (SPAPIClient_init (scripted []) test_config)
  = acquire (scripted []) 3 "default" (SPAPIClient_init (scripted []) test_config)
  /\ exists st' b,
       acquire (scripted []) 1 "sellers" (SPAPIClient_init (scripted []) test_config)
         = (Ret tt, st')
       /\ buckets (rate_limiter st') !! "default" = Some b
       /\ (tokens b == 9)%Q.
Proof.
  destruct (unknown_endpoint_uses_default (scripted []) 0 "sellers"
              (SPAPIClient_init (scripted []) test_config))
    as (_ & Hcreate); [vm_compute; reflexivity|].
  destruct (unknown_endpoint_uses_default (scripted []) 3 "sellers"
              (SPAPIClient_init (scripted []) test_config))
    as (Halias & _); [vm_compute; reflexivity|].
  split; [exact Halias|].
  destruct Hcreate as (st' & b & Hrun & Hb & Ht & _).
  - vm_compute. reflexivity.
  - apply scripted_clock_monotone.
  - exists st', b. by repeat split.
Defined.

(** ** Passes through the waiting loop *)

Section Passes.

Variable E : Env.

(** A pass that finds at least one token after the refill. *)
Lemma acquire_iteration_grant (endpoint : string) (st : State) (b : Bucket) :
  buckets (rate_limiter st) !! endpoint = Some b ->
  (1 <= tokens (refill (clock E (clock_reads (world st))) b))%Q ->
  exists st',
    acquire_iteration E endpoint st = (Ret true, st')
    /\ buckets (rate_limiter st')
       = <[endpoint := consume (refill (clock E (clock_reads (world st))) b)]>
           (buckets (rate_limiter st))
    /\ last_request_times (rate_limiter st')
       = <[endpoint := clock E (clock_reads (world st))]>
           (last_request_times (rate_limiter st))
    /\ buffer (rate_limiter st') = buffer (rate_limiter st)
    /\ clock_reads (world st') = S (clock_reads (world st))
    /\ slept (world st') = slept (world st).
Proof.
  intros Hb Hge. apply Qle_bool_iff in Hge.
  unfold acquire_iteration, bind, now, get, modify, sleep, ret.
  cbn [world set_world rate_limiter clock_reads]. rewrite Hb. cbv zeta. rewrite Hge.
  eexists. split; [reflexivity|]. by repeat split.
Qed.

End Passes.

(** ** More on the bearer token *)

Section Refresh.

Variable E : Env.

Lemma raise_for_status_ok (status : Z) (st : State) :
  ~ (400 <= status < 600)%Z -> raise_for_status status st = (Ret tt, st).
Proof.
  intros H. unfold raise_for_status.
  destruct ((400 <=? status) && (status <? 600))%Z eqn:Hb; [|reflexivity].
  apply andb_true_iff in Hb as [H1 H2]. apply Z.leb_le in H1. apply Z.ltb_lt in H2. lia.
Qed.

Lemma timedelta_seconds_in_range (v : PyVal) (n : Z) :
  as_int v = Some n ->
  (-999999999 <= n / 86400 <= 999999999)%Z ->
  timedelta_seconds v = Ret (inject_Z n).
Proof.
  intros Hv [H1 H2]. unfold timedelta_seconds. rewrite Hv. cbv zeta.
  apply Z.leb_le in H1. apply Z.leb_le in H2. by rewrite H1, H2.
Qed.

Lemma timedelta_seconds_overflow (v : PyVal) (n : Z) :
  as_int v = Some n ->
  ~ (-999999999 <= n / 86400 <= 999999999)%Z ->
  exists msg, timedelta_seconds v = Raise (OverflowError msg).
Proof.
  intros Hv Hout. unfold timedelta_seconds. rewrite Hv. cbv zeta.
  destruct ((-999999999 <=? n / 86400) && (n / 86400 <=? 999999999))%Z eqn:Hb.
  { apply andb_true_iff in Hb as [H1 H2].
    apply Z.leb_le in H1. apply Z.leb_le in H2. lia. }
  destruct ((- 2 ^ 31 <=? n / 86400) && (n / 86400 <? 2 ^ 31))%Z; by eexists.
Qed.

Lemma datetime_add_in_range (t delta : Q) :
  (DATETIME_MIN <= t + delta)%Q -> (t + delta < DATETIME_END)%Q ->
  datetime_add t delta = Ret (t + delta)%Q.
Proof.
  intros H1 H2. unfold datetime_add. cbv zeta.
  apply Qle_bool_iff in H1. rewrite H1.
  assert (Qle_bool DATETIME_END (t + delta) = false) as ->; [|reflexivity].
  apply not_true_is_false. intros H. apply Qle_bool_iff in H. lra.
Qed.

Lemma datetime_add_overflow (t delta : Q) :
  ~ ((DATETIME_MIN <= t + delta)%Q /\ (t + delta < DATETIME_END)%Q) ->
  datetime_add t delta = Raise (OverflowError "date value out of range").
Proof.
  intros Hout. unfold datetime_add. cbv zeta.
  destruct (Qle_bool DATETIME_MIN (t + delta)) eqn:H1; [|reflexivity].
  destruct (Qle_bool DATETIME_END (t + delta)) eqn:H2; [reflexivity|].
  destruct Hout. split; [by apply Qle_bool_iff|].
  apply Qnot_le_lt. intros H. apply Qle_bool_iff in H. congruence.
Qed.

(** A refresh on an answer that grants a token with a usable lifetime. *)
Lemma refresh_granted (st : State) (tok : PyVal) (expires : option PyVal) (n : Z) :
  grants (lwa_post E (lwa_posts (world st))) tok expires ->
  as_int (default (VInt 3600) expires) = Some n ->
  lifetime_in_range (clock E (clock_reads (world st))) n ->
  _refresh_access_token E st =
    (Ret tt,
     set_token_expires_at (clock E (clock_reads (world st)) + inject_Z n)
       (ticked (set_access_token tok (posted st)))).
Proof.
  intros (status & kv & Hreply & Hstatus & Htok & Hexp) Hn (Hdays & Hmin & Hend).
  unfold _refresh_access_token, try_except, bind at 1, requests_post.
  cbn [world]. rewrite Hreply. unfold bind at 1.
  fold (posted st). rewrite raise_for_status_ok by done.
  unfold bind, lift, modify, now, ret, subscript, get_default.
  rewrite Htok, Hexp.
  rewrite (timedelta_seconds_in_range _ n Hn Hdays).
  cbn [world set_world set_access_token set_lwa posted clock_reads].
  rewrite (datetime_add_in_range _ _ Hmin Hend). reflexivity.
Qed.

(** A refresh on an answer that grants a token with a lifetime the library
    cannot represent: [OverflowError], from [timedelta] or from the
    addition, after the token has been stored. *)
Lemma refresh_lifetime_overflow (st : State) (tok : PyVal) (expires : option PyVal)
    (n : Z) :
  grants (lwa_post E (lwa_posts (world st))) tok expires ->
  as_int (default (VInt 3600) expires) = Some n ->
  ~ lifetime_in_range (clock E (clock_reads (world st))) n ->
  exists msg,
    _refresh_access_token E st =
      (Raise (OverflowError msg), ticked (set_access_token tok (posted st))).
Proof.
  intros (status & kv & Hreply & Hstatus & Htok & Hexp) Hn Hout.
  unfold _refresh_access_token, try_except, bind at 1, requests_post.
  cbn [world]. rewrite Hreply. unfold bind at 1.
  fold (posted st). rewrite raise_for_status_ok by done.
  unfold bind, lift, modify, now, ret, subscript, get_default.
  rewrite Htok, Hexp.
  destruct (Z_le_dec (-999999999) (n / 86400)) as [H1|H1];
    [destruct (Z_le_dec (n / 86400) 999999999) as [H2|H2]|].
  - rewrite (timedelta_seconds_in_range _ n Hn (conj H1 H2)).
    cbn [world set_world set_access_token set_lwa posted clock_reads].
    rewrite datetime_add_overflow.
    + by eexists.
    + intros [Hmin Hend]. apply Hout. by repeat split.
  - destruct (timedelta_seconds_overflow _ n Hn) as [msg ->]; [lia|]. by eexists.
  - destruct (timedelta_seconds_overflow _ n Hn) as [msg ->]; [lia|]. by eexists.
Qed.

(** A refresh on an answer that grants a token with a lifetime that is not
    a number. *)
Lemma refresh_bad_lifetime (st : State) (tok v : PyVal) :
  grants (lwa_post E (lwa_posts (world st))) tok (Some v) ->
  as_int v = None ->
  _refresh_access_token E st =
    (Raise (TypeError ("unsupported type for timedelta seconds component: "
                       +:+ type_name v)),
     ticked (set_access_token tok (posted st))).
Proof.
  intros (status & kv & Hreply & Hstatus & Htok & Hexp) Hn.
  unfold _refresh_access_token, try_except, bind at 1, requests_post.
  cbn [world]. rewrite Hreply. unfold bind at 1.
  fold (posted st). rewrite raise_for_status_ok by done.
  unfold bind, lift, modify, now, ret, subscript, get_default, timedelta_seconds.
  rewrite Htok, Hexp. cbn [default from_option id]. rewrite Hn. reflexivity.
Qed.

End Refresh.

(** X12: a refresh that is answered with a token stores that token, whatever
    value it is, and asks the token endpoint once.  When the lifetime, the
    [expires_in] of the answer or 3600 seconds when the answer has no such
    field, is one the library can represent, the refresh returns and the
    expiry is the clock read after the answer plus the lifetime.  When it is
    not, the refresh raises [OverflowError], which its handlers do not
    catch, after the token has been stored: the cache holds the new token
    with the expiry of the old one. *)
Theorem refresh_stores_token_and_expiry (E : Env) (st : State) (tok : PyVal)
    (expires : option PyVal) (n : Z) :
  grants (lwa_post E (lwa_posts (world st))) tok expires ->
  as_int (default (VInt 3600) expires) = Some n ->
  let t := clock E (clock_reads (world st)) in
  (lifetime_in_range t n ->
   exists st',
     _refresh_access_token E st = (Ret tt, st')
     /\ access_token (lwa_manager st') = tok
     /\ token_expires_at (lwa_manager st') = Some (t + inject_Z n)%Q
     /\ lwa_posts (world st') = S (lwa_posts (world st)))
  /\ (~ lifetime_in_range t n ->
      exists msg st',
        _refresh_access_token E st = (Raise (OverflowError msg), st')
        /\ access_token (lwa_manager st') = tok
        /\ token_expires_at (lwa_manager st') = token_expires_at (lwa_manager st)
        /\ lwa_posts (world st') = S (lwa_posts (world st)))
  /\ (expires = None -> n = 3600%Z).
Proof.
  intros Hg Hn t. split; [|split].
  - intros Hin. eexists. split; [by eapply refresh_granted|]. simpl. by repeat split.
  - intros Hout. destruct (refresh_lifetime_overflow E st tok expires n Hg Hn Hout)
      as [msg Hrun].
    eexists _, _. split; [exact Hrun|]. simpl. by repeat split.
  - intros ->. simpl in Hn. congruence.
Qed.

Lemma refresh_stores_token_and_expiry_witness :
  (exists st',
     _refresh_access_token revoking (blank test_config) = (Ret tt, st')
     /\ access_token (lwa_manager st') = VStr "Atza|first"
     /\ token_expires_at (lwa_manager st') = Some (inject_Z 0 + inject_Z 3600)%Q)
  /\ (exists msg st',
        _refresh_access_token
          (answering [("access_token", VStr "Atza|new");
                      ("expires_in", VInt 300000000000)])
          (holding 1000) = (Raise (OverflowError msg), st')
        /\ access_token (lwa_manager st') = VStr "Atza|new"
        /\ token_expires_at (lwa_manager st') = Some 1000%Q).
Proof.
  split.
  - destruct (refresh_stores_token_and_expiry revoking (blank test_config)
                (VStr "Atza|first") None 3600) as (Hin & _).
    + exists 200%Z, [("access_token", VStr "Atza|first")]. repeat split. lia.
    + reflexivity.
    + destruct Hin as (st' & Hrun & Htok & Hexp & _).
      * split; [vm_compute; split; discriminate|].
        split; [vm_compute; discriminate|vm_compute; reflexivity].
      * exists st'. by repeat split.
  - destruct (refresh_stores_token_and_expiry
                (answering [("access_token", VStr "Atza|new");
                            ("expires_in", VInt 300000000000)])
                (holding 1000) (VStr "Atza|new") (Some (VInt 300000000000))
                300000000000) as (_ & Hout & _).
    + exists 200%Z, [("access_token", VStr "Atza|new");
                     ("expires_in", VInt 300000000000)].
      repeat split. lia.
    + reflexivity.
    + destruct Hout as (msg & st' & Hrun & Htok & Hexp & _).
      * intros (_ & _ & Hend). vm_compute in Hend. discriminate Hend.
      * exists msg, st'. by repeat split.
Defined.

(** X13: the refresh is not atomic.  When the answer grants a token but its
    [expires_in] is not a number, the refresh raises a [TypeError] (which
    its handlers do not catch) after the new token has been stored: the
    cache then holds the new token with the expiry of the old one. *)
Theorem refresh_bad_lifetime_half_done (E : Env) (st : State) (tok v : PyVal) :
  grants (lwa_post E (lwa_posts (world st))) tok (Some v) ->
  as_int v = None ->
  exists msg st',
    _refresh_access_token E st = (Raise (TypeError msg), st')
    /\ access_token (lwa_manager st') = tok
    /\ token_expires_at (lwa_manager st') = token_expires_at (lwa_manager st).
Proof.
  intros Hg Hv. eexists _, _. split; [by eapply refresh_bad_lifetime|]. by split.
Qed.

Lemma refresh_bad_lifetime_half_done_witness :
  exists msg st',
    _refresh_access_token
      (answering [("access_token", VStr "Atza|new"); ("expires_in", VStr "3600")])
      (holding 1000) = (Raise (TypeError msg), st')
    /\ access_token (lwa_manager st') = VStr "Atza|new"
    /\ token_expires_at (lwa_manager st') = Some 1000%Q.
Proof.
  apply (refresh_bad_lifetime_half_done
           (answering [("access_token", VStr "Atza|new"); ("expires_in", VStr "3600")])
           (holding 1000) (VStr "Atza|new") (VStr "3600")).
  - exists 200%Z, [("access_token", VStr "Atza|new"); ("expires_in", VStr "3600")].
    repeat split. lia.
  - reflexivity.
Defined.

(** X14: a token that is empty or null is stored all the same.  When a
    call of [get_access_token] has to refresh (it is forced, or nothing
    usable is cached) and the answer grants a value that is not truthy, the
    call raises and the cache holds that value, in place of whatever token
    was cached before; with a lifetime the library can represent, what it
    raises is "Failed to obtain access token". *)
Theorem falsy_token_replaces_cache (E : Env) (force : bool) (st : State)
    (tok : PyVal) (expires : option PyVal) (n : Z) :
  force = true \/ token_absent (lwa_manager st) ->
  grants (lwa_post E (lwa_posts (world st))) tok expires ->
  as_int (default (VInt 3600) expires) = Some n ->
  truthy tok = false ->
  exists e st',
    get_access_token E force st = (Raise e, st')
    /\ access_token (lwa_manager st') = tok
    /\ (lifetime_in_range (clock E (clock_reads (world st))) n ->
        lifetime_in_range (clock E (S (clock_reads (world st)))) n ->
        e = Exception "Failed to obtain access token").
Proof.
  intros Hcase Hg Hn Hfalsy.
  unfold get_access_token, bind at 1.
  assert (exists st0 b,
            _is_token_expired E st = (Ret b, st0) /\ b || force = true
            /\ lwa_posts (world st0) = lwa_posts (world st)
            /\ (clock_reads (world st0) = clock_reads (world st)
                \/ clock_reads (world st0) = S (clock_reads (world st))))
    as (st0 & b & -> & Hor & Hposts & Hreads).
  { destruct (token_expires_at (lwa_manager st)) as [T|] eqn:HT.
    2:{ exists st, true. split; [apply is_token_expired_absent; by right|].
        split; [done|]. split; [done|by left]. }
    destruct (truthy (access_token (lwa_manager st))) eqn:Ht.
    2:{ exists st, true. split; [apply is_token_expired_absent; by left|].
        split; [done|]. split; [done|by left]. }
    eexists _, _. split; [by apply is_token_expired_cached|].
    split; [|split; [reflexivity|by right]].
    destruct Hcase as [->|[Ha|Ha]]; [apply orb_true_r|congruence|congruence]. }
  assert (lifetime_in_range (clock E (clock_reads (world st))) n ->
          lifetime_in_range (clock E (S (clock_reads (world st)))) n ->
          lifetime_in_range (clock E (clock_reads (world st0))) n) as Hat
    by (intros Ha Hb; by destruct Hreads as [-> | ->]).
  unfold bind at 1. rewrite Hor.
  assert (grants (lwa_post E (lwa_posts (world st0))) tok expires) as Hg0
    by (by rewrite Hposts).
  destruct (Z_le_dec (-999999999) (n / 86400)) as [H1|H1];
    [destruct (Z_le_dec (n / 86400) 999999999) as [H2|H2];
     [destruct (Qlt_le_dec (clock E (clock_reads (world st0)) + inject_Z n) DATETIME_MIN)
        as [H3|H3];
      [|destruct (Qlt_le_dec (clock E (clock_reads (world st0)) + inject_Z n)
                   DATETIME_END) as [H4|H4]]|]|].
  - destruct (refresh_lifetime_overflow E st0 tok expires n Hg0 Hn) as [msg ->].
    { intros (_ & Hmin & _). lra. }
    eexists _, _. split; [reflexivity|]. split; [reflexivity|].
    intros Ha Hb. destruct (Hat Ha Hb) as (_ & Hmin & _). lra.
  - rewrite (refresh_granted E st0 tok expires n Hg0 Hn) by (by repeat split).
    unfold bind, get. cbn [lwa_manager set_token_expires_at set_lwa access_token
                            ticked set_world set_access_token posted].
    rewrite Hfalsy. simpl. eexists _, _. split; [reflexivity|]. by split.
  - destruct (refresh_lifetime_overflow E st0 tok expires n Hg0 Hn) as [msg ->].
    { intros (_ & _ & Hend). lra. }
    eexists _, _. split; [reflexivity|]. split; [reflexivity|].
    intros Ha Hb. destruct (Hat Ha Hb) as (_ & _ & Hend). lra.
  - destruct (refresh_lifetime_overflow E st0 tok expires n Hg0 Hn) as [msg ->].
    { intros (Hdays & _). lia. }
    eexists _, _. split; [reflexivity|]. split; [reflexivity|].
    intros Ha Hb. destruct (Hat Ha Hb) as (Hdays & _). lia.
  - destruct (refresh_lifetime_overflow E st0 tok expires n Hg0 Hn) as [msg ->].
    { intros (Hdays & _). lia. }
    eexists _, _. split; [reflexivity|]. split; [reflexivity|].
    intros Ha Hb. destruct (Hat Ha Hb) as (Hdays & _). lia.
Qed.

Lemma falsy_token_replaces_cache_witness :
  exists st',
    get_access_token (answering [("access_token", VStr "")]) true (holding 100000)
    = (Raise (Exception "Failed to obtain access token"), st')
    /\ access_token (lwa_manager st') = VStr "".
Proof.
  destruct (falsy_token_replaces_cache (answering [("access_token", VStr "")]) true
              (holding 100000) (VStr "") None 3600)
    as (e & st' & Hrun & Htok & He).
  - by left.
  - exists 200%Z, [("access_token", VStr "")]. repeat split. lia.
  - reflexivity.
  - reflexivity.
  - exists st'. rewrite <- He; [by split| |].
    + split; [vm_compute; split; discriminate|].
      split; [vm_compute; discriminate|vm_compute; reflexivity].
    + split; [vm_compute; split; discriminate|].
      split; [vm_compute; discriminate|vm_compute; reflexivity].
Defined.

(** X15: [validate_credentials] of the token manager really refreshes, and
    then puts the old token back without putting the old expiry back.  With
    a token cached, an answer that grants a new token with a lifetime the
    library can represent, and the new expiry beyond the margin, the
    validation reports success with the new expiry, and the cache then
    holds the old token under the new expiry: the token just granted is
    lost, and the old one, expired or not, is what [get_access_token] hands
    out from then on until the new expiry nears. *)
Theorem validation_keeps_old_token_with_new_expiry (E : Env) (isoformat : Q -> string)
    (st : State) (new : PyVal) (expires : option PyVal) (n : Z) :
  let old := access_token (lwa_manager st) in
  let t1 := clock E (clock_reads (world st)) in
  let t2 := clock E (S (clock_reads (world st))) in
  truthy old = true ->
  grants (lwa_post E (lwa_posts (world st))) new expires ->
  as_int (default (VInt 3600) expires) = Some n ->
  lifetime_in_range t1 n ->
  truthy new = true ->
  (t2 + 300 < t1 + inject_Z n)%Q ->
  exists result st',
    LWATokenManager_validate_credentials E isoformat st = (Ret result, st')
    /\ result !! "valid" = Some (VBool true)
    /\ result !! "token_expires_at" = Some (VStr (isoformat (t1 + inject_Z n)%Q))
    /\ access_token (lwa_manager st') = old
    /\ token_expires_at (lwa_manager st') = Some (t1 + inject_Z n)%Q
    /\ forall st2,
         lwa_manager st2 = lwa_manager st' ->
         (clock E (clock_reads (world st2)) + 300 < t1 + inject_Z n)%Q ->
         get_access_token E false st2 = (Ret old, ticked st2).
Proof.
  intros old t1 t2 Hold Hg Hn Hrange Hnew Hlt.
  unfold LWATokenManager_validate_credentials, try_except, bind at 1, get.
  unfold bind at 1. rewrite (refresh_granted E st new expires n Hg Hn Hrange).
  unfold bind at 1, get. unfold bind at 1. fold old. rewrite Hold.
  unfold bind at 1.
  rewrite (is_token_expired_cached E _ (t1 + inject_Z n)%Q); [|exact Hnew|reflexivity].
  match goal with
  | |- context [Qle_bool _ (?c + 300)%Q] => change c with t2
  end.
  assert (Qle_bool (t1 + inject_Z n)%Q (t2 + 300)%Q = false) as ->.
  { apply not_true_is_false. intros H. apply Qle_bool_iff in H. lra. }
  cbn [negb]. unfold modify, ret.
  eexists _, _. split; [reflexivity|].
  split; [apply lookup_insert_eq|].
  split.
  { do 2 (rewrite lookup_insert_ne by done). apply lookup_insert_eq. }
  split; [reflexivity|]. split; [reflexivity|].
  intros st2 Hsame Hlater.
  rewrite (get_access_token_cached E st2 (t1 + inject_Z n)%Q); rewrite ?Hsame; try done.
Qed.

Lemma validation_keeps_old_token_with_new_expiry_witness :
  exists result st',
    LWATokenManager_validate_credentials
      (answering [("access_token", VStr "Atza|new")]) (fun _ => "2024-01-01T01:00:00")
      (holding 10) = (Ret result, st')
    /\ result !! "valid" = Some (VBool true)
    /\ access_token (lwa_manager st') = VStr "Atza|old"
    /\ token_expires_at (lwa_manager st') = Some (inject_Z 0 + inject_Z 3600)%Q.
Proof.
  destruct (validation_keeps_old_token_with_new_expiry
              (answering [("access_token", VStr "Atza|new")])
              (fun _ => "2024-01-01T01:00:00") (holding 10) (VStr "Atza|new") None 3600)
    as (result & st' & Hrun & Hvalid & _ & Htok & Hexp & _).
  - reflexivity.
  - exists 200%Z, [("access_token", VStr "Atza|new")]. repeat split. lia.
  - reflexivity.
  - split; [vm_compute; split; discriminate|].
    split; [vm_compute; discriminate|vm_compute; reflexivity].
  - reflexivity.
  - reflexivity.
  - exists result, st'. by repeat split.
Defined.

Section Validation.

Variable E : Env.
Variable isoformat : Q -> string.

Lemma refresh_fails_raises (st : State) :
  refresh_fails (lwa_post E (lwa_posts (world st))) ->
  exists msg, _refresh_access_token E st = (Raise (Exception msg), posted st).
Proof.
  intros Hf.
  unfold _refresh_access_token, try_except, bind, requests_post, raise_for_status.
  simpl. inversion Hf as [m Hm | status json Hs Hm | status kv Hk Hm]; simpl.
  - by eexists.
  - assert (((400 <=? status) && (status <? 600))%Z = true) as ->
      by (apply andb_true_iff; split; [apply Z.leb_le|apply Z.ltb_lt]; lia).
    simpl. by eexists.
  - destruct ((400 <=? status) && (status <? 600))%Z; simpl.
    + by eexists.
    + unfold lift. rewrite Hk. simpl. by eexists.
Qed.

Lemma subscript_not_pending (v : PyVal) (k : string) : subscript v k <> Pending.
Proof. unfold subscript. by repeat case_match. Qed.

Lemma timedelta_seconds_not_pending (v : PyVal) : timedelta_seconds v <> Pending.
Proof. unfold timedelta_seconds. by repeat case_match. Qed.

Lemma datetime_add_not_pending (t delta : Q) : datetime_add t delta <> Pending.
Proof. unfold datetime_add. cbv zeta. by case_match. Qed.

Lemma refresh_not_pending (st : State) :
  fst (_refresh_access_token E st) <> Pending.
Proof.
  unfold _refresh_access_token, try_except, bind, requests_post, raise_for_status,
    raise, ret, lift, modify, now.
  simpl. repeat case_match; simplify_eq; simpl; try done;
    repeat match goal with
           | H : subscript _ _ = Pending |- _ => by destruct (subscript_not_pending _ _ H)
           | H : timedelta_seconds _ = Pending |- _ =>
               by destruct (timedelta_seconds_not_pending _ H)
           | H : datetime_add _ _ = Pending |- _ =>
               by destruct (datetime_add_not_pending _ _ H)
           end.
Qed.

Lemma is_token_expired_returns (st : State) :
  exists b st',
    _is_token_expired E st = (Ret b, st')
    /\ lwa_posts (world st') = lwa_posts (world st)
    /\ lwa_manager st' = lwa_manager st.
Proof.
  unfold _is_token_expired, bind, get, now, ret.
  repeat case_match; simplify_eq; eexists _, _; (split; [reflexivity|]); by split.
Qed.

(** The part of the validation that follows a refresh that returned. *)
Lemma validation_after_refresh (old : PyVal) (result : gmap string PyVal) (st : State) :
  exists st',
    ((if truthy old then
        expired <- _is_token_expired E ;;
        if negb expired then modify (set_access_token old) else ret tt
      else ret tt) ;;
     ret result) st = (Ret result, st')
    /\ lwa_posts (world st') = lwa_posts (world st).
Proof.
  unfold bind at 1. destruct (truthy old).
  - unfold bind at 1.
    destruct (is_token_expired_returns st) as (b & st1 & -> & Hposts & _).
    destruct b; simpl; eexists; (split; [reflexivity|]); exact Hposts.
  - eexists. split; reflexivity.
Qed.

End Validation.

(** X16: [validate_credentials] of the token manager never raises: whatever
    the token endpoint does, it returns a dictionary with a boolean under
    ["valid"], having asked the endpoint once.  When the exchange fails (no
    answer, an HTTP error status, or no token in the answer) the result is
    not valid, carries the error text, and the cache is as it was. *)
Theorem validation_never_raises (E : Env) (isoformat : Q -> string) (st : State) :
  exists result st' (b : bool),
    LWATokenManager_validate_credentials E isoformat st = (Ret result, st')
    /\ result !! "valid" = Some (VBool b)
    /\ lwa_posts (world st') = S (lwa_posts (world st))
    /\ (refresh_fails (lwa_post E (lwa_posts (world st))) ->
        b = false /\ is_Some (result !! "error")
        /\ lwa_manager st' = lwa_manager st).
Proof.
  unfold LWATokenManager_validate_credentials, try_except, bind at 1, get.
  unfold bind at 1.
  pose proof (refresh_posts_once E st) as Hposts.
  pose proof (refresh_not_pending E st) as Hnp.
  destruct (_refresh_access_token E st) as [[[]|e|] st1] eqn:Hr;
    simpl in Hposts, Hnp; [| |done].
  - unfold bind at 1, get.
    match goal with
    | |- context [bind ?m (fun _ => ret ?res) st1] =>
        destruct (validation_after_refresh E (access_token (lwa_manager st)) res st1)
          as (st2 & -> & Hp2)
    end.
    eexists _, _, true. split; [reflexivity|].
    split; [apply lookup_insert_eq|]. split; [congruence|].
    intros Hf. destruct (refresh_fails_raises E st Hf) as [msg Hraise]. congruence.
  - eexists _, _, false. split; [reflexivity|].
    split; [apply lookup_insert_eq|]. split; [exact Hposts|].
    intros Hf. destruct (refresh_fails_raises E st Hf) as [msg Hraise].
    rewrite Hraise in Hr. injection Hr as <- <-.
    split; [reflexivity|]. split; [|reflexivity].
    rewrite lookup_insert_ne by done. rewrite lookup_insert_eq. eauto.
Qed.

Lemma validation_never_raises_witness :
  exists result st',
    LWATokenManager_validate_credentials revoking (fun _ => "")
      (snd (_refresh_access_token revoking (blank test_config))) = (Ret result, st')
    /\ result !! "valid" = Some (VBool false)
    /\ access_token (lwa_manager st') = VStr "Atza|first".
Proof.
  destruct (validation_never_raises revoking (fun _ => "")
              (snd (_refresh_access_token revoking (blank test_config))))
    as (result & st' & b & Hrun & Hvalid & _ & Hfail).
  destruct Hfail as (-> & _ & Hsame).
  { apply (fails_no_token 200 [("error", VStr "invalid_grant")]). reflexivity. }
  exists result, st'. split; [exact Hrun|]. split; [exact Hvalid|].
  rewrite Hsame. reflexivity.
Defined.

(** X17: [get_client_credentials_token] asks the token endpoint once and
    never touches the cached token.  It returns the ["access_token"] of a
    2xx answer as it is; it wraps an unreachable endpoint or an HTTP error
    status in "Client credentials token failed"; but, unlike the refresh, it
    has no handler for an answer without the field: the [KeyError] leaves it
    as it is, where the refresh raises "Invalid LWA token response". *)
Theorem client_credentials_token_outcomes (E : Env) (scope : string) (st : State) :
  let reply := lwa_post E (lwa_posts (world st)) in
  let run := get_client_credentials_token E scope st in
  snd run = posted st
  /\ (forall tok expires, grants reply tok expires -> fst run = Ret tok)
  /\ (forall status kv,
        reply = LwaResponse status (Some (VDict kv)) ->
        ~ (400 <= status < 600)%Z ->
        assoc kv "access_token" = None ->
        fst run = Raise (KeyError "access_token")
        /\ fst (_refresh_access_token E st)
           = Raise (Exception "Invalid LWA token response: 'access_token'"))
  /\ ((exists m, reply = LwaUnreachable m)
      \/ (exists status json, reply = LwaResponse status json /\ (400 <= status < 600)%Z) ->
      exists msg,
        fst run = Raise (Exception ("Client credentials token failed: " +:+ msg))).
Proof.
  intros reply run. subst reply run. split; [|split; [|split]].
  - unfold get_client_credentials_token, try_except, bind, requests_post,
      raise_for_status, raise, ret, lift, subscript.
    cbn [world]. fold (posted st).
    repeat case_match; simplify_eq; reflexivity.
  - intros tok expires (status & kv & Hreply & Hstatus & Htok & _).
    unfold get_client_credentials_token, try_except, bind at 1, requests_post.
    cbn [world]. rewrite Hreply. unfold bind at 1. fold (posted st).
    rewrite raise_for_status_ok by done. unfold lift, subscript. by rewrite Htok.
  - intros status kv Hreply Hstatus Hnone. split.
    + unfold get_client_credentials_token, try_except, bind at 1, requests_post.
      cbn [world]. rewrite Hreply. unfold bind at 1. fold (posted st).
      rewrite raise_for_status_ok by done. unfold lift, subscript. by rewrite Hnone.
    + unfold _refresh_access_token, try_except, bind at 1, requests_post.
      cbn [world]. rewrite Hreply. unfold bind at 1. fold (posted st).
      rewrite raise_for_status_ok by done.
      unfold bind at 1, lift, subscript. by rewrite Hnone.
  - intros [[m Hreply]|(status & json & Hreply & Hstatus)];
      unfold get_client_credentials_token, try_except, bind at 1, requests_post;
      cbn [world]; rewrite Hreply.
    + by eexists.
    + unfold bind, raise_for_status.
      assert (((400 <=? status) && (status <? 600))%Z = true) as ->
        by (apply andb_true_iff; split; [apply Z.leb_le|apply Z.ltb_lt]; lia).
      by eexists.
Qed.

Lemma client_credentials_token_outcomes_witness :
  fst (get_client_credentials_token (answering [("error", VStr "invalid_scope")])
         "sellingpartnerapi::notifications" (holding 100))
    = Raise (KeyError "access_token")
  /\ lwa_manager (snd (get_client_credentials_token
                         (answering [("error", VStr "invalid_scope")])
                         "sellingpartnerapi::notifications" (holding 100)))
     = lwa_manager (holding 100).
Proof.
  destruct (client_credentials_token_outcomes
              (answering [("error", VStr "invalid_scope")])
              "sellingpartnerapi::notifications" (holding 100))
    as (Hst & _ & Hkey & _).
  split.
  - apply (Hkey 200%Z [("error", VStr "invalid_scope")]); [reflexivity|lia|reflexivity].
  - cbv zeta in Hst. rewrite Hst. reflexivity.
Defined.

(** ** Signing credentials *)

(** X18: signing credentials are obtained once.  A call of
    [get_credentials] that returns leaves its result cached, and from any
    state with that cache every further call returns the same credentials
    at once: no call of STS, no look at the clock, no expiry. *)
Theorem credentials_cached (E : Env) (st st' : State) (c : Credentials) :
  get_credentials E st = (Ret c, st') ->
  aws_credentials st' = Some c
  /\ forall st2, aws_credentials st2 = Some c -> get_credentials E st2 = (Ret c, st2).
Proof.
  intros Hrun. split.
  - revert Hrun. unfold get_credentials, try_except, bind, assume_role, raise, ret,
      modify, get. simpl.
    repeat case_match; simplify_eq; intros [= <- <-]; simpl; congruence.
  - intros st2 Hc. unfold get_credentials, bind, get. by rewrite Hc.
Qed.

Lemma credentials_cached_witness :
  exists c st',
    get_credentials (scripted []) (blank test_config) = (Ret c, st')
    /\ sts_calls (world st') = 1%nat
    /\ get_credentials (scripted []) st' = (Ret c, st').
Proof.
  eexists _, _. split; [reflexivity|]. split; [reflexivity|].
  eapply (credentials_cached (scripted []) (blank test_config)); reflexivity.
Defined.

(** X19: a failure is not cached, and the cache can be cleared.  With a
    role configured and nothing cached, a refusal of STS is raised as "AWS
    credentials error" and leaves the cache empty, so that the next call
    asks STS again; and after [refresh_credentials], whatever was cached,
    the next call asks STS and caches what it answers now. *)
Theorem credentials_failure_and_reset (E : Env) (st : State) :
  aws_role_arn (config st) <> "" ->
  (forall m,
      aws_credentials st = None ->
      sts_assume_role E (sts_calls (world st)) = StsFailure m ->
      get_credentials E st
        = (Raise (Exception ("AWS credentials error: " +:+ m)), assumed st)
      /\ aws_credentials (assumed st) = None)
  /\ (forall key secret session,
        sts_assume_role E (sts_calls (world st)) = StsCredentials key secret session ->
        let c := {| access_key := key; secret_key := secret; token := Some session |} in
        exists st',
          (refresh_credentials ;; get_credentials E) st = (Ret c, st')
          /\ aws_credentials st' = Some c
          /\ sts_calls (world st') = S (sts_calls (world st))).
Proof.
  intros Hrole.
  assert (negb (String.eqb (aws_role_arn (config st)) "") = true) as Hneg.
  { apply negb_true_iff. by apply String.eqb_neq. }
  split.
  - intros m Hnone Hreply.
    unfold get_credentials, try_except, bind at 1, get. rewrite Hnone.
    rewrite Hneg. unfold bind, assume_role. cbn [world]. rewrite Hreply.
    split; [reflexivity|exact Hnone].
  - intros key secret session Hreply c.
    unfold refresh_credentials, bind at 1, modify.
    unfold get_credentials, try_except, bind at 1, get.
    cbn [aws_credentials set_credentials config]. rewrite Hneg.
    unfold bind, assume_role, modify, ret. cbn [world set_credentials]. rewrite Hreply.
    eexists. split; [reflexivity|]. split; reflexivity.
Qed.

Lemma credentials_failure_and_reset_witness :
  (exists st1,
     get_credentials sts_refusing (blank test_config)
       = (Raise (Exception "AWS credentials error: AccessDenied"), st1)
     /\ aws_credentials st1 = None)
  /\ exists c st2,
       (refresh_credentials ;; get_credentials sts_refusing)
         (assumed (blank test_config)) = (Ret c, st2)
       /\ access_key c = "ASIAKEY".
Proof.
  split.
  - destruct (credentials_failure_and_reset sts_refusing (blank test_config))
      as (Hfail & _); [done|].
    destruct (Hfail "AccessDenied" eq_refl eq_refl) as (Hrun & Hnone).
    eexists. split; [exact Hrun|exact Hnone].
  - destruct (credentials_failure_and_reset sts_refusing (assumed (blank test_config)))
      as (_ & Hreset); [done|].
    destruct (Hreset "ASIAKEY" "secret" "session" eq_refl) as (st' & Hrun & _).
    eexists _, st'. split; [exact Hrun|reflexivity].
Defined.

(** ** The stages of the pipeline *)

Section Stages.

Variable L : Lib.
Variable E : Env.

Lemma limiter_only_refl (st : State) : limiter_only st st.
Proof. by repeat split. Qed.

Lemma limiter_only_trans (st1 st2 st3 : State) :
  limiter_only st1 st2 -> limiter_only st2 st3 -> limiter_only st1 st3.
Proof.
  intros (A1 & A2 & A3 & A4 & A5 & A6 & A7) (B1 & B2 & B3 & B4 & B5 & B6 & B7).
  repeat split; congruence.
Qed.

Lemma acquire_iteration_limiter_only (endpoint : string) (st : State) :
  limiter_only st (snd (acquire_iteration E endpoint st)).
Proof.
  unfold acquire_iteration, bind, now, get, modify, sleep, raise, ret. simpl.
  repeat case_match; by repeat split.
Qed.

Lemma acquire_loop_limiter_only (fuel : nat) (endpoint : string) (st : State) :
  limiter_only st (snd (acquire_loop E fuel endpoint st)).
Proof.
  revert st. induction fuel as [|fuel IH]; intros st; [apply limiter_only_refl|].
  simpl. unfold bind.
  pose proof (acquire_iteration_limiter_only endpoint st) as Hstep.
  destruct (acquire_iteration E endpoint st) as [[[|]| |] st1]; simpl in *;
    try exact Hstep.
  eapply limiter_only_trans; [exact Hstep|apply IH].
Qed.

Lemma acquire_limiter_only (fuel : nat) (endpoint : string) (st : State) :
  limiter_only st (snd (acquire E fuel endpoint st)).
Proof.
  unfold acquire, bind, get.
  destruct (buckets (rate_limiter st) !! endpoint); simpl;
    [apply acquire_loop_limiter_only|].
  destruct (buckets (rate_limiter st) !! "default"); simpl;
    [apply acquire_loop_limiter_only|].
  eapply limiter_only_trans; [|apply acquire_loop_limiter_only]. by repeat split.
Qed.

Lemma refresh_token_only (st : State) :
  token_only st (snd (_refresh_access_token E st)).
Proof.
  unfold _refresh_access_token, try_except, bind, requests_post, raise_for_status,
    raise, ret, lift, modify, now.
  simpl. repeat case_match; simplify_eq; by repeat split.
Qed.

Lemma is_token_expired_token_only (st : State) :
  token_only st (snd (_is_token_expired E st)).
Proof.
  unfold _is_token_expired, bind, get, now, ret.
  repeat case_match; simplify_eq; by repeat split.
Qed.

Lemma token_only_trans (st1 st2 st3 : State) :
  token_only st1 st2 -> token_only st2 st3 -> token_only st1 st3.
Proof.
  intros (A1 & A2 & A3 & A4 & A5 & A6 & A7) (B1 & B2 & B3 & B4 & B5 & B6 & B7).
  repeat split; congruence.
Qed.

Lemma get_access_token_token_only (force : bool) (st : State) :
  token_only st (snd (get_access_token E force st)).
Proof.
  unfold get_access_token. unfold bind at 1.
  pose proof (is_token_expired_token_only st) as H1.
  destruct (_is_token_expired E st) as [[expired| |] st0]; simpl in H1;
    [|exact H1|exact H1].
  unfold bind at 1.
  assert (token_only st0
            (snd ((if expired || force then _refresh_access_token E else ret tt) st0)))
    as H2.
  { destruct (expired || force); [apply refresh_token_only|by repeat split]. }
  destruct ((if expired || force then _refresh_access_token E else ret tt) st0)
    as [[[]| |] st1]; simpl in H2;
    [|by eapply token_only_trans|by eapply token_only_trans].
  unfold bind, get. destruct (negb _); simpl; by eapply token_only_trans.
Qed.

Lemma get_credentials_signer_only (st : State) :
  signer_only st (snd (get_credentials E st)).
Proof.
  unfold get_credentials, try_except, bind, assume_role, raise, ret, modify, get.
  simpl. repeat case_match; simplify_eq; by repeat split.
Qed.

Lemma create_signed_request_signer_only (verb address : string)
    (h : option (gmap string PyVal)) (data : option string) (st : State) :
  signer_only st (snd (create_signed_request L E verb address h data st)).
Proof.
  unfold create_signed_request, sign_request. unfold bind at 1.
  pose proof (get_credentials_signer_only st) as H1.
  destruct (get_credentials E st) as [[c| |] st1]; simpl in H1; [|exact H1|exact H1].
  unfold bind, get, now, ret. simpl.
  destruct H1 as (A1 & A2 & A3 & A4 & A5 & A6 & A7). by repeat split.
Qed.

End Stages.

Section Request.

Variable L : Lib.
Variable E : Env.

Lemma token_only_refl (st : State) : token_only st st.
Proof. by repeat split. Qed.

Lemma signer_only_refl (st : State) : signer_only st st.
Proof. by repeat split. Qed.

(** [build_request] is the three stages one after the other: the limiter,
    then the bearer token (skipped in restricted-token mode), then the
    signer; a stage that fails ends the call in the state it has reached. *)
Lemma build_request_stages (fuel : nat) (verb endpoint path : string)
    (params : list (string * PyVal)) (data : PyVal)
    (extra : option (gmap string PyVal)) (use_rdt : bool) (rdt_token : PyVal)
    (st : State) :
  exists st2,
    token_only (snd (acquire E fuel endpoint st)) st2
    /\ (use_rdt && truthy rdt_token = true -> st2 = snd (acquire E fuel endpoint st))
    /\ signer_only st2
         (snd (build_request L E fuel verb endpoint path params data extra use_rdt
                 rdt_token st)).
Proof.
  unfold build_request. unfold bind at 1.
  destruct (acquire E fuel endpoint st) as [[[]| |] st1]; simpl;
    [|exists st1; split; [apply token_only_refl|split; [done|apply signer_only_refl]]
     |exists st1; split; [apply token_only_refl|split; [done|apply signer_only_refl]]].
  unfold bind at 1. unfold get at 1. unfold bind at 1.
  assert (forall h st2,
            signer_only st2
              (snd ((aws_request <- create_signed_request L E (str_upper L verb)
                                      (urljoin L (base_url (config st1)) path) (Some h)
                                      (request_data_of L data) ;;
                     ret (add_query L params aws_request)) st2))) as Htail.
  { intros h st2. unfold bind.
    pose proof (create_signed_request_signer_only L E (str_upper L verb)
                  (urljoin L (base_url (config st1)) path) (Some h)
                  (request_data_of L data) st2) as Hs.
    by destruct (create_signed_request L E _ _ _ _ st2) as [[r| |] st3]. }
  destruct (use_rdt && truthy rdt_token).
  - exists st1. split; [apply token_only_refl|]. split; [done|]. apply Htail.
  - unfold bind at 1.
    pose proof (get_access_token_token_only E false st1) as Ht.
    destruct (get_access_token E false st1) as [[tok| |] st2]; simpl in Ht.
    + exists st2. split; [exact Ht|]. split; [done|]. apply Htail.
    + exists st2. split; [exact Ht|]. split; [done|]. apply signer_only_refl.
    + exists st2. split; [exact Ht|]. split; [done|]. apply signer_only_refl.
Qed.

(** Building the request never sends anything, and keeps the configuration
    and the number of retries. *)
Lemma build_request_never_sends (fuel : nat) (verb endpoint path : string)
    (params : list (string * PyVal)) (data : PyVal)
    (extra : option (gmap string PyVal)) (use_rdt : bool) (rdt_token : PyVal)
    (st : State) :
  let st' := snd (build_request L E fuel verb endpoint path params data extra use_rdt
                    rdt_token st) in
  http_calls (world st') = http_calls (world st)
  /\ max_retries st' = max_retries st
  /\ config st' = config st
  /\ rate_limiter st' = rate_limiter (snd (acquire E fuel endpoint st)).
Proof.
  cbv zeta.
  destruct (build_request_stages fuel verb endpoint path params data extra use_rdt
              rdt_token st) as (st2 & Ht & _ & Hs).
  pose proof (acquire_limiter_only E fuel endpoint st) as Ha.
  destruct Ha as (A1 & A2 & A3 & A4 & A5 & A6 & A7).
  destruct Ht as (B1 & B2 & B3 & B4 & B5 & B6 & B7).
  destruct Hs as (C1 & C2 & C3 & C4 & C5 & C6 & C7).
  repeat split; congruence.
Qed.


(** The request with the credential header that is handed to the signer. *)
Lemma build_request_credential (fuel : nat) (verb endpoint path : string)
    (params : list (string * PyVal)) (data : PyVal)
    (extra : option (gmap string PyVal)) (use_rdt : bool) (rdt_token : PyVal)
    (st st' : State) (r : AWSRequest) :
  build_request L E fuel verb endpoint path params data extra use_rdt rdt_token st
    = (Ret r, st') ->
  exists (credentials : Credentials) (t : Q),
    let credential :=
      if use_rdt && truthy rdt_token then rdt_token else access_token (lwa_manager st') in
    let h := <["x-amz-access-token" := credential]> (default_headers extra) in
    let unsigned := {| method := str_upper L verb;
                       url := urljoin L (base_url (config st)) path;
                       headers := h;
                       body := request_data_of L data |} in
    r = add_query L params
          {| method := str_upper L verb;
             url := urljoin L (base_url (config st)) path;
             headers :=
               sigv4_headers L credentials "execute-api" (aws_region (config st)) t
                 unsigned ∪ h;
             body := request_data_of L data |}.
Proof.
  unfold build_request. unfold bind at 1.
  pose proof (acquire_config E fuel endpoint st) as Hc1.
  destruct (acquire E fuel endpoint st) as [[[]| |] st1]; [|done|done].
  simpl in Hc1. unfold bind at 1. unfold get at 1.
  fold (default_headers extra).
  assert (forall credential st2,
            config st2 = config st1 ->
            (aws_request <- create_signed_request L E (str_upper L verb)
                              (urljoin L (base_url (config st1)) path)
                              (Some (<["x-amz-access-token" := credential]>
                                       (default_headers extra)))
                              (request_data_of L data) ;;
             ret (add_query L params aws_request)) st2 = (Ret r, st') ->
            lwa_manager st' = lwa_manager st2
            /\ exists (credentials : Credentials) (t : Q),
              r = add_query L params
                    {| method := str_upper L verb;
                       url := urljoin L (base_url (config st)) path;
                       headers :=
                         sigv4_headers L credentials "execute-api"
                           (aws_region (config st)) t
                           {| method := str_upper L verb;
                              url := urljoin L (base_url (config st)) path;
                              headers :=
                                <["x-amz-access-token" := credential]>
                                  (default_headers extra);
                              body := request_data_of L data |}
                         ∪ <["x-amz-access-token" := credential]>
                             (default_headers extra);
                       body := request_data_of L data |}) as Htail.
  { intros credential st2 Hc2. unfold bind at 1.
    pose proof (create_signed_request_signer_only L E (str_upper L verb)
                  (urljoin L (base_url (config st1)) path)
                  (Some (<["x-amz-access-token" := credential]> (default_headers extra)))
                  (request_data_of L data) st2) as Hframe.
    destruct (create_signed_request L E _ _ _ _ st2) as [[r0| |] st3] eqn:Hs;
      [|done|done].
    apply create_signed_request_run in Hs as (_ & credentials & t & ->).
    unfold ret. intros [= <- <-]. split; [apply Hframe|].
    exists credentials, t. by rewrite Hc2, Hc1. }
  unfold bind at 1.
  destruct (use_rdt && truthy rdt_token).
  - unfold ret at 1. intros Hrun. by apply Htail in Hrun as (_ & Hrun).
  - unfold bind at 1.
    pose proof (get_access_token_config E false st1) as Hc2.
    destruct (get_access_token E false st1) as [[tok| |] st2] eqn:Htok; [|done|done].
    unfold ret at 1. intros Hrun. apply Htail in Hrun as (Hm & Hrun); [|exact Hc2].
    assert (tok = access_token (lwa_manager st2)) as ->; [|by rewrite Hm].
    revert Htok. unfold get_access_token, bind, get, raise, ret.
    repeat case_match; by intros [= <- <-].
Qed.

End Request.

Section Calls.

Variable L : Lib.
Variable E : Env.

(** The retry loop around [_execute_request] changes the world only. *)
Lemma execute_with_retry_components (r : AWSRequest) (st : State) :
  same_components st (snd (execute_with_retry E (_execute_request L E r) st)).
Proof.
  unfold execute_with_retry, bind, get.
  destruct (Z_lt_le_dec (max_retries st) 0) as [Hneg|Hpos].
  - replace (Z.to_nat (max_retries st + 1)) with 0%nat by lia. apply same_components_refl.
  - destruct (retry_loop_bounds L E r (Z.to_nat (max_retries st + 1)) 0 st)
      as (k & new & _ & _ & _ & _ & _ & Hsame); [lia|]. exact Hsame.
Qed.

(** [request] is [build_request] followed by the retry loop on what it
    built; when nothing was built the call ends there. *)
Lemma request_run (fuel : nat) (verb endpoint path : string)
    (params : list (string * PyVal)) (data : PyVal)
    (extra : option (gmap string PyVal)) (use_rdt : bool) (rdt_token : PyVal)
    (st : State) :
  request L E fuel verb endpoint path params data extra use_rdt rdt_token st =
    match build_request L E fuel verb endpoint path params data extra use_rdt rdt_token st
    with
    | (Ret r, st') => execute_with_retry E (_execute_request L E r) st'
    | (Raise e, st') => (Raise e, st')
    | (Pending, st') => (Pending, st')
    end.
Proof.
  unfold request, bind.
  by destruct (build_request L E fuel verb endpoint path params data extra use_rdt
                 rdt_token st) as [[r| |] st'].
Qed.

Lemma string_app_empty (s : string) : s +:+ "" = s.
Proof.
  induction s as [|a s IH]; [done|].
  change (String a (s +:+ "") = String a s). by rewrite IH.
Qed.

Lemma query_items_all_none (params : list (string * PyVal)) :
  Forall (fun kv => snd kv = VNone) params -> query_items L params = [].
Proof.
  induction 1 as [|[k v] params Hv _ IH]; [done|].
  simpl in Hv. subst v.
  change ((k, VNone) :: params) with (([] : list (string * PyVal)) ++ (k, VNone) :: params)%list.
  rewrite query_items_skip_none. exact IH.
Qed.

End Calls.





(** X22: parameters that are all [None] leave a bare question mark.  The
    query is appended whenever the parameters are not empty, and the values
    that are [None] are skipped only afterwards: with at least one
    parameter and no value, the URL that is sent is the URL that was signed
    followed by ["?"]. *)
Theorem all_none_params_leave_question_mark (L : Lib) (E : Env) (fuel : nat)
    (verb endpoint path : string) (params : list (string * PyVal)) (data : PyVal)
    (extra : option (gmap string PyVal)) (use_rdt : bool) (rdt_token : PyVal)
    (st st' : State) (r : AWSRequest) :
  params <> [] ->
  Forall (fun kv => snd kv = VNone) params ->
  build_request L E fuel verb endpoint path params data extra use_rdt rdt_token st
    = (Ret r, st') ->
  url r = urljoin L (base_url (config st)) path +:+ "?".
Proof.
  intros Hne Hnone Hb.
  apply build_request_credential in Hb as (credentials & t & ->). cbv zeta.
  destruct params as [|p params]; [done|].
  unfold add_query. cbn [url].
  rewrite (query_items_all_none L _ Hnone). reflexivity.
Qed.

Lemma all_none_params_leave_question_mark_witness :
  exists r st',
    build_request mock_lib (scripted []) 2 "GET" "orders" "/orders/v0/orders"
      [("NextToken", VNone)] VNone None false VNone
      (SPAPIClient_init (scripted []) test_config) = (Ret r, st')
    /\ url r = "https://sellingpartnerapi-eu.amazon.com/orders/v0/orders?".
Proof.
  pose (run := build_request mock_lib (scripted []) 2 "GET" "orders" "/orders/v0/orders"
                 [("NextToken", VNone)] VNone None false VNone
                 (SPAPIClient_init (scripted []) test_config)).
  assert (exists r, fst run = Ret r) as [r Hr].
  { eexists. vm_compute. reflexivity. }
  assert (run = (Ret r, snd run)) as Hrun.
  { rewrite <- Hr. by destruct run. }
  exists r, (snd run). split; [exact Hrun|].
  rewrite (all_none_params_leave_question_mark mock_lib (scripted []) 2 "GET" "orders"
             "/orders/v0/orders" [("NextToken", VNone)] VNone None false VNone
             (SPAPIClient_init (scripted []) test_config) (snd run) r);
    [vm_compute; reflexivity|done|by repeat constructor|exact Hrun].
Defined.

(** X23: a call sends nothing before the request is built, and at most
    [max_retries + 1] times afterwards.  When the limiter, the token manager
    or the signer raises, [request] raises that same error and no HTTP
    request has been made; when the request is built, between one and
    [max_retries + 1] HTTP requests are made. *)
Theorem request_http_calls (L : Lib) (E : Env) (fuel : nat)
    (verb endpoint path : string) (params : list (string * PyVal)) (data : PyVal)
    (extra : option (gmap string PyVal)) (use_rdt : bool) (rdt_token : PyVal)
    (st : State) :
  (0 <= max_retries st)%Z ->
  let built :=
    build_request L E fuel verb endpoint path params data extra use_rdt rdt_token st in
  let run := request L E fuel verb endpoint path params data extra use_rdt rdt_token st in
  (forall e, fst built = Raise e ->
             run = (Raise e, snd built)
             /\ http_calls (world (snd run)) = http_calls (world st))
  /\ (forall r, fst built = Ret r ->
        exists attempts : nat,
          (1 <= attempts)%nat /\ (Z.of_nat attempts <= max_retries st + 1)%Z
          /\ http_calls (world (snd run)) = (http_calls (world st) + attempts)%nat).
Proof.
  intros Hmax built run. subst built run.
  pose proof (build_request_never_sends L E fuel verb endpoint path params data extra
                use_rdt rdt_token st) as (Hcalls & Hretries & _ & _).
  cbv zeta in Hcalls, Hretries.
  rewrite request_run.
  destruct (build_request L E fuel verb endpoint path params data extra use_rdt
              rdt_token st) as [[r| |] st1]; simpl in *.
  - split; [intros e [=]|]. intros r0 [= <-].
    destruct (retry_loop_bounds L E r (Z.to_nat (max_retries st1 + 1)) 0 st1)
      as (k & new & Hk & Hlen & Hsent & _); [lia|].
    cbv zeta in Hsent.
    assert (k = S (length new)) as Hk' by (apply Hlen; lia).
    exists k. unfold execute_with_retry, bind, get.
    split; [lia|]. split; [lia|]. rewrite Hsent. lia.
  - split; [|intros r [=]]. intros e0 [= <-]. by split.
  - split; [intros e [=]|intros r [=]].
Qed.

Lemma request_http_calls_witness :
  fst (request mock_lib sts_refusing 2 "GET" "orders" "/orders/v0/orders" [] VNone None
         false VNone (SPAPIClient_init sts_refusing test_config))
    = Raise (Exception "AWS credentials error: AccessDenied")
  /\ http_calls
       (world (snd (request mock_lib sts_refusing 2 "GET" "orders" "/orders/v0/orders" []
                      VNone None false VNone (SPAPIClient_init sts_refusing test_config))))
     = 0%nat.
Proof.
  destruct (request_http_calls mock_lib sts_refusing 2 "GET" "orders" "/orders/v0/orders"
              [] VNone None false VNone (SPAPIClient_init sts_refusing test_config))
    as (Hfail & _); [vm_compute; discriminate|].
  cbv zeta in Hfail.
  destruct (Hfail (Exception "AWS credentials error: AccessDenied")) as (Hrun & Hcalls).
  { vm_compute. reflexivity. }
  split; [by rewrite Hrun|]. rewrite Hcalls. reflexivity.
Defined.

(** X24: the limiter is asked once per call, not once per attempt.  Whatever
    the call does after [acquire], fail before sending or send up to
    [max_retries + 1] times, the buckets and the times of the last requests
    are those [acquire] left: a retried attempt takes no token and waits for
    none. *)
Theorem retries_not_rate_limited (L : Lib) (E : Env) (fuel : nat)
    (verb endpoint path : string) (params : list (string * PyVal)) (data : PyVal)
    (extra : option (gmap string PyVal)) (use_rdt : bool) (rdt_token : PyVal)
    (st : State) :
  rate_limiter (snd (request L E fuel verb endpoint path params data extra use_rdt
                       rdt_token st))
  = rate_limiter (snd (acquire E fuel endpoint st)).
Proof.
  pose proof (build_request_never_sends L E fuel verb endpoint path params data extra
                use_rdt rdt_token st) as (_ & _ & _ & Hlim).
  cbv zeta in Hlim. rewrite request_run.
  destruct (build_request L E fuel verb endpoint path params data extra use_rdt
              rdt_token st) as [[r| |] st1]; simpl in *; try exact Hlim.
  pose proof (execute_with_retry_components L E r st1) as (_ & _ & _ & H4 & _).
  congruence.
Qed.

(** ** Bursts *)

Section Burst.

Variable E : Env.
Hypothesis Hclock : clock_monotone E.

(** While time passes a refill takes nothing away. *)
Lemma refill_keeps_tokens (t : Q) (b : Bucket) :
  bucket_ok b -> (last_refill b <= t)%Q -> (tokens b <= tokens (refill t b))%Q.
Proof.
  intros (H0 & Hmax & Hrate) Ht. simpl. apply Q.min_glb; [exact Hmax|].
  assert (0 <= (t - last_refill b) * refill_rate b)%Q
    by (apply Qmult_le_0_compat; lra).
  lra.
Qed.

Lemma after_acquires_cons (call : nat * string) (calls : list (nat * string))
    (st : State) :
  after_acquires E (call :: calls) st
  = after_acquires E calls (snd (acquire E (fst call) (snd call) st)).
Proof. reflexivity. Qed.

(** A call that finds a token in the bucket returns in its first pass. *)
Lemma acquire_with_token (fuel : nat) (endpoint : string) (st : State) (b : Bucket) :
  limiter_ok E st ->
  buckets (rate_limiter st) !! endpoint = Some b ->
  (1 <= tokens b)%Q ->
  exists st' b',
    acquire E (S fuel) endpoint st = (Ret tt, st')
    /\ limiter_ok E st'
    /\ buckets (rate_limiter st') !! endpoint = Some b'
    /\ (tokens b - 1 <= tokens b')%Q
    /\ clock_reads (world st') = S (clock_reads (world st))
    /\ slept (world st') = slept (world st).
Proof.
  intros Hok Hb Hone.
  destruct (Hok _ _ Hb) as [Hbok Hlast].
  pose proof (refill_keeps_tokens (clock E (clock_reads (world st))) b Hbok Hlast) as Hkeep.
  destruct (acquire_iteration_grant E endpoint st b Hb)
    as (st1 & Hrun & Hbs & _ & _ & Hreads & Hslept); [lra|].
  pose proof (acquire_iteration_ok E Hclock endpoint st Hok) as Hok1.
  rewrite Hrun in Hok1.
  exists st1, (consume (refill (clock E (clock_reads (world st))) b)).
  split.
  { unfold acquire, bind at 1, get. rewrite Hb. unfold bind at 1, ret.
    change (acquire_loop E (S fuel) endpoint)
      with (granted <- acquire_iteration E endpoint ;;
            if granted then ret tt else acquire_loop E fuel endpoint).
    unfold bind at 1. by rewrite Hrun. }
  split; [exact Hok1|].
  split; [rewrite Hbs; apply lookup_insert_eq|].
  split; [|by split].
  change (tokens b - 1 <= tokens (refill (clock E (clock_reads (world st))) b) - 1)%Q.
  lra.
Qed.

Lemma burst_run (fuel : nat) (endpoint : string) (k : nat) :
  forall (st : State) (b : Bucket),
    limiter_ok E st ->
    buckets (rate_limiter st) !! endpoint = Some b ->
    (inject_Z (Z.of_nat k) <= tokens b)%Q ->
    (forall i, (i < k)%nat ->
       fst (acquire E (S fuel) endpoint
              (after_acquires E (replicate i (S fuel, endpoint)) st)) = Ret tt)
    /\ slept (world (after_acquires E (replicate k (S fuel, endpoint)) st))
       = slept (world st)
    /\ clock_reads (world (after_acquires E (replicate k (S fuel, endpoint)) st))
       = (clock_reads (world st) + k)%nat.
Proof.
  induction k as [|k IH]; intros st b Hok Hb Hk.
  { split; [intros i Hi; lia|]. split; [reflexivity|]. simpl. lia. }
  assert (inject_Z (Z.of_nat (S k)) == inject_Z (Z.of_nat k) + 1)%Q as Hsucc.
  { rewrite Nat2Z.inj_succ, <- Z.add_1_r, inject_Z_plus. reflexivity. }
  assert (0 <= inject_Z (Z.of_nat k))%Q as Hnn.
  { change 0%Q with (inject_Z 0). rewrite <- Zle_Qle. lia. }
  destruct (acquire_with_token fuel endpoint st b Hok Hb)
    as (st' & b' & Hrun & Hok' & Hb' & Htok & Hreads & Hslept); [lra|].
  destruct (IH st' b' Hok' Hb') as (Hall & Hs & Hr); [lra|].
  assert (forall i,
            after_acquires E (replicate (S i) (S fuel, endpoint)) st
            = after_acquires E (replicate i (S fuel, endpoint)) st') as Hstep.
  { intros i. change (replicate (S i) (S fuel, endpoint))
      with ((S fuel, endpoint) :: replicate i (S fuel, endpoint)).
    rewrite after_acquires_cons. cbn [fst snd]. by rewrite Hrun. }
  split.
  { intros [|i] Hi.
    - change (after_acquires E (replicate 0 (S fuel, endpoint)) st) with st.
      by rewrite Hrun.
    - rewrite Hstep. apply Hall. lia. }
  rewrite Hstep. split; [by rewrite Hs|]. rewrite Hr, Hreads. lia.
Qed.

End Burst.

(** X25: the burst.  While time passes, from buckets within their bounds, a
    bucket that holds at least [k] tokens serves [k] calls in a row without
    waiting: each of them returns in its first pass through the loop, having
    read the clock once, and none of them sleeps, however little time lies
    between them. *)
Theorem burst_granted_without_waiting (E : Env) (fuel : nat) (endpoint : string)
    (k : nat) (st : State) (b : Bucket) :
  clock_monotone E ->
  limiter_ok E st ->
  buckets (rate_limiter st) !! endpoint = Some b ->
  (inject_Z (Z.of_nat k) <= tokens b)%Q ->
  (forall i, (i < k)%nat ->
     fst (acquire E (S fuel) endpoint
            (after_acquires E (replicate i (S fuel, endpoint)) st)) = Ret tt)
  /\ slept (world (after_acquires E (replicate k (S fuel, endpoint)) st))
     = slept (world st)
  /\ clock_reads (world (after_acquires E (replicate k (S fuel, endpoint)) st))
     = (clock_reads (world st) + k)%nat.
Proof.
  intros Hclock Hok Hb Hk. by apply burst_run with (b := b).
Qed.

Lemma burst_granted_without_waiting_witness :
  slept (world (after_acquires (scripted []) (replicate 20 (1%nat, "orders"))
                  (SPAPIClient_init (scripted []) test_config))) = []
  /\ fst (acquire (scripted []) 1 "orders"
            (after_acquires (scripted []) (replicate 19 (1%nat, "orders"))
               (SPAPIClient_init (scripted []) test_config))) = Ret tt.
Proof.
  destruct (burst_granted_without_waiting (scripted []) 0 "orders" 20
              (SPAPIClient_init (scripted []) test_config)
              {| tokens := 20; max_tokens := 20; refill_rate := 167 # 10000;
                 last_refill := 0 |}
              (scripted_clock_monotone [])
              (SPAPIClient_init_ok (scripted []) (scripted_clock_monotone []) test_config))
    as (Hall & Hslept & _).
  - vm_compute. reflexivity.
  - vm_compute. discriminate.
  - split; [rewrite Hslept; vm_compute; reflexivity|]. apply Hall. lia.
Defined.

(** ** The configuration *)

Lemma first_missing_spec (fields : list (string * (SPAPIConfig -> string)))
    (c : SPAPIConfig) (field : string) :
  first_missing fields c = Some field <->
  exists (i : nat) (getattr : SPAPIConfig -> string),
    fields !! i = Some (field, getattr)
    /\ getattr c = ""
    /\ (forall (j : nat) f, (j < i)%nat -> fields !! j = Some f -> snd f c <> "").
Proof.
  induction fields as [|[name get] rest IH]; simpl.
  { split; [done|]. by intros (i & getattr & Hi & _). }
  destruct (String.eqb_spec (get c) "") as [Heq|Hne].
  - split.
    + intros [= <-]. exists 0%nat, get. split; [done|]. split; [done|]. intros; lia.
    + intros (i & getattr & Hi & Hget & Hbefore).
      destruct i as [|i]; [by simplify_eq/=|].
      by destruct (Hbefore 0%nat (name, get) ltac:(lia) eq_refl).
  - rewrite IH. split.
    + intros (i & getattr & Hi & Hget & Hbefore).
      exists (S i), getattr. split; [done|]. split; [done|].
      intros [|j] f Hj Hf; [by simplify_eq/=|]. apply (Hbefore j); [lia|done].
    + intros (i & getattr & Hi & Hget & Hbefore).
      destruct i as [|i]; [by simplify_eq/=|].
      exists i, getattr. split; [done|]. split; [done|].
      intros j f Hj Hf. apply (Hbefore (S j)); [lia|done].
Qed.

Lemma first_missing_none (fields : list (string * (SPAPIConfig -> string)))
    (c : SPAPIConfig) :
  first_missing fields c = None <-> Forall (fun f => snd f c <> "") fields.
Proof.
  induction fields as [|[name get] rest IH]; simpl.
  { split; [constructor|done]. }
  destruct (String.eqb_spec (get c) "") as [Heq|Hne].
  - split; [done|]. intros H. by inversion H.
  - rewrite IH. split; [by constructor|]. intros H. by inversion H.
Qed.

(** No required field is the base URL. *)
Lemma required_fields_base_url (u : string) (c : SPAPIConfig) :
  Forall (fun f => snd f (set_base_url u c) = snd f c) required_fields.
Proof. repeat constructor. Qed.

Lemma first_missing_ext (fields : list (string * (SPAPIConfig -> string)))
    (c c' : SPAPIConfig) :
  Forall (fun f => snd f c' = snd f c) fields ->
  first_missing fields c' = first_missing fields c.
Proof.
  induction 1 as [|[name get] rest Hf _ IH]; [done|].
  simpl in *. by rewrite Hf, IH.
Qed.

Lemma post_init_first_missing (str_lower : string -> string) (self : SPAPIConfigFields) :
  SPAPIConfig_post_init str_lower self =
    match first_missing required_fields (settings self) with
    | Some field => ValueError ("Missing required configuration: " +:+ field)
    | None =>
        Initialized
          {| settings :=
               if sandbox self
               then set_base_url ("https://sandbox.sellingpartnerapi-"
                                  +:+ str_lower (region self) +:+ ".amazon.com")
                      (settings self)
               else settings self;
             region := region self;
             marketplace_ids :=
               match marketplace_ids self with
               | None => Some ["A1RKKUPIHCS9HS"]
               | Some ids => Some ids
               end;
             sandbox := sandbox self |}
    end.
Proof.
  unfold SPAPIConfig_post_init. destruct (sandbox self); [|done].
  by rewrite (first_missing_ext required_fields (settings self))
    by apply required_fields_base_url.
Qed.

(** X26: the constructor of the configuration accepts exactly the
    arguments whose seven required fields are all non-empty, and otherwise
    raises [ValueError] naming the first empty one in the order
    [client_id], [client_secret], [refresh_token], [aws_access_key_id],
    [aws_secret_access_key], [aws_region], [aws_role_arn].  An accepted
    configuration keeps every setting, except that in sandbox mode the base
    URL is replaced by the sandbox URL of the region, whatever base URL was
    passed, and that marketplace identifiers left out become the Spanish
    marketplace, while an empty list is kept. *)
Theorem post_init_names_first_missing_field (str_lower : string -> string)
    (self : SPAPIConfigFields) :
  (forall message,
      SPAPIConfig_post_init str_lower self = ValueError message <->
      exists (i : nat) (field : string) (getattr : SPAPIConfig -> string),
        required_fields !! i = Some (field, getattr)
        /\ getattr (settings self) = ""
        /\ (forall (j : nat) f,
              (j < i)%nat -> required_fields !! j = Some f -> snd f (settings self) <> "")
        /\ message = "Missing required configuration: " +:+ field)
  /\ ((exists self', SPAPIConfig_post_init str_lower self = Initialized self') <->
      Forall (fun f => snd f (settings self) <> "") required_fields)
  /\ (forall self',
        SPAPIConfig_post_init str_lower self = Initialized self' ->
        region self' = region self
        /\ sandbox self' = sandbox self
        /\ (sandbox self = false -> settings self' = settings self)
        /\ (sandbox self = true ->
            settings self'
            = set_base_url ("https://sandbox.sellingpartnerapi-"
                            +:+ str_lower (region self) +:+ ".amazon.com")
                (settings self))
        /\ (marketplace_ids self = None ->
            marketplace_ids self' = Some ["A1RKKUPIHCS9HS"])
        /\ (forall ids, marketplace_ids self = Some ids ->
                        marketplace_ids self' = Some ids)).
Proof.
  rewrite post_init_first_missing.
  split; [|split].
  - intros message. split.
    + destruct (first_missing required_fields (settings self)) as [field|] eqn:Hm;
        [|done].
      intros [= <-]. apply first_missing_spec in Hm as (i & getattr & Hi & Hget & Hb).
      by exists i, field, getattr.
    + intros (i & field & getattr & Hi & Hget & Hb & ->).
      assert (first_missing required_fields (settings self) = Some field) as ->; [|done].
      apply first_missing_spec. by exists i, getattr.
  - rewrite <- first_missing_none.
    destruct (first_missing required_fields (settings self)) as [field|].
    + split; [by intros [self' [=]]|done].
    + split; [done|]. intros _. by eexists.
  - intros self'.
    destruct (first_missing required_fields (settings self)) as [field|]; [done|].
    intros [= <-]. cbn [region sandbox settings marketplace_ids].
    split; [done|]. split; [done|].
    split; [by intros ->|]. split; [by intros ->|].
    split; [by intros ->|]. by intros ids ->.
Qed.

(** The constructor on arguments with two required fields left empty: the
    error names the first of them. *)
Example post_init_incomplete :
  SPAPIConfig_post_init ascii_lower incomplete_fields
  = ValueError "Missing required configuration: client_secret".
Proof. reflexivity. Qed.

Section Role.

Variable E : Env.

(** With a role configured and nothing cached, the credentials come from
    STS. *)
Lemma get_credentials_by_role (st : State) :
  aws_role_arn (config st) <> "" ->
  aws_credentials st = None ->
  get_credentials E st =
    match sts_assume_role E (sts_calls (world st)) with
    | StsFailure m =>
        (Raise (Exception ("AWS credentials error: " +:+ m)), assumed st)
    | StsCredentials key secret session =>
        let c := {| access_key := key; secret_key := secret; token := Some session |} in
        (Ret c, set_credentials (Some c) (assumed st))
    end.
Proof.
  intros Hrole Hnone.
  unfold get_credentials, bind at 1, get. rewrite Hnone.
  apply String.eqb_neq in Hrole. rewrite Hrole. cbn [negb].
  unfold try_except, bind, assume_role, raise, modify, ret.
  by destruct (sts_assume_role E (sts_calls (world st))).
Qed.

End Role.

(** X27: a configuration that the constructor accepted has a role, so the
    signing credentials always come from STS: with nothing cached,
    [get_credentials] calls [assume_role] once, and returns the temporary
    credentials of the answer or raises the refusal as
    ["AWS credentials error: ..."].  The branch that signs with the keys of
    the configuration itself is never taken. *)
Theorem accepted_config_assumes_role (str_lower : string -> string) (E : Env)
    (self self' : SPAPIConfigFields) (st : State) :
  SPAPIConfig_post_init str_lower self = Initialized self' ->
  config st = settings self' ->
  aws_credentials st = None ->
  sts_calls (world (snd (get_credentials E st))) = S (sts_calls (world st))
  /\ match sts_assume_role E (sts_calls (world st)) with
     | StsFailure m =>
         fst (get_credentials E st) = Raise (Exception ("AWS credentials error: " +:+ m))
     | StsCredentials key secret session =>
         fst (get_credentials E st)
         = Ret {| access_key := key; secret_key := secret; token := Some session |}
     end.
Proof.
  intros Hinit Hconfig Hnone.
  assert (aws_role_arn (config st) <> "") as Hrole.
  { rewrite Hconfig. rewrite post_init_first_missing in Hinit.
    destruct (first_missing required_fields (settings self)) as [field|] eqn:Hm; [done|].
    apply first_missing_none in Hm.
    assert (aws_role_arn (settings self) <> "") as Hr.
    { rewrite Forall_forall in Hm.
      apply (Hm ("aws_role_arn", aws_role_arn)). unfold required_fields.
      repeat (apply list_elem_of_here || apply list_elem_of_further). }
    injection Hinit as <-. cbn [settings]. by destruct (sandbox self). }
  rewrite (get_credentials_by_role E st Hrole Hnone).
  by destruct (sts_assume_role E (sts_calls (world st))).
Qed.

Lemma accepted_config_assumes_role_witness :
  exists self',
    SPAPIConfig_post_init ascii_lower sandbox_fields = Initialized self'
    /\ base_url (settings self') = "https://sandbox.sellingpartnerapi-eu.amazon.com"
    /\ fst (get_credentials (scripted []) (blank (settings self')))
       = Ret {| access_key := "ASIAKEY"; secret_key := "secret";
                token := Some "session" |}.
Proof.
  eexists. split; [vm_compute; reflexivity|]. split; [vm_compute; reflexivity|].
  exact (proj2 (accepted_config_assumes_role ascii_lower (scripted []) sandbox_fields _
                  (blank _) eq_refl eq_refl eq_refl)).
Defined.

(** ** Validation of the connection *)

Section ConnectionChecks.

Variable E : Env.
Variable isoformat : Q -> string.
Variable round2 : Q -> Q.
Variable get_caller_identity : nat -> IdentityReply.

(** The validation of the token manager returns, and outside the token
    cache it changes the clock and the count of exchanges only. *)
Lemma lwa_validation_returns (st : State) :
  exists result st' (b : bool),
    LWATokenManager_validate_credentials E isoformat st = (Ret result, st')
    /\ result !! "valid" = Some (VBool b)
    /\ token_only st st'
    /\ lwa_posts (world st') = S (lwa_posts (world st))
    /\ (fst (_refresh_access_token E st) = Ret tt -> b = true).
Proof.
  unfold LWATokenManager_validate_credentials, try_except, bind at 1, get.
  unfold bind at 1.
  pose proof (refresh_posts_once E st) as Hposts.
  pose proof (refresh_token_only E st) as Hframe.
  pose proof (refresh_not_pending E st) as Hnp.
  destruct (_refresh_access_token E st) as [[[]|e|] st1] eqn:Hr;
    simpl in Hframe, Hnp, Hposts; [| |done].
  - unfold bind at 1, get. unfold bind at 1.
    assert (exists st2,
              (if truthy (access_token (lwa_manager st)) then
                 expired <- _is_token_expired E ;;
                 if negb expired
                 then modify (set_access_token (access_token (lwa_manager st)))
                 else ret tt
               else ret tt) st1 = (Ret tt, st2)
              /\ token_only st1 st2
              /\ lwa_posts (world st2) = lwa_posts (world st1))
      as (st2 & -> & Hframe2 & Hposts2).
    { destruct (truthy (access_token (lwa_manager st))).
      - unfold bind at 1.
        pose proof (is_token_expired_token_only E st1) as Hf.
        destruct (is_token_expired_returns E st1) as (b & st2 & Hrun & Hp & _).
        rewrite Hrun in Hf |- *. simpl in Hf.
        destruct b; simpl; eexists; (split; [reflexivity|]);
          (split; [|exact Hp]); [exact Hf|].
        destruct Hf as (A1 & A2 & A3 & A4 & A5 & A6 & A7). by repeat split.
      - eexists. split; [reflexivity|]. split; [by repeat split|done]. }
    eexists _, _, true. split; [reflexivity|].
    split; [apply lookup_insert_eq|].
    split; [by eapply token_only_trans|]. split; [congruence|done].
  - eexists _, _, false. split; [reflexivity|].
    split; [apply lookup_insert_eq|]. split; [exact Hframe|]. split; [exact Hposts|done].
Qed.

(** The validation of the signing side returns; it is valid exactly when
    STS names the caller, whatever becomes of the role; and it leaves the
    components as they are. *)
Lemma aws_validation_returns (st : State) :
  exists result st' (b : bool),
    AWSAuthManager_validate_credentials E get_caller_identity st = (Ret result, st')
    /\ result !! "valid" = Some (VBool b)
    /\ (b = true <->
        exists response, get_caller_identity (sts_calls (world st)) = Identity response)
    /\ config st' = config st
    /\ lwa_manager st' = lwa_manager st
    /\ aws_credentials st' = aws_credentials st
    /\ rate_limiter st' = rate_limiter st
    /\ clock_reads (world st') = clock_reads (world st)
    /\ lwa_posts (world st') = lwa_posts (world st).
Proof.
  unfold AWSAuthManager_validate_credentials, try_except, bind at 1, get.
  destruct (get_caller_identity (sts_calls (world st))) as [m|response].
  { eexists _, _, false. split; [reflexivity|].
    split; [apply lookup_insert_eq|].
    split; [split; [done|by intros [response [=]]]|]. by repeat split. }
  destruct (negb (String.eqb (aws_role_arn (config st)) "")).
  - unfold bind, assume_role, raise, ret.
    destruct (sts_assume_role E (sts_calls (world st))) as [m|key secret session];
      eexists _, _, true; (split; [reflexivity|]);
      (split; [by rewrite !lookup_insert_ne by done; apply lookup_insert_eq|]);
      (split; [split; [by eexists|done]|]); by repeat split.
  - eexists _, _, true. split; [reflexivity|].
    split; [apply lookup_insert_eq|].
    split; [split; [by eexists|done]|]. by repeat split.
Qed.

(** With a role configured that STS refuses, the signing side is reported
    valid, with the refusal beside. *)
Lemma aws_validation_role_refused (st : State) (response : list (string * PyVal))
    (m : string) :
  get_caller_identity (sts_calls (world st)) = Identity response ->
  aws_role_arn (config st) <> "" ->
  sts_assume_role E (sts_calls (world st)) = StsFailure m ->
  exists result,
    AWSAuthManager_validate_credentials E get_caller_identity st
    = (Ret result, assumed st)
    /\ result !! "valid" = Some (VBool true)
    /\ result !! "role_assumed" = Some (VBool false)
    /\ result !! "role_error" = Some (VStr m).
Proof.
  intros Hid Hrole Hsts.
  unfold AWSAuthManager_validate_credentials, try_except, bind at 1, get.
  rewrite Hid. apply String.eqb_neq in Hrole. rewrite Hrole. cbn [negb].
  unfold bind, assume_role, raise, ret. rewrite Hsts.
  eexists. split; [reflexivity|].
  split; [by rewrite !lookup_insert_ne by done; apply lookup_insert_eq|].
  split; [by rewrite !lookup_insert_ne by done; apply lookup_insert_eq|].
  by rewrite !lookup_insert_ne by done; apply lookup_insert_eq.
Qed.

(** The status is read off the buckets, which stay as they are. *)
Lemma get_status_run (st : State) :
  exists status,
    get_status E round2 st = (Ret status, ticked st)
    /\ dom status = dom (buckets (rate_limiter st)).
Proof.
  unfold get_status, bind, now, get, ret. eexists. split; [reflexivity|].
  apply set_eq. intros endpoint. rewrite !elem_of_dom.
  cbn [rate_limiter set_world]. rewrite map_lookup_imap.
  destruct (buckets (rate_limiter st) !! endpoint) as [b|]; simpl.
  - split; eauto.
  - split; by intros [x [=]].
Qed.

(** The last steps of [validate_connection]. *)
Lemma validate_connection_run (st st1 st2 : State) (lwa aws : gmap string PyVal)
    (b1 b2 : bool) :
  LWATokenManager_validate_credentials E isoformat st = (Ret lwa, st1) ->
  AWSAuthManager_validate_credentials E get_caller_identity st1 = (Ret aws, st2) ->
  lwa !! "valid" = Some (VBool b1) ->
  aws !! "valid" = Some (VBool b2) ->
  exists status,
    validate_connection E isoformat round2 get_caller_identity st
    = (Ret {| lwa_auth := lwa; aws_auth := aws; rate_limiter_status := status;
              overall_valid := VBool (b1 && b2) |}, ticked st2)
    /\ dom status = dom (buckets (rate_limiter st2)).
Proof.
  intros Hlwa Haws H1 H2.
  destruct (get_status_run st2) as (status & Hstatus & Hdom).
  exists status. split; [|exact Hdom].
  unfold validate_connection. unfold bind at 1. rewrite Hlwa.
  unfold bind at 1. rewrite Haws. unfold bind at 1. rewrite Hstatus.
  unfold bind, dict_subscript, ret. rewrite H1. cbn [truthy].
  destruct b1; cbn [andb]; [by rewrite H2|done].
Qed.

End ConnectionChecks.

(** X28: [validate_connection] never raises.  Whatever the token endpoint
    and STS answer, it returns a report in which both sides have a boolean
    under ["valid"] and [overall_valid] is their conjunction; the signing
    side is valid exactly when STS names the caller, whether or not the role
    can then be assumed; the status lists exactly the buckets; and the call
    leaves the buckets and the cached signing credentials as they were,
    while the token endpoint has been asked once. *)
Theorem validate_connection_never_raises (E : Env) (isoformat : Q -> string)
    (round2 : Q -> Q) (get_caller_identity : nat -> IdentityReply) (st : State) :
  exists report st' (b1 b2 : bool),
    validate_connection E isoformat round2 get_caller_identity st = (Ret report, st')
    /\ lwa_auth report !! "valid" = Some (VBool b1)
    /\ aws_auth report !! "valid" = Some (VBool b2)
    /\ overall_valid report = VBool (b1 && b2)
    /\ (b2 = true <->
        exists response, get_caller_identity (sts_calls (world st)) = Identity response)
    /\ dom (rate_limiter_status report) = dom (buckets (rate_limiter st))
    /\ rate_limiter st' = rate_limiter st
    /\ aws_credentials st' = aws_credentials st
    /\ lwa_posts (world st') = S (lwa_posts (world st)).
Proof.
  destruct (lwa_validation_returns E isoformat st)
    as (lwa & st1 & b1 & Hlwa & H1 & (A1 & A2 & A3 & A4 & A5 & A6 & A7) & Hposts & _).
  destruct (aws_validation_returns E get_caller_identity st1)
    as (aws & st2 & b2 & Haws & H2 & Hb2 & B1 & B2 & B3 & B4 & B5 & B6).
  destruct (validate_connection_run E isoformat round2 get_caller_identity st st1 st2
              lwa aws b1 b2 Hlwa Haws H1 H2) as (status & Hrun & Hdom).
  eexists _, _, b1, b2. split; [exact Hrun|]. cbn [lwa_auth aws_auth overall_valid
    rate_limiter_status].
  split; [exact H1|]. split; [exact H2|]. split; [reflexivity|].
  split; [by rewrite <- A5|].
  split; [by rewrite Hdom, B4, A3|].
  split; [cbn; congruence|]. split; [cbn; congruence|].
  cbn. congruence.
Qed.

(** X29: a connection reported valid may be unable to sign.  When the token
    endpoint grants a token with a lifetime the library can represent and
    STS names the caller but refuses the role, [validate_connection] reports
    [overall_valid] true, with the refusal recorded beside under
    ["role_assumed"]; yet with the role still refused the next
    [get_credentials], on which every signature depends, raises
    ["AWS credentials error: ..."]. *)
Theorem valid_connection_cannot_sign (E : Env) (isoformat : Q -> string)
    (round2 : Q -> Q) (get_caller_identity : nat -> IdentityReply) (st : State)
    (tok : PyVal) (expires : option PyVal) (n : Z)
    (response : list (string * PyVal)) (m m' : string) :
  grants (lwa_post E (lwa_posts (world st))) tok expires ->
  as_int (default (VInt 3600) expires) = Some n ->
  lifetime_in_range (clock E (clock_reads (world st))) n ->
  get_caller_identity (sts_calls (world st)) = Identity response ->
  aws_role_arn (config st) <> "" ->
  aws_credentials st = None ->
  sts_assume_role E (sts_calls (world st)) = StsFailure m ->
  sts_assume_role E (S (sts_calls (world st))) = StsFailure m' ->
  exists report st',
    validate_connection E isoformat round2 get_caller_identity st = (Ret report, st')
    /\ overall_valid report = VBool true
    /\ aws_auth report !! "role_assumed" = Some (VBool false)
    /\ aws_auth report !! "role_error" = Some (VStr m)
    /\ fst (get_credentials E st') = Raise (Exception ("AWS credentials error: " +:+ m')).
Proof.
  intros Hgrant Hn Hrange Hid Hrole Hnone Hsts Hsts'.
  destruct (lwa_validation_returns E isoformat st)
    as (lwa & st1 & b1 & Hlwa & H1 & (A1 & A2 & A3 & A4 & A5 & A6 & A7) & _ & Hb1).
  rewrite (refresh_granted E st tok expires n Hgrant Hn Hrange) in Hb1.
  rewrite (Hb1 eq_refl) in H1.
  destruct (aws_validation_role_refused E get_caller_identity st1 response m)
    as (aws & Haws & H2 & Hassumed & Herror).
  { by rewrite A5. }
  { by rewrite A1. }
  { by rewrite A5. }
  destruct (validate_connection_run E isoformat round2 get_caller_identity st st1
              (assumed st1) lwa aws true true Hlwa Haws H1 H2) as (status & Hrun & _).
  eexists _, _. split; [exact Hrun|]. cbn [overall_valid aws_auth andb].
  split; [reflexivity|]. split; [exact Hassumed|]. split; [exact Herror|].
  rewrite get_credentials_by_role.
  - cbn. rewrite A5, Hsts'. reflexivity.
  - cbn. by rewrite A1.
  - cbn. by rewrite A2.
Qed.

Lemma valid_connection_cannot_sign_witness :
  exists report st',
    validate_connection role_refused (fun _ => "2024-01-01T01:00:08") (fun q => q)
      identified (SPAPIClient_init role_refused test_config) = (Ret report, st')
    /\ overall_valid report = VBool true
    /\ fst (get_credentials role_refused st')
       = Raise (Exception "AWS credentials error: AccessDenied").
Proof.
  destruct (valid_connection_cannot_sign role_refused (fun _ => "2024-01-01T01:00:08")
              (fun q => q) identified (SPAPIClient_init role_refused test_config)
              (VStr "Atza|token") (Some (VInt 3600)) 3600
              [("Account", VStr "123456789012"); ("UserId", VStr "AIDAEXAMPLE");
               ("Arn", VStr "arn:aws:iam::123456789012:user/sp-api")]
              "AccessDenied" "AccessDenied")
    as (report & st' & Hrun & Hvalid & _ & _ & Hsign).
  - exists 200%Z, [("access_token", VStr "Atza|token"); ("expires_in", VInt 3600)].
    split; [reflexivity|]. split; [lia|]. split; reflexivity.
  - reflexivity.
  - split; [vm_compute; split; discriminate|].
    split; [vm_compute; discriminate|vm_compute; reflexivity].
  - reflexivity.
  - vm_compute. discriminate.
  - vm_compute. reflexivity.
  - reflexivity.
  - reflexivity.
  - exists report, st'. split; [exact Hrun|]. split; [exact Hvalid|exact Hsign].
Defined.

(** ** The signing credentials over the life of a client *)

Section Lifetime.

Variable L : Lib.
Variable E : Env.

(** With credentials cached, signing asks nobody. *)
Lemma create_signed_request_cached (verb address : string)
    (h : option (gmap string PyVal)) (data : option string) (st : State)
    (c : Credentials) :
  aws_credentials st = Some c ->
  let st' := snd (create_signed_request L E verb address h data st) in
  aws_credentials st' = Some c /\ sts_calls (world st') = sts_calls (world st).
Proof.
  intros Hc. cbv zeta.
  assert (get_credentials E st = (Ret c, st)) as Hget.
  { unfold get_credentials, bind, get. by rewrite Hc. }
  unfold create_signed_request, sign_request, bind, get, now, ret.
  rewrite Hget. simpl. by split.
Qed.

Lemma build_request_cached (fuel : nat) (verb endpoint path : string)
    (params : list (string * PyVal)) (data : PyVal)
    (extra : option (gmap string PyVal)) (use_rdt : bool) (rdt_token : PyVal)
    (st : State) (c : Credentials) :
  aws_credentials st = Some c ->
  let st' := snd (build_request L E fuel verb endpoint path params data extra use_rdt
                    rdt_token st) in
  aws_credentials st' = Some c /\ sts_calls (world st') = sts_calls (world st).
Proof.
  intros Hc. cbv zeta.
  pose (kept := fun st' : State =>
                  aws_credentials st' = Some c
                  /\ sts_calls (world st') = sts_calls (world st)).
  change (kept (snd (build_request L E fuel verb endpoint path params data extra
                       use_rdt rdt_token st))).
  unfold build_request. unfold bind at 1.
  pose proof (acquire_limiter_only E fuel endpoint st) as (_ & _ & A3 & _ & _ & A6 & _).
  destruct (acquire E fuel endpoint st) as [[[]| |] st1]; simpl in A3, A6;
    [|split; simpl; congruence|split; simpl; congruence].
  unfold bind at 1. unfold get at 1. unfold bind at 1.
  assert (forall h st2,
            kept st2 ->
            kept (snd ((aws_request <- create_signed_request L E (str_upper L verb)
                                         (urljoin L (base_url (config st1)) path) (Some h)
                                         (request_data_of L data) ;;
                        ret (add_query L params aws_request)) st2)))
    as Htail.
  { intros h st2 [Hc2 Hs2]. unfold bind.
    pose proof (create_signed_request_cached (str_upper L verb)
                  (urljoin L (base_url (config st1)) path) (Some h)
                  (request_data_of L data) st2 c Hc2) as [B1 B2].
    cbv zeta in B1, B2.
    destruct (create_signed_request L E _ _ _ _ st2) as [[r| |] st3];
      simpl in *; split; congruence. }
  destruct (use_rdt && truthy rdt_token).
  - apply Htail. split; congruence.
  - unfold bind at 1.
    pose proof (get_access_token_token_only E false st1)
      as (_ & T2 & _ & _ & T5 & _ & _).
    destruct (get_access_token E false st1) as [[tok| |] st2]; simpl in T2, T5;
      [|split; simpl; congruence|split; simpl; congruence].
    apply Htail. split; congruence.
Qed.

Lemma request_cached (call : Call) (st : State) (c : Credentials) :
  aws_credentials st = Some c ->
  aws_credentials (snd (request_of L E call st)) = Some c
  /\ sts_calls (world (snd (request_of L E call st))) = sts_calls (world st).
Proof.
  intros Hc. unfold request_of. rewrite request_run.
  pose proof (build_request_cached (call_fuel call) (call_method call)
                (call_endpoint call) (call_path call) (call_params call)
                (call_data call) (call_headers call) (call_use_rdt call)
                (call_rdt_token call) st c Hc) as [B1 B2].
  cbv zeta in B1, B2.
  destruct (build_request L E _ _ _ _ _ _ _ _ _ st) as [[r| |] st1]; simpl in *;
    [|by split|by split].
  pose proof (execute_with_retry_components L E r st1)
    as (_ & _ & S3 & _ & _ & _ & _ & S8).
  split; congruence.
Qed.

End Lifetime.

(** X30: signing credentials, once cached, are kept for the life of the
    client.  From a state that holds credentials, after every finite
    sequence of calls of [request], whatever they were, however much time
    has passed and whatever the service answered (a 403 included), the
    cache holds those same credentials and STS has not been asked again:
    nothing but [refresh_credentials] replaces them. *)
Theorem cached_credentials_never_renewed (L : Lib) (E : Env) (calls : list Call)
    (st : State) (c : Credentials) :
  aws_credentials st = Some c ->
  aws_credentials (after_requests L E calls st) = Some c
  /\ sts_calls (world (after_requests L E calls st)) = sts_calls (world st).
Proof.
  revert st. induction calls as [|call calls IH]; intros st Hc; [by split|].
  destruct (request_cached L E call st c Hc) as [H1 H2].
  destruct (IH (snd (request_of L E call st)) H1) as [H3 H4].
  change (after_requests L E (call :: calls) st)
    with (after_requests L E calls (snd (request_of L E call st))).
  split; congruence.
Qed.

Lemma cached_credentials_never_renewed_witness :
  sts_calls
    (world
       (after_requests mock_lib (scripted [Response 200 "{}"; Response 403 "{}"])
          [orders_call; orders_call]
          (snd (request_of mock_lib (scripted [Response 200 "{}"; Response 403 "{}"])
                  orders_call
                  (SPAPIClient_init (scripted [Response 200 "{}"; Response 403 "{}"])
                     test_config))))) = 1%nat.
Proof.
  destruct (cached_credentials_never_renewed mock_lib
              (scripted [Response 200 "{}"; Response 403 "{}"])
              [orders_call; orders_call]
              (snd (request_of mock_lib (scripted [Response 200 "{}"; Response 403 "{}"])
                      orders_call
                      (SPAPIClient_init (scripted [Response 200 "{}"; Response 403 "{}"])
                         test_config)))
              {| access_key := "ASIAKEY"; secret_key := "secret";
                 token := Some "session" |}) as [_ Hcalls].
  - vm_compute. reflexivity.
  - rewrite Hcalls. vm_compute. reflexivity.
Defined.
